(** * rf-db-mailer: template rendering, filter pipeline and mail hand-over

    A shallow embedding of [index.js]: the module-level caches
    ([translations], [templates], [subjects]), the reload handlers, the
    render orchestrator [getTemplate], [send], and the filter extension
    [mustacheWax] ([parseParam], [applyFilter], [parseExpression]).

    Conventions.
    - A JavaScript string is a [string] of Latin-1 code units.
    - A JavaScript object used as a dictionary is a [gmap string value]
      of its own data properties; reading a property that is not there
      gives [VUndef]. Inherited properties (the prototype chain) and
      property reads on primitives are not modelled.
    - The three caches are arrays used as dictionaries, with the
      prototype they were created with. An assignment to one is
      [JS.array_set]: a name is stored unless it is [length] or
      [__proto__]. A read of a name that is not stored gives [VUndef];
      the code reads what arrays inherit when the name is one of
      [JS.array_members].
    - A Number is a double: [Fin q] is the finite one of value [q], and
      there are [NaN] and [NegZero]. A Number read from a text is the
      double nearest to what the text denotes ([JS.to_number]). The
      infinities are not values of the model.
    - A function that can throw returns an [outcome]; a function that logs,
      calls back or mutates the caller's object runs in the monad [M]. *)

From Stdlib Require Import Ascii String QArith Qcanon.
From stdpp Require Import gmap strings list fin_maps numbers.

#[local] Open Scope string_scope.
#[local] Set Warnings "-register-all".
#[local] Arguments String.append !s1 s2 : simpl nomatch.

(** ** Outcomes of fallible code *)

Inductive exn :=
  | TypeError (msg : string)
  | SyntaxError (msg : string)
  | RangeError (msg : string)
  | Error (msg : string).

Inductive stuck := OutOfFuel | OutsideFragment.

Inductive outcome (A : Type) :=
  | Ok (a : A)
  | Throw (e : exn)
  | Stuck (why : stuck).
Arguments Ok {A} a.
Arguments Throw {A} e.
Arguments Stuck {A} why.

#[global] Instance outcome_ret : MRet outcome := fun A a => Ok a.
#[global] Instance outcome_bind : MBind outcome := fun A B f m =>
  match m with
  | Ok a => f a
  | Throw e => Throw e
  | Stuck w => Stuck w
  end.

(** ** JavaScript values *)

Inductive number := Fin (q : Qc) | NaN | NegZero.

Inductive value :=
  | VUndef
  | VNull
  | VBool (b : bool)
  | VNum (n : number)
  | VStr (s : string)
  | VObj (fields : gmap string value).

Module JS.

(** Property read [o[k]] on a dictionary. *)
Definition get (o : gmap string value) (k : string) : value :=
  default VUndef (o !! k).

(** Property read [v[k]] on a value known not to be null or undefined. *)
Definition prop (v : value) (k : string) : value :=
  match v with
  | VObj o => get o k
  | _ => VUndef
  end.

Definition truthy (v : value) : bool :=
  match v with
  | VUndef | VNull => false
  | VBool b => b
  | VNum (Fin q) => negb (bool_decide (q = 0%Qc))
  | VNum NaN => false
  | VNum NegZero => false
  | VStr s => negb (String.eqb s "")
  | VObj _ => true
  end.

(** [a || b] *)
Definition or (a b : value) : value := if truthy a then a else b.

(** [a || b] on optional strings ([None] is [undefined]). *)
Definition or_str (a b : option string) : option string :=
  match a with
  | Some s => if String.eqb s "" then b else a
  | None => b
  end.

(** [a || d] where [d] is a non-empty string literal. *)
Definition or_else (a : option string) (d : string) : string :=
  match a with
  | Some s => if String.eqb s "" then d else s
  | None => d
  end.

Definition of_opt (o : option string) : value :=
  match o with
  | Some s => VStr s
  | None => VUndef
  end.

(** What [JSON.stringify] keeps of a value that is not undefined, read
    back by [JSON.parse]: properties whose value is undefined are
    dropped, NaN becomes null and -0 becomes 0. *)
Fixpoint json_value (v : value) : value :=
  match v with
  | VObj o =>
      VObj (omap (fun x => match x with
                           | VUndef => None
                           | _ => Some (json_value x)
                           end) o)
  | VNum NaN => VNull
  | VNum NegZero => VNum (Fin 0%Qc)
  | _ => v
  end.

(** [JSON.parse(JSON.stringify(v))]; [JSON.stringify(undefined)] is
    undefined, which [JSON.parse] refuses. *)
Definition json_copy (v : value) : outcome value :=
  match v with
  | VUndef => Throw (SyntaxError "undefined is not valid JSON")
  | _ => Ok (json_value v)
  end.

(** *** Characters *)

Definition code (c : ascii) : N := N_of_ascii c.

Definition dquote : ascii := ascii_of_N 34.
Definition squote : ascii := ascii_of_N 39.
Definition colon : ascii := ascii_of_N 58.
Definition pipe : ascii := ascii_of_N 124.
Definition dot : ascii := ascii_of_N 46.

(** The regular-expression class [\s], which is also what [trim] removes:
    WhiteSpace and LineTerminator code points (those below 256). *)
Definition is_space (c : ascii) : bool :=
  let n := code c in
  ((9 <=? n) && (n <=? 13) || (n =? 32) || (n =? 160))%N.

(** [\d] *)
Definition is_digit (c : ascii) : bool :=
  let n := code c in ((48 <=? n) && (n <=? 57))%N.

(** What [.] does not match. *)
Definition is_line_terminator (c : ascii) : bool :=
  let n := code c in ((n =? 10) || (n =? 13))%N.

Definition is_quote (c : ascii) : bool :=
  Ascii.eqb c squote || Ascii.eqb c dquote.

(** *** Strings *)

Fixpoint take_while (p : ascii → bool) (s : string) : string :=
  match s with
  | String c s' => if p c then String c (take_while p s') else ""
  | EmptyString => ""
  end.

Fixpoint drop_while (p : ascii → bool) (s : string) : string :=
  match s with
  | String c s' => if p c then drop_while p s' else s
  | EmptyString => ""
  end.

Fixpoint all (p : ascii → bool) (s : string) : bool :=
  match s with
  | String c s' => p c && all p s'
  | EmptyString => true
  end.

Definition is_empty (s : string) : bool :=
  match s with EmptyString => true | _ => false end.

Fixpoint last (s : string) : option ascii :=
  match s with
  | EmptyString => None
  | String c EmptyString => Some c
  | String _ s' => last s'
  end.

Definition trim_start (s : string) : string := drop_while is_space s.

Fixpoint trim_end (s : string) : string :=
  match s with
  | EmptyString => ""
  | String c s' =>
      let r := trim_end s' in
      if is_space c && is_empty r then "" else String c r
  end.

(** [s.trim()] *)
Definition trim (s : string) : string := trim_end (trim_start s).

(** [s.split(sep)] for a one-character separator: never the empty list. *)
Fixpoint split (sep : ascii) (s : string) : list string :=
  match s with
  | EmptyString => [""]
  | String c s' =>
      if Ascii.eqb c sep then "" :: split sep s'
      else match split sep s' with
           | h :: t => String c h :: t
           | [] => [String c ""]
           end
  end.

(** [s.indexOf(c) > 0] *)
Definition index_pos (c : ascii) (s : string) : bool :=
  match s with
  | EmptyString => false
  | String c0 s' =>
      negb (Ascii.eqb c0 c) && negb (all (fun x => negb (Ascii.eqb x c)) s')
  end.

(** *** Numeric literals *)

Definition digit_val (c : ascii) : Z := Z.of_N (code c) - 48.

Fixpoint digits_val (acc : Z) (s : string) : Z :=
  match s with
  | EmptyString => acc
  | String c s' => digits_val (10 * acc + digit_val c) s'
  end.

Definition is_plus (c : ascii) : bool := (code c =? 43)%N.
Definition is_minus (c : ascii) : bool := (code c =? 45)%N.

(** An optional sign: whether it is a minus, and the rest. *)
Definition read_sign (s : string) : bool * string :=
  match s with
  | String c s' =>
      if is_minus c then (true, s')
      else if is_plus c then (false, s') else (false, s)
  | EmptyString => (false, s)
  end.

Definition signed (neg : bool) (z : Z) : Z := if neg then (- z)%Z else z.

(** The decimal [m / 10^e]. *)
Definition decimal (m : Z) (e : nat) : Qc :=
  Q2Qc (Qmake m (Pos.of_nat (10 ^ e))).

(** *** Numbers

    The Number value of a real number: the double nearest to it, a tie
    going to the one with the even mantissa. *)

(** The exponent [k] with [2^k <= n/d < 2^(k+1)], for positive [n] and
    [d]. *)
Definition floor_log2 (n d : Z) : Z :=
  let k := (Z.log2 n - Z.log2 d)%Z in
  if (if 0 <=? k then 2 ^ k * d <=? n else d <=? 2 ^ (- k) * n)%Z
  then k else (k - 1)%Z.

(** [n/d] rounded to the nearest integer, a half to the even one. *)
Definition round_half_even (n d : Z) : Z :=
  let f := (n / d)%Z in
  match (2 * (n mod d) ?= d)%Z with
  | Lt => f
  | Gt => (f + 1)%Z
  | Eq => if Z.even f then f else (f + 1)%Z
  end.

(** The double nearest to [n/d], as a mantissa [m] of at most 53 bits
    and an exponent [x]: its value is [m * 2^x]. Below [2^-1022] the
    doubles are [2^-1074] apart. *)
Definition nearest (n d : Z) : Z * Z :=
  let x := (Z.max (floor_log2 n d) (-1022) - 52)%Z in
  (if (0 <=? x)%Z then round_half_even n (d * 2 ^ x)
   else round_half_even (n * 2 ^ (- x)) d, x).

Definition scale (m x : Z) : Q :=
  if (0 <=? x)%Z then inject_Z (m * 2 ^ x)
  else Qmake m (Z.to_pos (2 ^ (- x))).

(** From [2^1024 - 2^970] on, half way between the largest double and
    [2^1024], the nearest Number is Infinity. *)
Definition overflows (n d : Z) : bool :=
  ((2 ^ 1024 - 2 ^ 970) * d <=? n)%Z.

Definition zero (neg : bool) : number := if neg then NegZero else Fin 0%Qc.

(** The Number value of [n/d], for [n >= 0] and [d > 0], with a minus
    sign when [neg]. The sign of a zero is kept. *)
Definition to_number (neg : bool) (n d : Z) : outcome number :=
  if (n =? 0)%Z then Ok (zero neg)
  else if overflows n d then Stuck OutsideFragment
  else
    let '(m, x) := nearest n d in
    if (m =? 0)%Z then Ok (zero neg)
    else Ok (Fin (Q2Qc (Qred (scale (signed neg m) x)))).

(** [parseInt(s, 10)]: leading white space, an optional sign, then the
    longest run of digits; [NaN] when there is no digit. *)
Definition parseInt (s : string) : outcome number :=
  let '(neg, r) := read_sign (trim_start s) in
  let ds := take_while is_digit r in
  if is_empty ds then Ok NaN
  else to_number neg (digits_val 0 ds) 1.

(** [parseFloat(s)] on decimal literals without exponent part: leading
    white space, an optional sign, digits, and a fraction when a dot
    follows; [NaN] when there is no digit at all. The callers below only
    pass strings that the pattern [isFloat] accepts, which have no
    exponent part. *)
Definition parseFloat (s : string) : outcome number :=
  let '(neg, r) := read_sign (trim_start s) in
  let ip := take_while is_digit r in
  let r' := drop_while is_digit r in
  let fp := match r' with
            | String c r'' =>
                if Ascii.eqb c dot then take_while is_digit r'' else ""
            | EmptyString => ""
            end in
  if is_empty ip && is_empty fp then Ok NaN
  else to_number neg (digits_val (digits_val 0 ip) fp)
         (10 ^ Z.of_nat (String.length fp)).

(** [Number(s)] for a string: white space around it is dropped, what is
    left is nothing (zero), a literal of base 16, 8 or 2, or a decimal
    literal with an optional sign, fraction and exponent part; anything
    else gives [NaN]. An infinity, written out or by overflow, is
    outside the fragment. *)
Definition is_hex (c : ascii) : bool :=
  let n := code c in
  (is_digit c || (65 <=? n) && (n <=? 70) || (97 <=? n) && (n <=? 102))%N.

Definition is_octal (c : ascii) : bool :=
  let n := code c in ((48 <=? n) && (n <=? 55))%N.

Definition is_binary (c : ascii) : bool :=
  let n := code c in ((n =? 48) || (n =? 49))%N.

Definition hex_val (c : ascii) : Z :=
  let n := Z.of_N (code c) in
  if is_digit c then (n - 48)%Z
  else if (n <=? 70)%Z then (n - 55)%Z else (n - 87)%Z.

Fixpoint radix_val (b acc : Z) (s : string) : Z :=
  match s with
  | EmptyString => acc
  | String c s' => radix_val b (b * acc + hex_val c)%Z s'
  end.

(** The base, the digits of the base and the rest of a text that starts
    with [0x], [0o] or [0b], in either case. *)
Definition radix_prefix (s : string) : option (Z * (ascii → bool) * string) :=
  match s with
  | String z (String p r) =>
      let n := code p in
      if negb (code z =? 48)%N then None
      else if ((n =? 120) || (n =? 88))%N then Some (16%Z, is_hex, r)
      else if ((n =? 111) || (n =? 79))%N then Some (8%Z, is_octal, r)
      else if ((n =? 98) || (n =? 66))%N then Some (2%Z, is_binary, r)
      else None
  | _ => None
  end.

(** What follows the digits of a decimal literal: nothing, or an
    exponent part. The exponent. *)
Definition exponent (s : string) : option Z :=
  match s with
  | EmptyString => Some 0%Z
  | String c r =>
      if ((code c =? 101) || (code c =? 69))%N then
        let '(neg, ds) := read_sign r in
        if negb (is_empty ds) && all is_digit ds
        then Some (signed neg (digits_val 0 ds)) else None
      else None
  end.

(** [m * 10^x] as a fraction. *)
Definition times_pow10 (m x : Z) : Z * Z :=
  if (0 <=? x)%Z then (m * 10 ^ x, 1)%Z else (m, 10 ^ (- x))%Z.

(** The fraction that a decimal literal without sign denotes. *)
Definition unsigned_decimal (s : string) : option (Z * Z) :=
  let ip := take_while is_digit s in
  let r := drop_while is_digit s in
  let '(fp, r') :=
    match r with
    | String c r' =>
        if Ascii.eqb c dot
        then (take_while is_digit r', drop_while is_digit r') else ("", r)
    | EmptyString => ("", r)
    end in
  if is_empty ip && is_empty fp then None
  else match exponent r' with
       | Some x =>
           Some (times_pow10 (digits_val (digits_val 0 ip) fp)
                             (x - Z.of_nat (String.length fp)))
       | None => None
       end.

Definition string_to_number (s : string) : outcome number :=
  let t := trim s in
  if is_empty t then Ok (Fin 0%Qc)
  else match radix_prefix t with
       | Some (b, digit, ds) =>
           if negb (is_empty ds) && all digit ds
           then to_number false (radix_val b 0 ds) 1 else Ok NaN
       | None =>
           let '(neg, r) := read_sign t in
           if String.eqb r "Infinity" then Stuck OutsideFragment
           else match unsigned_decimal r with
                | Some (n, d) => to_number neg n d
                | None => Ok NaN
                end
       end.

Definition not_primitive : exn :=
  TypeError "Cannot convert object to primitive value".

(** [Number(v)]. An object is first made a primitive: its [valueOf] is
    the inherited one, which returns the object, or a property that is
    not a function; its [toString] is the inherited one, which knows no
    number, or a property that is not a function, and then there is
    nothing left to call. *)
Definition to_numeric (v : value) : outcome number :=
  match v with
  | VUndef => Ok NaN
  | VNull => Ok (Fin 0%Qc)
  | VBool b => Ok (Fin (if b then 1%Qc else 0%Qc))
  | VNum n => Ok n
  | VStr s => string_to_number s
  | VObj o =>
      match o !! "toString" with
      | Some _ => Throw not_primitive
      | None => Ok NaN
      end
  end.

(** *** Arrays used as dictionaries

    [translations], [templates] and [subjects] are arrays
    ([let templates = []]) that the module reads and writes by name.
    Their own data properties, the elements among them, are what the
    maps of the model hold; the prototype of an array is not part of the
    model. An array differs from a plain map at the following keys.
    - Assigning to [length] sets the number of elements, deleting those
      from the new length on, or throws a RangeError when the value is no
      length. Assigning to [__proto__] calls the setter that arrays
      inherit, which replaces the prototype when the value is an object
      or null and does nothing otherwise. Neither stores a property.
    - Reading a key that is not stored gives what the array inherits
      when the key is the name of a member of [Array.prototype] or
      [Object.prototype] (a function, or the prototype itself for
      [__proto__]), and the number of elements for [length]: not
      undefined. The list is that of ECMAScript 2023 with its annex B;
      earlier editions have fewer members. *)

Definition invalid_length : exn := RangeError "Invalid array length".

(** The length that [v] stands for: a whole number below [2^32]. *)
Definition to_length (v : value) : outcome Z :=
  match to_numeric v with
  | Ok (Fin q) =>
      if (Qden q =? 1)%positive && (0 <=? Qnum q)%Z && (Qnum q <? 2 ^ 32)%Z
      then Ok (Qnum q) else Throw invalid_length
  | Ok NegZero => Ok 0%Z
  | Ok NaN => Throw invalid_length
  | Throw e => Throw e
  | Stuck _ => Throw invalid_length
  end.

(** The index that the key [k] is, when it is one: the canonical decimal
    of a whole number below [2^32 - 1]. *)
Definition array_index (k : string) : option Z :=
  match k with
  | String c r =>
      if all is_digit k && (is_empty r || negb (code c =? 48)%N)
         && (digits_val 0 k <? 2 ^ 32 - 1)%Z
      then Some (digits_val 0 k) else None
  | EmptyString => None
  end.

(** What an assignment [a[k] = v] does to the own properties of an
    array. *)
Inductive update :=
  | Store (k : string) (v : value)
  | Truncate (n : Z)
  | Nothing.

Definition array_setter (k : string) : bool :=
  String.eqb k "length" || String.eqb k "__proto__".

Definition assignment (k : string) (v : value) : outcome update :=
  if String.eqb k "length" then n ← to_length v; Ok (Truncate n)
  else if String.eqb k "__proto__" then Ok Nothing
  else Ok (Store k v).

Definition below (n : Z) (k : string) : bool :=
  match array_index k with
  | Some i => (i <? n)%Z
  | None => true
  end.

Definition perform (u : update) (m : gmap string value)
    : gmap string value :=
  match u with
  | Store k v => <[k := v]> m
  | Truncate n => filter (fun kv => below n kv.1 = true) m
  | Nothing => m
  end.

(** [a[k] = v] *)
Definition array_set (k : string) (v : value) (m : gmap string value)
    : outcome (gmap string value) :=
  u ← assignment k v; Ok (perform u m).

Definition array_members : list string :=
  ["length"; "__proto__"; "constructor";
   "at"; "concat"; "copyWithin"; "entries"; "every"; "fill"; "filter";
   "find"; "findIndex"; "findLast"; "findLastIndex"; "flat"; "flatMap";
   "forEach"; "includes"; "indexOf"; "join"; "keys"; "lastIndexOf"; "map";
   "pop"; "push"; "reduce"; "reduceRight"; "reverse"; "shift"; "slice";
   "some"; "sort"; "splice"; "toLocaleString"; "toReversed"; "toSorted";
   "toSpliced"; "toString"; "unshift"; "values"; "with";
   "hasOwnProperty"; "isPrototypeOf"; "propertyIsEnumerable"; "valueOf";
   "__defineGetter__"; "__defineSetter__"; "__lookupGetter__";
   "__lookupSetter__"].

(** Reading [k] from an array that does not store [k] does not give
    undefined. *)
Definition array_member (k : string) : bool :=
  existsb (String.eqb k) array_members.

End JS.

(** ** Facts about strings *)

Module JSFacts.

Import JS.

Lemma app_cons c (a b : string) : String c a +:+ b = String c (a +:+ b).
Proof. reflexivity. Qed.

Lemma app_nil_l (b : string) : "" +:+ b = b.
Proof. reflexivity. Qed.

Lemma all_app p (a b : string) : all p (a +:+ b) = all p a && all p b.
Proof.
  induction a as [|c a IH]; [done|].
  rewrite app_cons. cbn. rewrite IH. by destruct (p c).
Qed.

Lemma all_take_while p q s : all p s = true → all p (take_while q s) = true.
Proof.
  induction s as [|c s IH]; cbn; [done|].
  intros [Hc Hs]%andb_prop. destruct (q c); cbn; [|done].
  by rewrite Hc, IH.
Qed.

Lemma all_drop_while p q s : all p s = true → all p (drop_while q s) = true.
Proof.
  induction s as [|c s IH]; cbn; [done|].
  intros H. destruct (andb_prop _ _ H) as [Hc Hs]. destruct (q c); auto.
Qed.

Lemma all_trim_end p s : all p s = true → all p (trim_end s) = true.
Proof.
  induction s as [|c s IH]; cbn; [done|].
  intros [Hc Hs]%andb_prop.
  destruct (is_space c && is_empty (trim_end s)); cbn; [done|].
  by rewrite Hc, IH.
Qed.

Lemma all_trim p s : all p s = true → all p (trim s) = true.
Proof. intros H. by apply all_trim_end, all_drop_while. Qed.


Lemma take_while_id p s : all p s = true → take_while p s = s.
Proof.
  induction s as [|c s IH]; cbn; [done|].
  intros [-> Hs]%andb_prop. by rewrite IH.
Qed.

Lemma drop_while_id p s : all p s = true → drop_while p s = "".
Proof.
  induction s as [|c s IH]; cbn; [done|].
  intros [-> Hs]%andb_prop. by apply IH.
Qed.

Lemma take_drop_while p s : take_while p s +:+ drop_while p s = s.
Proof.
  induction s as [|c s IH]; cbn; [done|].
  destruct (p c); [|done]. by rewrite app_cons, IH.
Qed.

Lemma length_drop_while p s :
  (String.length (drop_while p s) ≤ String.length s)%nat.
Proof.
  induction s as [|c s IH]; cbn; [done|].
  destruct (p c); cbn; lia.
Qed.

(** What comes after a run of [p] does not start with [p]. *)
Lemma drop_while_head p s c r : drop_while p s = String c r → p c = false.
Proof.
  induction s as [|c0 s IH]; cbn; [done|].
  destruct (p c0) eqn:E; [done|]. by intros [= <- _].
Qed.

Lemma take_while_app_stop p (a : string) c r :
  all p a = true → p c = false →
  take_while p (a +:+ String c r) = a.
Proof.
  intros Ha Hc. induction a as [|c0 a IH]; cbn.
  - by rewrite Hc.
  - cbn in Ha. apply andb_prop in Ha as [-> Ha]. by rewrite IH.
Qed.

Lemma drop_while_app_stop p (a : string) c r :
  all p a = true → p c = false →
  drop_while p (a +:+ String c r) = String c r.
Proof.
  intros Ha Hc. induction a as [|c0 a IH]; cbn.
  - by rewrite Hc.
  - cbn in Ha. apply andb_prop in Ha as [-> Ha]. by rewrite IH.
Qed.





(** *** [split] and its inverse *)

Definition lacks (c : ascii) (s : string) : bool :=
  all (fun x => negb (Ascii.eqb x c)) s.

(** [l.join(sep)] *)
Fixpoint join (sep : ascii) (l : list string) : string :=
  match l with
  | [] => ""
  | [s] => s
  | s :: l' => s +:+ String sep (join sep l')
  end.

Lemma split_not_nil sep s : split sep s ≠ [].
Proof.
  destruct s as [|c s]; cbn; [done|].
  destruct (Ascii.eqb c sep); [done|]. by destruct (split sep s).
Qed.

Lemma split_lacks sep s : Forall (fun x => lacks sep x = true) (split sep s).
Proof.
  induction s as [|c s IH]; cbn; [by repeat constructor|].
  destruct (Ascii.eqb c sep) eqn:E; [by constructor|].
  destruct (split sep s) as [|h t]; [by repeat constructor; cbn; rewrite E|].
  inversion IH; subst. constructor; [|done]. unfold lacks. cbn. by rewrite E.
Qed.

Lemma split_whole sep s : lacks sep s = true → split sep s = [s].
Proof.
  induction s as [|c s IH]; cbn; [done|].
  intros [Hc Hs]%andb_prop. apply negb_true_iff in Hc. rewrite Hc.
  by rewrite IH.
Qed.

Lemma split_app sep (a b : string) :
  lacks sep a = true →
  split sep (a +:+ String sep b) = a :: split sep b.
Proof.
  induction a as [|c a IH]; intros Ha.
  - cbn. by rewrite Ascii.eqb_refl.
  - cbn in Ha. apply andb_prop in Ha as [Hc Ha].
    apply negb_true_iff in Hc.
    rewrite app_cons. cbn. rewrite Hc. by rewrite IH.
Qed.

Lemma split_join sep l :
  l ≠ [] → Forall (fun x => lacks sep x = true) l →
  split sep (join sep l) = l.
Proof.
  induction l as [|s l IH]; [done|]. intros _ Hl.
  inversion Hl as [|? ? Hs Hl']; subst.
  destruct l as [|s' l].
  - cbn. by apply split_whole.
  - change (join sep (s :: s' :: l))
      with (s +:+ String sep (join sep (s' :: l))).
    rewrite split_app by done. by rewrite IH.
Qed.

(** *** Numbers *)

Example to_number_examples :
  to_number false 9007199254740993 1 = Ok (Fin (Q2Qc (9007199254740992 # 1)))
  ∧ to_number true 12 1 = Ok (Fin (Q2Qc (-12 # 1)))
  ∧ to_number false 5 10 = Ok (Fin (Q2Qc (1 # 2)))
  ∧ to_number false 1 10
    = Ok (Fin (Q2Qc (3602879701896397 # 36028797018963968)))
  ∧ to_number true 0 1 = Ok NegZero
  ∧ to_number false (2 ^ 1024 - 2 ^ 971) 1
    = Ok (Fin (Q2Qc (inject_Z (2 ^ 1024 - 2 ^ 971))))
  ∧ to_number false (10 ^ 309) 1 = Stuck OutsideFragment
  ∧ to_number false 1 (10 ^ 400) = Ok (Fin 0%Qc).
Proof. repeat split; vm_compute; reflexivity. Qed.

(** What an array takes as its length, and what it does not. *)
Example to_length_examples :
  to_length (VStr "2") = Ok 2%Z
  ∧ to_length (VStr " 0x10 ") = Ok 16%Z
  ∧ to_length (VStr "1e3") = Ok 1000%Z
  ∧ to_length (VStr "") = Ok 0%Z
  ∧ to_length (VStr "-0") = Ok 0%Z
  ∧ to_length VNull = Ok 0%Z
  ∧ to_length (VStr "4294967296") = Throw invalid_length
  ∧ to_length (VStr "1.5") = Throw invalid_length
  ∧ to_length (VStr "-1") = Throw invalid_length
  ∧ to_length (VStr "<p>Hello</p>") = Throw invalid_length
  ∧ to_length VUndef = Throw invalid_length
  ∧ to_length (VObj ∅) = Throw invalid_length
  ∧ to_length (VObj {[ "toString" := VStr "2" ]}) = Throw not_primitive.
Proof. repeat split; vm_compute; reflexivity. Qed.

Example array_index_examples :
  array_index "0" = Some 0%Z
  ∧ array_index "17" = Some 17%Z
  ∧ array_index "4294967294" = Some 4294967294%Z
  ∧ array_index "4294967295" = None
  ∧ array_index "017" = None
  ∧ array_index "welcome" = None.
Proof. repeat split; vm_compute; reflexivity. Qed.

(** Assignments to an array that holds a [welcome], a [0] and a [1]. *)
Example array_set_examples :
  let a : gmap string value :=
    {[ "welcome" := VStr "w"; "0" := VStr "a"; "1" := VStr "b" ]} in
  array_set "bye" (VStr "x") a = Ok (<["bye" := VStr "x"]> a)
  ∧ array_set "length" (VStr "1") a
    = Ok {[ "welcome" := VStr "w"; "0" := VStr "a" ]}
  ∧ array_set "length" (VStr "7") a = Ok a
  ∧ array_set "length" (VStr "<p>Hello</p>") a = Throw invalid_length
  ∧ array_set "__proto__" (VStr "x") a = Ok a.
Proof. repeat split; vm_compute; reflexivity. Qed.

Lemma to_number_stuck neg n d w :
  to_number neg n d = Stuck w → w = OutsideFragment.
Proof.
  unfold to_number. destruct (n =? 0)%Z; [done|].
  destruct (overflows n d); [by intros [= <-]|].
  destruct (nearest n d) as [m x]. by destruct (m =? 0)%Z.
Qed.

Lemma to_number_no_throw neg n d e : to_number neg n d ≠ Throw e.
Proof.
  unfold to_number. destruct (n =? 0)%Z; [done|].
  destruct (overflows n d); [done|].
  destruct (nearest n d) as [m x]. by destruct (m =? 0)%Z.
Qed.




End JSFacts.

(** ** mustacheWax: filters inside mustache expressions *)

Module Wax.

Import JS JSFacts.

(** A registered formatter: called with the expression value followed by
    the parsed parameters. *)
Abbreviation formatter := (list value → outcome value).

Definition not_colon (c : ascii) : bool := negb (Ascii.eqb c colon).

Fixpoint init (s : string) : string :=
  match s with
  | EmptyString => ""
  | String _ EmptyString => ""
  | String c s' => String c (init s')
  end.

(** *** The patterns of [parseParam] *)

(** [isString]: a quote character (single or double), then any run of
    characters captured as group 1, then a quote character at the very
    end; the capture when [param] matches. The dot of the pattern does
    not match a line terminator. *)
Definition isString (param : string) : option string :=
  match param with
  | String c r =>
      match last r with
      | Some c' =>
          if is_quote c && is_quote c'
             && all (fun x => negb (is_line_terminator x)) (init r)
          then Some (init r) else None
      | None => None
      end
  | EmptyString => None
  end.

(** [isInteger = /^[+-]?\d+$/] *)
Definition isInteger (param : string) : bool :=
  let '(_, r) := read_sign param in
  negb (is_empty r) && all is_digit r.

(** [isFloat = /^[+-]?\d*\.\d+$/] *)
Definition isFloat (param : string) : bool :=
  let '(_, r) := read_sign param in
  match drop_while is_digit r with
  | String c f => Ascii.eqb c dot && negb (is_empty f) && all is_digit f
  | EmptyString => false
  end.

(** *** The patterns of [applyFilter] *)

(** [filterExp = /^\s*([^:]+)/] executed on [fltr]: the capture, or [None]
    when [exec] returns null. The greedy [\s*] gives back its last
    character when nothing but white space precedes a colon or the end. *)
Definition filterExp (fltr : string) : option string :=
  let ws := take_while is_space fltr in
  let rest := drop_while is_space fltr in
  let g := take_while not_colon rest in
  if negb (is_empty g) then Some g
  else match last ws with
       | Some w => Some (String w g)
       | None => None
       end.

(** A quoted alternative ['[^']*'] of [paramsExp], for the quote [q]:
    the text it matches and what follows. *)
Definition quoted (q : ascii) (s : string) : option (string * string) :=
  match s with
  | String c r =>
      if Ascii.eqb c q then
        let nq := fun x => negb (Ascii.eqb x q) in
        match drop_while nq r with
        | String _ after =>
            Some (String q (take_while nq r +:+ String q ""), after)
        | EmptyString => None
        end
      else None
  | EmptyString => None
  end.

(** The capture group of [paramsExp]: a single-quoted string, else a
    double-quoted string, else a run of characters other than a colon. *)
Definition param_group (s : string) : option (string * string) :=
  match quoted squote s with
  | Some r => Some r
  | None =>
      match quoted dquote s with
      | Some r => Some r
      | None =>
          let g := take_while not_colon s in
          if is_empty g then None else Some (g, drop_while not_colon s)
      end
  end.

(** [paramsExp = /:\s*(['][^']*[']|[dq][^dq]*[dq]|[^:]+)\s*/] matched at
    the start of [s]: the capture and the text after the match. *)
Definition paramsExp_at (s : string) : option (string * string) :=
  match s with
  | String c r =>
      if Ascii.eqb c colon then
        let ws := take_while is_space r in
        let rest := drop_while is_space r in
        match param_group rest with
        | Some (g, after) => Some (g, drop_while is_space after)
        | None =>
            match last ws with
            | Some w =>
                Some (String w (take_while not_colon rest),
                      drop_while is_space (drop_while not_colon rest))
            | None => None
            end
        end
      else None
  | EmptyString => None
  end.

(** One [paramsExp.exec]: the leftmost match at or after the current
    position ([s] is the text from [lastIndex] on). *)
Fixpoint paramsExp (s : string) : option (string * string) :=
  match s with
  | EmptyString => None
  | String _ s' =>
      match paramsExp_at s with
      | Some r => Some r
      | None => paramsExp s'
      end
  end.

(** The captures of [while ((match = paramsExp.exec(fltr)))], in order. *)
Fixpoint params_loop (fuel : nat) (s : string) : list string :=
  match fuel with
  | O => []
  | S fuel' =>
      match paramsExp s with
      | Some (g, after) => g :: params_loop fuel' after
      | None => []
      end
  end.

Definition param_matches (fltr : string) : list string :=
  params_loop (String.length fltr) fltr.

Section Wax.

(** [Mustache.Formatters] *)
Variable Formatters : gmap string formatter.

(** The kept copy of the engine's own [Context.prototype.lookup], on
    the context at hand. *)
Variable lookup0 : string → value.

Definition parseParam (param : string)
    (lookup : string → outcome value) : outcome value :=
  match isString param with
  | Some inner => Ok (VStr inner)
  | None =>
      if isInteger param then n ← parseInt param; Ok (VNum n)
      else if isFloat param then n ← parseFloat param; Ok (VNum n)
      else lookup param
  end.

Definition applyFilter (expr : value) (fltr : string)
    (lookup : string → outcome value) : outcome value :=
  match filterExp fltr with
  | None => Throw (TypeError "Cannot read properties of null (reading '1')")
  | Some g =>
      let filter := trim g in
      rest ← mapM (fun m => parseParam (trim m) lookup) (param_matches fltr);
      match Formatters !! filter with
      | Some f => f (expr :: rest)
      | None => Ok expr
      end
  end.

(** The loop [for (i = 0; i < l; ++i) expression = applyFilter(...)]. *)
Fixpoint apply_all (lookup : string → outcome value)
    (expression : value) (formatters : list string) : outcome value :=
  match formatters with
  | [] => Ok expression
  | f :: fs =>
      e ← applyFilter expression f lookup; apply_all lookup e fs
  end.

(** The replacement of [Context.prototype.lookup]. The parameter lookup
    handed to [applyFilter] is this very function ([this.lookup]); the
    fuel bounds that re-entry. *)
Fixpoint parseExpression (fuel : nat) (name : string) : outcome value :=
  match fuel with
  | O => Stuck OutOfFuel
  | S fuel' =>
      let formatters := split pipe name in
      let expression := lookup0 (trim (hd "" formatters)) in
      apply_all (parseExpression fuel') expression (tl formatters)
  end.

(** Two levels are all the re-entry there is (see [parseExpression_fuel]). *)
Definition lookup (name : string) : outcome value :=
  parseExpression 2 name.

(** *** What the patterns keep: every capture is made of characters of
    the text it was matched in *)

Lemma all_last p s c : all p s = true → last s = Some c → p c = true.
Proof.
  induction s as [|c0 s IH]; [done|]. cbn [all last].
  intros [Hc Hs]%andb_prop. destruct s; [by intros [= <-]|]. by apply IH.
Qed.

Lemma quoted_all p q s g after :
  all p s = true → quoted q s = Some (g, after) →
  all p g = true ∧ all p after = true.
Proof.
  destruct s as [|c r]; [done|]. cbn [quoted all].
  intros [Hc Hr]%andb_prop. destruct (Ascii.eqb_spec c q) as [->|]; [|done].
  set (nq := fun x => negb (Ascii.eqb x q)).
  destruct (drop_while nq r) as [|c' after'] eqn:E; [done|].
  intros [= <- <-]. pose proof (all_drop_while p nq r Hr) as Hd.
  rewrite E in Hd. cbn in Hd. apply andb_prop in Hd as [Hc' Ha].
  split; [|done]. cbn. rewrite Hc, all_app. cbn.
  by rewrite (all_take_while p nq r Hr), Hc.
Qed.

Lemma param_group_all p s g after :
  all p s = true → param_group s = Some (g, after) →
  all p g = true ∧ all p after = true.
Proof.
  intros Hs. unfold param_group.
  destruct (quoted squote s) as [[g1 a1]|] eqn:E1.
  { intros [= <- <-]. by eapply quoted_all. }
  destruct (quoted dquote s) as [[g2 a2]|] eqn:E2.
  { intros [= <- <-]. by eapply quoted_all. }
  destruct (is_empty _); [done|]. intros [= <- <-].
  split; [by apply all_take_while|by apply all_drop_while].
Qed.

Lemma paramsExp_at_all p s g after :
  all p s = true → paramsExp_at s = Some (g, after) →
  all p g = true ∧ all p after = true.
Proof.
  destruct s as [|c r]; [done|]. cbn [paramsExp_at all].
  intros [Hc Hr]%andb_prop. destruct (Ascii.eqb c colon); [|done].
  pose proof (all_drop_while p is_space r Hr) as Hd.
  destruct (param_group _) as [[g1 a1]|] eqn:E.
  - intros [= <- <-]. destruct (param_group_all p _ _ _ Hd E).
    split; [done|]. by apply all_drop_while.
  - destruct (last _) as [w|] eqn:El; [|done]. intros [= <- <-].
    split.
    + cbn. rewrite (all_last p _ w (all_take_while p _ r Hr) El).
      by apply all_take_while.
    + by do 2 apply all_drop_while.
Qed.

Lemma paramsExp_all p s g after :
  all p s = true → paramsExp s = Some (g, after) →
  all p g = true ∧ all p after = true.
Proof.
  induction s as [|c r IH]; [done|]. intros Hs. cbn [paramsExp].
  destruct (paramsExp_at _) as [[g1 a1]|] eqn:E.
  - intros [= <- <-]. by eapply paramsExp_at_all.
  - cbn in Hs. apply andb_prop in Hs as [_ Hr]. by apply IH.
Qed.

Lemma params_loop_all p fuel s :
  all p s = true → Forall (fun g => all p g = true) (params_loop fuel s).
Proof.
  revert s. induction fuel as [|fuel IH]; intros s Hs; cbn; [done|].
  destruct (paramsExp s) as [[g after]|] eqn:E; [|done].
  destruct (paramsExp_all p _ _ _ Hs E). constructor; auto.
Qed.

(** *** The loop over the parameters ends *)

Lemma quoted_shorter q s g after :
  quoted q s = Some (g, after) →
  (String.length after < String.length s)%nat.
Proof.
  destruct s as [|c r]; [done|]. cbn [quoted].
  destruct (Ascii.eqb c q); [|done].
  set (nq := fun x => negb (Ascii.eqb x q)).
  pose proof (length_drop_while nq r) as Hd.
  destruct (drop_while nq r) as [|c' after'] eqn:E; [done|].
  intros [= <- <-]. cbn in *. lia.
Qed.

Lemma param_group_shorter s g after :
  param_group s = Some (g, after) →
  (String.length after ≤ String.length s)%nat.
Proof.
  unfold param_group.
  destruct (quoted squote s) as [[g1 a1]|] eqn:E1.
  { intros [= <- <-]. apply quoted_shorter in E1. lia. }
  destruct (quoted dquote s) as [[g2 a2]|] eqn:E2.
  { intros [= <- <-]. apply quoted_shorter in E2. lia. }
  destruct (is_empty _); [done|]. intros [= <- <-].
  apply length_drop_while.
Qed.

Lemma paramsExp_at_shorter s g after :
  paramsExp_at s = Some (g, after) →
  (String.length after < String.length s)%nat.
Proof.
  destruct s as [|c r]; [done|]. cbn [paramsExp_at String.length].
  destruct (Ascii.eqb c colon); [|done].
  pose proof (length_drop_while is_space r) as Hr.
  destruct (param_group _) as [[g1 a1]|] eqn:E.
  - intros [= <- <-]. apply param_group_shorter in E.
    pose proof (length_drop_while is_space a1). lia.
  - destruct (last _); [|done]. intros [= <- <-].
    pose proof (length_drop_while is_space
                  (drop_while not_colon (drop_while is_space r))).
    pose proof (length_drop_while not_colon (drop_while is_space r)). lia.
Qed.

Lemma paramsExp_shorter s g after :
  paramsExp s = Some (g, after) →
  (String.length after < String.length s)%nat.
Proof.
  induction s as [|c r IH]; [done|]. cbn [paramsExp].
  destruct (paramsExp_at _) as [[g1 a1]|] eqn:E.
  - intros [= <- <-]. by apply paramsExp_at_shorter in E.
  - intros H%IH. cbn. lia.
Qed.

(** The length of the text is fuel enough: more does not change the
    captures. *)
Lemma params_loop_fuel n m s :
  (String.length s ≤ n)%nat → (String.length s ≤ m)%nat →
  params_loop n s = params_loop m s.
Proof.
  revert m s. induction n as [|n IH]; intros m s Hn Hm.
  - destruct s; [|cbn in Hn; lia]. by destruct m.
  - destruct m as [|m].
    + destruct s; [done|cbn in Hm; lia].
    + cbn [params_loop]. destruct (paramsExp s) as [[g after]|] eqn:E; [|done].
      apply paramsExp_shorter in E. f_equal. apply IH; lia.
Qed.

(** *** Re-entry of the lookup from a parameter *)


Lemma parseExpression_S fuel name :
  parseExpression (S fuel) name
  = apply_all (parseExpression fuel)
      (lookup0 (trim (hd "" (split pipe name)))) (tl (split pipe name)).
Proof. reflexivity. Qed.

(** A name without a pipe has no filter: it is the engine's own lookup
    of the trimmed name. *)
Lemma parseExpression_plain fuel name :
  lacks pipe name = true →
  parseExpression (S fuel) name = Ok (lookup0 (trim name)).
Proof. intros H. by rewrite parseExpression_S, (split_whole _ _ H). Qed.

Lemma parseParam_ext param lk1 lk2 :
  lk1 param = lk2 param → parseParam param lk1 = parseParam param lk2.
Proof.
  intros H. unfold parseParam. destruct (isString _); [done|].
  destruct (isInteger _); [done|]. by destruct (isFloat _).
Qed.








Lemma parseInt_fuel s : parseInt s ≠ Stuck OutOfFuel.
Proof.
  unfold parseInt. destruct (read_sign _) as [neg r].
  destruct (is_empty _); [done|]. by intros H%to_number_stuck.
Qed.

Lemma parseFloat_fuel s : parseFloat s ≠ Stuck OutOfFuel.
Proof.
  unfold parseFloat. destruct (read_sign _) as [neg r].
  destruct (_ && _); [done|]. by intros H%to_number_stuck.
Qed.

Lemma parseParam_fuel param lk :
  lk param ≠ Stuck OutOfFuel → parseParam param lk ≠ Stuck OutOfFuel.
Proof.
  intros H. unfold parseParam. destruct (isString _); [done|].
  destruct (isInteger _).
  { pose proof (parseInt_fuel param). by destruct (parseInt param) as [| |[]]. }
  destruct (isFloat _); [|done].
  pose proof (parseFloat_fuel param). by destruct (parseFloat param) as [| |[]].
Qed.

Lemma mapM_outcome_fuel {A B} (f : A → outcome B) l :
  Forall (fun x => f x ≠ Stuck OutOfFuel) l → mapM f l ≠ Stuck OutOfFuel.
Proof.
  induction 1 as [|x l Hx _ IH]; [done|]. cbn.
  destruct (f x) as [b| |[]]; cbn; try done.
  by destruct (mapM f l) as [bs| |[]].
Qed.

Lemma mapM_outcome_ext {A B} (f g : A → outcome B) l :
  Forall (fun x => f x = g x) l → mapM f l = mapM g l.
Proof.
  induction 1 as [|x l Hx _ IH]; [done|]. cbn. rewrite Hx.
  destruct (g x); cbn; [|done..]. by rewrite IH.
Qed.


(** The parameters of a pipe-free segment are pipe-free, so that their
    lookup is a plain one, whatever fuel is left. *)
Lemma params_plain fuel fltr :
  lacks pipe fltr = true →
  Forall (fun m => parseExpression (S fuel) (trim m)
                   = Ok (lookup0 (trim (trim m))))
         (param_matches fltr).
Proof.
  intros H. unfold param_matches.
  eapply Forall_impl; [|exact (params_loop_all _ _ _ H)].
  intros m Hm. cbn beta in Hm. apply parseExpression_plain.
  by apply all_trim.
Qed.

Lemma applyFilter_fuel n m expr fltr :
  lacks pipe fltr = true →
  applyFilter expr fltr (parseExpression (S n))
  = applyFilter expr fltr (parseExpression (S m)).
Proof.
  intros H. unfold applyFilter. destruct (filterExp fltr); [|done].
  f_equal. apply mapM_outcome_ext.
  pose proof (params_plain n fltr H) as Hn.
  pose proof (params_plain m fltr H) as Hm.
  rewrite Forall_forall in Hn, Hm. apply Forall_forall. intros x Hx.
  apply parseParam_ext. by rewrite Hn, Hm.
Qed.

Lemma apply_all_fuel n m expr fs :
  Forall (fun f => lacks pipe f = true) fs →
  apply_all (parseExpression (S n)) expr fs
  = apply_all (parseExpression (S m)) expr fs.
Proof.
  intros H. revert expr. induction H as [|f fs Hf _ IH]; intros expr; [done|].
  cbn. rewrite (applyFilter_fuel n m) by done.
  destruct (applyFilter _ _ _); cbn; [|done..]. apply IH.
Qed.

(** Two units of fuel are enough for every name: the lookup is total. *)
Lemma parseExpression_fuel n name :
  parseExpression (S (S n)) name = lookup name.
Proof.
  unfold lookup. rewrite !parseExpression_S. apply apply_all_fuel.
  pose proof (split_lacks pipe name) as H.
  destruct (split pipe name); [done|]. by inversion H.
Qed.

Lemma applyFilter_not_stuck expr fltr n :
  lacks pipe fltr = true →
  (∀ f args, Formatters !! f = Some args → ∀ l, args l ≠ Stuck OutOfFuel) →
  applyFilter expr fltr (parseExpression (S n)) ≠ Stuck OutOfFuel.
Proof.
  intros H HF. unfold applyFilter. destruct (filterExp fltr); [|done].
  pose proof (mapM_outcome_fuel
    (fun m => parseParam (trim m) (parseExpression (S n)))
    (param_matches fltr)) as Hm.
  destruct (mapM _ (param_matches fltr)) as [l| |[]]; cbn; try done.
  - destruct (Formatters !! _) eqn:E; [|done]. by eapply HF.
  - exfalso. apply Hm; [|done].
    eapply Forall_impl; [|apply (params_plain n fltr H)].
    intros x Hx. apply parseParam_fuel. by rewrite Hx.
Qed.

(** The fuel of the lookup never runs out, as long as that of the
    registered formatters does not. *)
Lemma lookup_not_stuck name :
  (∀ f args, Formatters !! f = Some args → ∀ l, args l ≠ Stuck OutOfFuel) →
  lookup name ≠ Stuck OutOfFuel.
Proof.
  intros HF. unfold lookup. rewrite parseExpression_S.
  pose proof (split_lacks pipe name) as H.
  destruct (split pipe name) as [|first fs]; [done|].
  inversion H as [|? ? _ Hfs]; subst. cbn [hd tl].
  generalize (lookup0 (trim first)). clear H.
  induction Hfs as [|f fs Hf _ IH]; intros expr; [done|]. cbn [apply_all].
  pose proof (applyFilter_not_stuck expr f 0 Hf HF) as Hns.
  destruct (applyFilter expr f (parseExpression 1)) as [e| |[]];
    cbn [mbind outcome_bind]; [apply IH|done..].
Qed.

Lemma apply_all_app lk expr fs1 fs2 :
  apply_all lk expr (fs1 ++ fs2)
  = e ← apply_all lk expr fs1; apply_all lk e fs2.
Proof.
  revert expr. induction fs1 as [|f fs1 IH]; intros expr; [done|].
  cbn. destruct (applyFilter expr f lk); cbn; [|done..]. apply IH.
Qed.

Definition null_match : exn :=
  TypeError "Cannot read properties of null (reading '1')".

(** *** Empty pipe segments *)

(** Claim C8. A token with a zero-length pipe segment, in the middle of the
    chain or after a trailing pipe, does not evaluate: [filterExp.exec]
    returns null on the empty segment and reading its capture raises a
    TypeError. *)
Theorem empty_pipe_segment_throws path rest :
  lacks pipe path = true →
  lookup (path +:+ String pipe (String pipe rest)) = Throw null_match
  ∧ lookup (path +:+ String pipe "") = Throw null_match.
Proof.
  intros Hp. unfold lookup. rewrite !parseExpression_S.
  rewrite !split_app by done. split.
  - cbn [split]. rewrite Ascii.eqb_refl. reflexivity.
  - reflexivity.
Qed.

(** *** The parameters of a filter invocation *)

(** The text of a filter invocation after the filter name: each
    parameter text behind its colon. *)
Fixpoint params_text (texts : list string) : string :=
  match texts with
  | [] => ""
  | t :: ts => String colon (t +:+ params_text ts)
  end.

(** A parameter text as it is written between two colons: after white
    space, either a quoted string (which may hold colons) followed by
    white space only, or text without a colon that does not start with
    a quote. *)
Definition param_text (t : string) : bool :=
  match drop_while is_space t with
  | String c r =>
      if is_quote c then
        match drop_while (fun x => negb (Ascii.eqb x c)) r with
        | String _ after => all is_space after
        | EmptyString => false
        end
      else lacks colon t
  | EmptyString => false
  end.

(** The text stops a run of [p]: it is empty or starts outside [p]. *)
Definition stops (p : ascii → bool) (s : string) : bool :=
  match s with
  | String c _ => negb (p c)
  | EmptyString => true
  end.

Lemma app_nil_r (s : string) : s +:+ "" = s.
Proof. induction s as [|c s IH]; [done|]. cbn. by rewrite IH. Qed.

Lemma app_assoc (a b c : string) : (a +:+ b) +:+ c = a +:+ (b +:+ c).
Proof. induction a as [|x a IH]; [done|]. cbn. by rewrite IH. Qed.

Lemma length_app (a b : string) :
  String.length (a +:+ b) = (String.length a + String.length b)%nat.
Proof. induction a as [|x a IH]; [done|]. cbn. by rewrite IH. Qed.

Lemma take_while_app_stops p (a rest : string) :
  all p a = true → stops p rest = true → take_while p (a +:+ rest) = a.
Proof.
  intros Ha Hr. destruct rest as [|c r].
  - rewrite app_nil_r. by apply take_while_id.
  - apply take_while_app_stop; [done|]. by apply negb_true_iff.
Qed.

Lemma drop_while_app_stops p (a rest : string) :
  all p a = true → stops p rest = true → drop_while p (a +:+ rest) = rest.
Proof.
  intros Ha Hr. destruct rest as [|c r].
  - rewrite app_nil_r. by apply drop_while_id.
  - apply drop_while_app_stop; [done|]. by apply negb_true_iff.
Qed.

Lemma drop_while_app_found p (t x : string) c r :
  drop_while p t = String c r →
  drop_while p (t +:+ x) = String c (r +:+ x).
Proof.
  induction t as [|c0 t IH]; [done|]. cbn.
  destruct (p c0); [done|]. by intros [= -> ->].
Qed.

Lemma take_while_app_found p (t x : string) c r :
  drop_while p t = String c r →
  take_while p (t +:+ x) = take_while p t.
Proof.
  induction t as [|c0 t IH]; [done|]. cbn.
  destruct (p c0); [|done]. intros H. by rewrite IH.
Qed.

Lemma drop_while_idem p s : drop_while p (drop_while p s) = drop_while p s.
Proof.
  destruct (drop_while p s) as [|c r] eqn:E; [done|].
  apply drop_while_head in E. cbn. by rewrite E.
Qed.

Lemma trim_end_spaces ws : all is_space ws = true → trim_end ws = "".
Proof.
  induction ws as [|c ws IH]; [done|]. cbn.
  intros [-> Hws]%andb_prop. by rewrite IH.
Qed.

Lemma trim_end_app_spaces (a ws : string) :
  all is_space ws = true → trim_end (a +:+ ws) = trim_end a.
Proof.
  intros Hws. induction a as [|c a IH]; cbn.
  - by apply trim_end_spaces.
  - by rewrite IH.
Qed.

Lemma trim_end_keeps s c :
  last s = Some c → is_space c = false → trim_end s = s.
Proof.
  induction s as [|c0 s IH]; [done|]. cbn [last trim_end].
  destruct s as [|c1 s].
  - intros [= ->] ->. done.
  - intros Hl Hc. rewrite IH by done. cbn.
    by rewrite andb_false_r.
Qed.

Lemma last_None s : last s = None → s = "".
Proof.
  induction s as [|x s IH]; [done|]. cbn [last].
  destruct s as [|y s]; [done|]. intros H. by apply IH in H.
Qed.

Lemma last_app_single (a : string) c : last (a +:+ String c "") = Some c.
Proof.
  induction a as [|x a IH]; [done|]. cbn.
  destruct (a +:+ String c "") eqn:E; [by destruct a|done].
Qed.

Lemma init_app_single (a : string) c : init (a +:+ String c "") = a.
Proof.
  induction a as [|x a IH]; [done|]. cbn.
  destruct (a +:+ String c "") eqn:E; [by destruct a|]. by rewrite IH.
Qed.


Lemma quote_not_space c : is_quote c = true → is_space c = false.
Proof.
  unfold is_quote. intros [H|H]%orb_prop; apply Ascii.eqb_eq in H;
    by subst.
Qed.

Lemma colon_stops_space r : stops is_space (String colon r) = true.
Proof. reflexivity. Qed.

Lemma boundary_space rest :
  stops not_colon rest = true → stops is_space rest = true.
Proof.
  destruct rest as [|c r]; [done|]. cbn. unfold not_colon.
  rewrite negb_involutive. intros ->%Ascii.eqb_eq. done.
Qed.

Lemma params_text_boundary texts : stops not_colon (params_text texts) = true.
Proof. by destruct texts. Qed.

(** One [exec] of [paramsExp] takes exactly the next parameter text. *)
Lemma paramsExp_at_param t rest :
  param_text t = true → stops not_colon rest = true →
  ∃ g, paramsExp_at (String colon (t +:+ rest)) = Some (g, rest)
       ∧ trim g = trim t.
Proof.
  intros Ht Hrest. pose proof (boundary_space _ Hrest) as Hsp.
  unfold param_text in Ht. cbn [paramsExp_at]. rewrite Ascii.eqb_refl.
  destruct (drop_while is_space t) as [|c r] eqn:Et; [done|].
  rewrite (drop_while_app_found _ _ rest _ _ Et).
  rewrite (take_while_app_found _ _ rest _ _ Et).
  destruct (is_quote c) eqn:Eq.
  - set (nq := fun x => negb (Ascii.eqb x c)) in *.
    destruct (drop_while nq r) as [|c2 after] eqn:Er; [done|].
    assert (c2 = c) as ->.
    { apply drop_while_head in Er. unfold nq in Er.
      apply negb_false_iff, Ascii.eqb_eq in Er. done. }
    assert (Hg : param_group (String c (r +:+ rest))
                 = Some (String c (take_while nq r +:+ String c ""),
                         after +:+ rest)).
    { unfold param_group, quoted.
      unfold is_quote in Eq. apply orb_prop in Eq as [E|E];
        apply Ascii.eqb_eq in E; subst c; cbn [Ascii.eqb];
        fold nq;
        rewrite ?(drop_while_app_found _ _ rest _ _ Er),
                ?(take_while_app_found _ _ rest _ _ Er); done. }
    rewrite Hg. eexists. split.
    + by rewrite drop_while_app_stops.
    + unfold trim, trim_start. rewrite Et. cbn [drop_while].
      rewrite (quote_not_space _ Eq).
      rewrite <- (take_drop_while nq r) at 2. rewrite Er.
      change (String c (take_while nq r +:+ String c after))
        with (String c (take_while nq r +:+ (String c "" +:+ after))).
      rewrite <- app_assoc.
      change (String c ((take_while nq r +:+ String c "") +:+ after))
        with (String c (take_while nq r +:+ String c "") +:+ after).
      rewrite trim_end_app_spaces by done. done.
  - assert (Hlc : lacks colon (String c r) = true).
    { rewrite <- Et. by apply all_drop_while. }
    assert (Hg : param_group (String c (r +:+ rest))
                 = Some (String c r, rest)).
    { unfold param_group, quoted.
      unfold is_quote in Eq. apply orb_false_elim in Eq as [-> ->].
      change (String c (r +:+ rest)) with (String c r +:+ rest).
      rewrite take_while_app_stops, drop_while_app_stops by done. done. }
    rewrite Hg. eexists. split.
    + f_equal. f_equal. destruct rest as [|c' r']; [done|].
      cbn in Hsp. cbn. by apply negb_true_iff in Hsp as ->.
    + unfold trim, trim_start. rewrite <- Et. by rewrite drop_while_idem.
Qed.

Lemma paramsExp_skip name s :
  lacks colon name = true → paramsExp (name +:+ s) = paramsExp s.
Proof.
  induction name as [|c name IH]; [done|]. cbn.
  intros [Hc Hn]%andb_prop. apply negb_true_iff in Hc. rewrite Hc.
  by apply IH.
Qed.

Lemma paramsExp_none name : lacks colon name = true → paramsExp name = None.
Proof.
  induction name as [|c name IH]; [done|]. cbn.
  intros [Hc Hn]%andb_prop. apply negb_true_iff in Hc. rewrite Hc.
  by apply IH.
Qed.

Lemma params_loop_texts texts fuel :
  Forall (fun t => param_text t = true) texts →
  (String.length (params_text texts) ≤ fuel)%nat →
  map trim (params_loop fuel (params_text texts)) = map trim texts.
Proof.
  intros H. revert fuel. induction H as [|t ts Ht _ IH]; intros fuel Hlen.
  - by destruct fuel.
  - cbn [params_text] in *. cbn [String.length] in Hlen.
    rewrite length_app in Hlen.
    destruct fuel as [|fuel]; [lia|]. cbn [params_loop paramsExp].
    destruct (paramsExp_at_param t (params_text ts) Ht
                (params_text_boundary ts)) as (g & -> & Hg).
    cbn. rewrite Hg. f_equal. apply IH. lia.
Qed.

(** The parameters of [name:t1:...:tn] are [t1], ..., [tn], trimmed. *)
Lemma param_matches_texts name texts :
  lacks colon name = true →
  Forall (fun t => param_text t = true) texts →
  map trim (param_matches (name +:+ params_text texts)) = map trim texts.
Proof.
  intros Hn Ht. unfold param_matches.
  destruct texts as [|t ts].
  - cbn [params_text]. rewrite app_nil_r.
    destruct (String.length name); [done|]. cbn.
    by rewrite paramsExp_none.
  - rewrite <- (params_loop_texts (t :: ts)
                 (String.length (name +:+ params_text (t :: ts)))); try done.
    + destruct (String.length _); [done|]. cbn [params_loop].
      by rewrite paramsExp_skip.
    + rewrite length_app. lia.
Qed.

Lemma filterExp_name name rest :
  name ≠ "" → lacks colon name = true → stops not_colon rest = true →
  ∃ g, filterExp (name +:+ rest) = Some g ∧ trim g = trim name.
Proof.
  intros Hne Hn Hrest. pose proof (boundary_space _ Hrest) as Hsp.
  unfold filterExp.
  destruct (drop_while is_space name) as [|c r] eqn:E.
  - assert (Hws : all is_space name = true).
    { clear -E. induction name as [|c n IH]; [done|]. cbn in *.
      destruct (is_space c); [by apply IH|done]. }
    rewrite take_while_app_stops, drop_while_app_stops by done.
    assert (take_while not_colon rest = "") as ->.
    { destruct rest as [|c r]; [done|]. cbn in *.
      by apply negb_true_iff in Hrest as ->. }
    cbn [is_empty negb].
    destruct (last name) as [w|] eqn:El; [|by apply last_None in El].
    eexists. split; [done|]. unfold trim, trim_start. rewrite E.
    pose proof (all_last _ _ _ Hws El) as Hw. cbn. by rewrite Hw.
  - rewrite (drop_while_app_found _ _ rest _ _ E).
    assert (Hlc : lacks colon (String c r) = true).
    { rewrite <- E. by apply all_drop_while. }
    change (String c (r +:+ rest)) with (String c r +:+ rest).
    rewrite take_while_app_stops by done. cbn [is_empty negb].
    eexists. split; [done|]. unfold trim, trim_start.
    by rewrite <- E, drop_while_idem.
Qed.

(** *** Literal parameters *)

Inductive sign := NoSign | Plus | Minus.

Definition sign_text (s : sign) : string :=
  match s with NoSign => "" | Plus => "+" | Minus => "-" end.


Definition one_line (s : string) : bool :=
  all (fun x => negb (is_line_terminator x)) s.

Definition negative (s : sign) : bool :=
  match s with Minus => true | _ => false end.

(** What a run of digits denotes: every digit with the weight of its
    place. *)
Fixpoint numeral (ds : string) : Z :=
  match ds with
  | EmptyString => 0
  | String c r =>
      (digit_val c * 10 ^ Z.of_nat (String.length r) + numeral r)%Z
  end.

(** The Number of the signed fraction [n/d]. *)
Definition number_of (s : sign) (n d : Z) : outcome value :=
  v ← to_number (negative s) n d; Ok (VNum v).

(** The literals a parameter can be, and what each denotes: a quoted
    string the text between its quotes (on one line); an integer, an
    optional sign and digits, the Number of the integer that the digits
    spell; a floating-point number, an optional sign, digits, a dot and
    at least one digit, the Number of the decimal fraction that they
    spell. *)
Inductive literal : string → outcome value → Prop :=
  | literal_string q1 inner q2 :
      is_quote q1 = true → is_quote q2 = true → one_line inner = true →
      literal (String q1 (inner +:+ String q2 "")) (Ok (VStr inner))
  | literal_integer s ds :
      ds ≠ "" → all is_digit ds = true →
      literal (sign_text s +:+ ds) (number_of s (numeral ds) 1)
  | literal_float s ip fp :
      all is_digit ip = true → fp ≠ "" → all is_digit fp = true →
      literal (sign_text s +:+ ip +:+ String dot fp)
        (number_of s
           (numeral ip * 10 ^ Z.of_nat (String.length fp) + numeral fp)
           (10 ^ Z.of_nat (String.length fp))).

Lemma digits_val_app acc (a b : string) :
  digits_val acc (a +:+ b) = digits_val (digits_val acc a) b.
Proof. revert acc. induction a as [|c a IH]; intros acc; [done|]. apply IH. Qed.

(** Reading the digits from the left, as [parseInt] and [parseFloat]
    do, gives what they denote. *)
Lemma digits_val_numeral acc s :
  digits_val acc s
  = (acc * 10 ^ Z.of_nat (String.length s) + numeral s)%Z.
Proof.
  revert acc. induction s as [|c s IH]; intros acc.
  - cbn. lia.
  - cbn [digits_val numeral String.length]. rewrite IH.
    rewrite Nat2Z.inj_succ, Z.pow_succ_r by lia. lia.
Qed.

Definition is_sign (c : ascii) : bool := is_minus c || is_plus c.

Lemma read_sign_text s r :
  stops is_sign r = true →
  read_sign (sign_text s +:+ r) = (negative s, r).
Proof.
  destruct s; [|done..]. cbn. destruct r as [|c r]; [done|].
  cbn. unfold is_sign. intros [-> ->]%negb_true_iff%orb_false_elim. done.
Qed.



Lemma digit_not_sign c : is_digit c = true → is_sign c = false.
Proof.
  unfold is_digit, is_sign, is_minus, is_plus. intros H.
  apply andb_prop in H as [H1 H2]. apply N.leb_le in H1.
  apply orb_false_intro; apply N.eqb_neq; lia.
Qed.

Lemma digit_not_space c : is_digit c = true → is_space c = false.
Proof.
  unfold is_digit, is_space. intros H.
  apply andb_prop in H as [H1 H2]. apply N.leb_le in H1, H2.
  repeat (apply orb_false_intro); try (apply N.eqb_neq; lia).
  apply andb_false_iff. right. apply N.leb_gt. lia.
Qed.

Lemma digit_not_quote c : is_digit c = true → is_quote c = false.
Proof.
  unfold is_digit, is_quote. intros H.
  apply andb_prop in H as [H1 H2]. apply N.leb_le in H1, H2.
  apply orb_false_intro; apply Ascii.eqb_neq; intros ->; cbn in *; lia.
Qed.

(** A number literal starts with a sign, a digit or a dot. *)
Definition number_head (c : ascii) : bool :=
  is_sign c || is_digit c || Ascii.eqb c dot.

Lemma number_head_plain c :
  number_head c = true → is_space c = false ∧ is_quote c = false.
Proof.
  unfold number_head. intros [[H|H]%orb_prop|H]%orb_prop.
  - unfold is_sign, is_minus, is_plus, code in H.
    apply orb_prop in H as [H|H]; apply N.eqb_eq in H;
      rewrite <- (ascii_N_embedding c), H; done.
  - split; [by apply digit_not_space|by apply digit_not_quote].
  - apply Ascii.eqb_eq in H. by subst.
Qed.

Lemma isString_number p c r :
  p = String c r → number_head c = true → isString p = None.
Proof.
  intros -> [_ H]%number_head_plain. cbn. destruct (last r); [|done].
  by rewrite H.
Qed.

Lemma trim_start_number p c r :
  p = String c r → number_head c = true → trim_start p = p.
Proof. intros -> [H _]%number_head_plain. cbn. by rewrite H. Qed.

(** A signed text with digits or a dot behind the sign starts as a
    number does. *)
Lemma sign_text_head s r c r' :
  r = String c r' → is_digit c || Ascii.eqb c dot = true →
  ∃ c0 r0, sign_text s +:+ r = String c0 r0 ∧ number_head c0 = true.
Proof.
  intros -> H. destruct s; cbn; eexists _, _; (split; [done|]); [|done..].
  unfold number_head. rewrite <- orb_assoc, H. apply orb_true_r.
Qed.

Lemma stops_sign_digits r c r' :
  r = String c r' → is_digit c || Ascii.eqb c dot = true →
  stops is_sign r = true.
Proof.
  intros -> [H|H]%orb_prop; cbn.
  - by rewrite digit_not_sign.
  - apply Ascii.eqb_eq in H. by subst.
Qed.

Lemma dot_not_digit : is_digit dot = false.
Proof. reflexivity. Qed.

(** What [parseParam] returns on each kind of literal. *)
Lemma parseParam_literal p r lk : literal p r → parseParam p lk = r.
Proof.
  unfold parseParam. destruct 1 as [q1 inner q2 H1 H2 Hl|s ds Hne Hd|s ip fp Hi Hne Hf].
  - cbn [isString]. rewrite last_app_single, init_app_single.
    fold (one_line inner). by rewrite H1, H2, Hl.
  - destruct ds as [|c ds']; [done|]. cbn [all] in Hd.
    apply andb_prop in Hd as [Hc Hd].
    destruct (sign_text_head s (String c ds') c ds' eq_refl) as (c0 & r0 & E & Hh).
    { by rewrite Hc. }
    rewrite (isString_number _ _ _ E Hh).
    assert (Hst : stops is_sign (String c ds') = true).
    { eapply stops_sign_digits; [done|by rewrite Hc]. }
    assert (Hall : all is_digit (String c ds') = true).
    { cbn. by rewrite Hc, Hd. }
    unfold isInteger. rewrite (read_sign_text s _ Hst). rewrite Hall.
    cbn [is_empty negb andb]. unfold parseInt.
    rewrite (trim_start_number _ _ _ E Hh), (read_sign_text s _ Hst).
    rewrite (take_while_id _ _ Hall). cbn [is_empty].
    rewrite digits_val_numeral. by rewrite Z.mul_0_l, Z.add_0_l.
  - assert (∃ c r', ip +:+ String dot fp = String c r'
                    ∧ is_digit c || Ascii.eqb c dot = true) as (c & r' & Er & Hc).
    { destruct ip as [|c ip']; [by eexists _, _|].
      cbn in Hi. apply andb_prop in Hi as [Hc _].
      eexists _, _. split; [done|]. by rewrite Hc. }
    destruct (sign_text_head s _ c r' Er Hc) as (c0 & r0 & E & Hh).
    rewrite (isString_number _ _ _ E Hh).
    pose proof (stops_sign_digits _ _ _ Er Hc) as Hst.
    unfold isInteger, isFloat. rewrite (read_sign_text s _ Hst).
    assert (all is_digit (ip +:+ String dot fp) = false) as ->.
    { rewrite all_app. cbn. apply andb_false_r. }
    rewrite andb_false_r.
    rewrite (drop_while_app_stop _ _ _ _ Hi dot_not_digit).
    rewrite Ascii.eqb_refl, Hf. destruct fp as [|cf fp']; [done|].
    cbn [is_empty negb andb]. unfold parseFloat.
    rewrite (trim_start_number _ _ _ E Hh), (read_sign_text s _ Hst).
    rewrite (take_while_app_stop _ _ _ _ Hi dot_not_digit).
    rewrite (drop_while_app_stop _ _ _ _ Hi dot_not_digit).
    rewrite Ascii.eqb_refl, (take_while_id _ _ Hf).
    rewrite andb_false_r. cbn [is_empty].
    rewrite (digits_val_numeral _ (String cf fp')), (digits_val_numeral 0 ip).
    by rewrite Z.mul_0_l, Z.add_0_l.
Qed.





Lemma mapM_outcome_map {A B C} (f : B → outcome C) (g : A → B) l :
  mapM (fun x => f (g x)) l = mapM f (map g l).
Proof. induction l as [|x l IH]; [done|]. cbn. by rewrite IH. Qed.



(** The kinds of literal do not overlap: the order in which
    [parseParam] tries its patterns cannot be observed. *)
Lemma literal_functional p r r' : literal p r → literal p r' → r = r'.
Proof.
  intros H H'.
  apply (parseParam_literal _ _ (fun _ => Ok VUndef)) in H, H'.
  congruence.
Qed.

End Wax.

Example parseParam_examples :
  map (fun p => parseParam p (fun q => Ok (VStr ("path " +:+ q))))
      ["'a:b'"; "-12"; "+.5"; "data.x"; "12a"; "5."; "'open";
       "9007199254740993"; "-0"; "0.1"]
  = [Ok (VStr "a:b");
     Ok (VNum (Fin (Q2Qc (-12 # 1))));
     Ok (VNum (Fin (Q2Qc (1 # 2))));
     Ok (VStr "path data.x");
     Ok (VStr "path 12a");
     Ok (VStr "path 5.");
     Ok (VStr "path 'open");
     Ok (VNum (Fin (Q2Qc (9007199254740992 # 1))));
     Ok (VNum NegZero);
     Ok (VNum (Fin (Q2Qc (3602879701896397 # 36028797018963968))))].
Proof. vm_compute. reflexivity. Qed.

Example param_matches_examples :
  param_matches " f : 'a:b' : 12 : -.5 : data.x :: 3: :"
  = ["'a:b'"; "12 "; "-.5 "; "data.x "; "3"; " "]
  ∧ param_matches "f:'a'b:2:'abc :3" = ["'a'"; "2"; "'abc "; "3"].
Proof. split; reflexivity. Qed.

Definition second_arg : formatter := fun args => Ok (nth 1 args VUndef).

Example lookup_examples :
  let F : gmap string formatter := {[ "fmt" := second_arg ]} in
  let l0 := fun p => VStr ("value of " +:+ p) in
  map (lookup F l0)
      [" data.name "; "data.name | fmt : 'x'"; "data.name | fmt : other.path";
       "data.name | fmt"; "data.name | nope | fmt : 7 | | nope"]
  = [Ok (VStr "value of data.name");
     Ok (VStr "x");
     Ok (VStr "value of other.path");
     Ok VUndef;
     Ok (VNum (Fin (decimal 7 0)))].
Proof. reflexivity. Qed.

(** An instance of [empty_pipe_segment_throws]. *)
Lemma empty_pipe_segment_witness :
  lookup ∅ (fun _ => VStr "abc") "data.name || upper" = Throw null_match
  ∧ lookup ∅ (fun _ => VStr "abc") "data.name |" = Throw null_match.
Proof.
  apply (empty_pipe_segment_throws ∅ (fun _ => VStr "abc")
           "data.name " " upper").
  reflexivity.
Defined.



End Wax.

(** ** The template engine, on templates made of text and variable tags

    [mustache.render] as far as the claims below need it: the scanner for
    text, double-brace and triple-brace (or ampersand) variable tags with
    the default delimiters, and their interpolation through the context
    lookup that [mustacheWax] replaced. Sections, partials, comments and
    delimiter changes are outside this fragment ([Stuck OutsideFragment]).
    Values that are functions are not modelled. *)

Module Mustache.

Import JS JSFacts.

Inductive token :=
  | Text (chunk : string)
  | Name (name : string)          (* escaped variable *)
  | Unescaped (name : string).    (* triple brace or ampersand *)

Definition lbrace : ascii := ascii_of_N 123.
Definition rbrace : ascii := ascii_of_N 125.
Definition open_tag : string := String lbrace (String lbrace "").
Definition close_tag : string := String rbrace (String rbrace "").
Definition close_curly : string := String rbrace close_tag.

Fixpoint strip_prefix (pat s : string) : option string :=
  match pat, s with
  | EmptyString, _ => Some s
  | String a pat', String c s' =>
      if Ascii.eqb a c then strip_prefix pat' s' else None
  | String _ _, EmptyString => None
  end.

(** The text before the first occurrence of [pat] and the text after
    it. *)
Fixpoint cut (pat s : string) : option (string * string) :=
  match strip_prefix pat s with
  | Some r => Some ("", r)
  | None =>
      match s with
      | EmptyString => None
      | String c s' =>
          match cut pat s' with
          | Some (b, a) => Some (String c b, a)
          | None => None
          end
      end
  end.

(** [scanUntil] of white space followed by [pat], then the scan of that
    closing: the value before it and the tail after it; [None] when the
    template has no such closing (Unclosed tag). *)
Definition until_close (pat s : string) : option (string * string) :=
  match cut pat s with
  | Some (b, a) => Some (trim_end b, a)
  | None => None
  end.

Definition unclosed : exn := Error "Unclosed tag".

(** The character after the opening of a tag that makes it something
    else than a variable: a section, an inverted section, a closing, a
    partial, a delimiter change or a comment. *)
Definition other_tag (c : ascii) : bool :=
  let n := code c in
  ((n =? 35) || (n =? 94) || (n =? 47) || (n =? 62) || (n =? 61)
   || (n =? 33))%N.

(** [parseTemplate]; each round consumes one tag. *)
Fixpoint parseTemplate (fuel : nat) (template : string)
    : outcome (list token) :=
  match fuel with
  | O => Stuck OutOfFuel
  | S fuel' =>
      if is_empty template then Ok []
      else
        match cut open_tag template with
        | None => Ok [Text template]
        | Some (text, r) =>
            let r := trim_start r in
            tag ← match r with
                  | String c r' =>
                      if other_tag c then Stuck OutsideFragment
                      else if Ascii.eqb c lbrace then
                        match until_close close_curly (trim_start r') with
                        | Some (v, a) => Ok (Unescaped v, a)
                        | None => Throw unclosed
                        end
                      else if (code c =? 38)%N then
                        match until_close close_tag (trim_start r') with
                        | Some (v, a) => Ok (Unescaped v, a)
                        | None => Throw unclosed
                        end
                      else
                        match until_close close_tag r with
                        | Some (v, a) => Ok (Name v, a)
                        | None => Throw unclosed
                        end
                  | EmptyString => Throw unclosed
                  end;
            rest ← parseTemplate fuel' (snd tag);
            Ok (Text text :: fst tag :: rest)
        end
  end.

(** [escapeHtml] *)
Definition entity (c : ascii) : string :=
  let n := code c in
  if (n =? 38)%N then "&amp;"
  else if (n =? 60)%N then "&lt;"
  else if (n =? 62)%N then "&gt;"
  else if (n =? 34)%N then "&quot;"
  else if (n =? 39)%N then "&#39;"
  else if (n =? 47)%N then "&#x2F;"
  else if (n =? 96)%N then "&#x60;"
  else if (n =? 61)%N then "&#x3D;"
  else String c "".

Fixpoint escapeHtml (s : string) : string :=
  match s with
  | EmptyString => ""
  | String c s' => entity c +:+ escapeHtml s'
  end.

(** *** The scanner terminates *)

Lemma strip_prefix_length pat s r :
  strip_prefix pat s = Some r →
  (String.length r + String.length pat = String.length s)%nat.
Proof.
  revert s. induction pat as [|a pat IH]; intros s; cbn.
  - intros [= ->]. lia.
  - destruct s as [|c s]; [done|]. destruct (Ascii.eqb a c); [|done].
    intros H%IH. cbn. lia.
Qed.

Lemma cut_length pat s b a :
  cut pat s = Some (b, a) →
  (String.length a + String.length pat ≤ String.length s)%nat.
Proof.
  revert b. induction s as [|c s IH]; intros b; cbn [cut].
  - destruct (strip_prefix pat "") as [r|] eqn:E; [|done].
    intros [= <- <-]. apply strip_prefix_length in E. lia.
  - destruct (strip_prefix pat (String c s)) as [r|] eqn:E.
    + intros [= <- <-]. apply strip_prefix_length in E. lia.
    + destruct (cut pat s) as [[b' a']|] eqn:Ec; [|done].
      intros [= <- <-]. specialize (IH _ eq_refl). cbn. lia.
Qed.

Lemma until_close_length pat s v a :
  until_close pat s = Some (v, a) →
  (String.length a + String.length pat ≤ String.length s)%nat.
Proof.
  unfold until_close. destruct (cut pat s) as [[b a']|] eqn:E; [|done].
  intros [= <- <-]. by eapply cut_length.
Qed.

Lemma parseTemplate_fuel fuel template :
  (String.length template < fuel)%nat →
  parseTemplate fuel template ≠ Stuck OutOfFuel.
Proof.
  revert template. induction fuel as [|fuel IH]; intros template Hlen; [lia|].
  cbn [parseTemplate]. destruct (is_empty template); [done|].
  destruct (cut open_tag template) as [[text r]|] eqn:Ec; [|done].
  apply cut_length in Ec. cbn in Ec.
  pose proof (length_drop_while is_space r) as Hr. fold (trim_start r) in Hr.
  assert (Hrest : ∀ (tag : token * string),
            (String.length (snd tag) < fuel)%nat →
            (rest ← parseTemplate fuel (snd tag);
             Ok (Text text :: fst tag :: rest)) ≠ Stuck OutOfFuel).
  { intros tag Ht. specialize (IH _ Ht).
    destruct (parseTemplate fuel (snd tag)) as [|?|[]]; done. }
  destruct (trim_start r) as [|c r'] eqn:Er; [done|]. cbn in Hr.
  destruct (other_tag c); [done|].
  pose proof (length_drop_while is_space r') as Hr'. fold (trim_start r') in Hr'.
  destruct (Ascii.eqb c lbrace).
  { destruct (until_close close_curly (trim_start r')) as [[v a]|] eqn:Eu; [|done].
    apply until_close_length in Eu. cbn in Eu.
    apply (Hrest (Unescaped v, a)). cbn. lia. }
  destruct (code c =? 38)%N.
  { destruct (until_close close_tag (trim_start r')) as [[v a]|] eqn:Eu; [|done].
    apply until_close_length in Eu. cbn in Eu.
    apply (Hrest (Unescaped v, a)). cbn. lia. }
  destruct (until_close close_tag (String c r')) as [[v a]|] eqn:Eu; [|done].
  apply until_close_length in Eu. cbn in Eu.
  apply (Hrest (Name v, a)). cbn. lia.
Qed.

Section Engine.

(** [Mustache.Formatters] *)
Variable Formatters : gmap string Wax.formatter.

(** [String(n)] for a Number, which is not modelled. *)
Variable show_number : number → string.

Definition to_string (v : value) : string :=
  match v with
  | VStr s => s
  | VBool true => "true"
  | VBool false => "false"
  | VNum n => show_number n
  | VNull => "null"
  | VUndef => "undefined"
  | VObj _ => "[object Object]"
  end.

Definition nullish (v : value) : bool :=
  match v with VUndef | VNull => true | _ => false end.

(** The walk of a dotted name from the view. *)
Fixpoint walk (v : value) (names : list string) : value :=
  match names with
  | [] => v
  | n :: ns => if nullish v then VUndef else walk (prop v n) ns
  end.

(** The engine's own [Context.prototype.lookup] on a context without
    parent, whose view is [view]. *)
Definition lookup0 (view : value) (name : string) : value :=
  if String.eqb name "." then view
  else if index_pos dot name then walk view (split dot name)
  else prop view name.

Definition render_token (view : value) (t : token) : outcome string :=
  match t with
  | Text s => Ok s
  | Name n =>
      v ← Wax.lookup Formatters (lookup0 view) n;
      Ok (if nullish v then "" else escapeHtml (to_string v))
  | Unescaped n =>
      v ← Wax.lookup Formatters (lookup0 view) n;
      Ok (if nullish v then "" else to_string v)
  end.

Fixpoint renderTokens (view : value) (ts : list token) : outcome string :=
  match ts with
  | [] => Ok ""
  | t :: ts' =>
      s ← render_token view t;
      r ← renderTokens view ts';
      Ok (s +:+ r)
  end.

Definition invalid_template : exn :=
  TypeError "Invalid template! Template should be a string".

(** [mustache.render(template, view)] *)
Definition render (template view : value) : outcome string :=
  match template with
  | VStr s =>
      ts ← parseTemplate (S (String.length s)) s;
      renderTokens view ts
  | _ => Throw invalid_template
  end.

(** The fuel of the scanner and of the lookup never runs out. *)
Lemma renderTokens_not_stuck view ts :
  (∀ f args, Formatters !! f = Some args → ∀ l, args l ≠ Stuck OutOfFuel) →
  renderTokens view ts ≠ Stuck OutOfFuel.
Proof.
  intros HF. induction ts as [|t ts IH]; [done|].
  cbn [renderTokens].
  assert (Ht : render_token view t ≠ Stuck OutOfFuel).
  { destruct t as [s|n|n]; [done|..]; cbn [render_token];
      pose proof (Wax.lookup_not_stuck Formatters (lookup0 view) n HF) as Hn;
      by destruct (Wax.lookup _ _ n) as [| |[]]. }
  destruct (render_token view t) as [s| |[]]; cbn [mbind outcome_bind];
    [|done..].
  by destruct (renderTokens view ts) as [r| |[]].
Qed.

Lemma render_fuel template view :
  (∀ f args, Formatters !! f = Some args → ∀ l, args l ≠ Stuck OutOfFuel) →
  render template view ≠ Stuck OutOfFuel.
Proof.
  intros HF. destruct template as [| | | |s|]; try done. cbn [render].
  pose proof (parseTemplate_fuel (S (String.length s)) s (Nat.lt_succ_diag_r _)).
  destruct (parseTemplate _ s) as [ts| |w]; cbn [mbind outcome_bind];
    [by apply renderTokens_not_stuck|done|].
  by destruct w.
Qed.

End Engine.

Example render_examples :
  let view :=
    VObj {[ "data" := VObj {[ "name" := VStr "a<b"; "none" := VNull ]} ]} in
  map (fun t => render ∅ (fun _ => "0") (VStr t) view)
      ["Hello {{ data.name }} and {{{ data.name }}}!";
       "{{data.none}}{{data.missing}}{{data.name.first}}.";
       "{{& data.name | unknown : 1 }}";
       "Hello {{ data.name";
       "{{#data}}x{{/data}}"]
  = [Ok "Hello a&lt;b and a<b!";
     Ok ".";
     Ok "a<b";
     Throw unclosed;
     Stuck OutsideFragment]
  ∧ render ∅ (fun _ => "0") VUndef view = Throw invalid_template.
Proof. split; reflexivity. Qed.

End Mustache.

(** ** The mailer: caches, reload, [getTemplate] and [send] *)

Module Mailer.

Import JS.

(** [opts], as [start] builds it; every field is undefined before
    [start] ran. *)
Record options := {
  defaultLanguage : option string;
  transporter : value;
  mustacheFormatter : gmap string Wax.formatter
}.

(** A reference to an object of the caller. *)
Abbreviation loc := positive.

Inductive event :=
  | Log (level : string) (args : list value)
  | Render (template view : value)
  | HtmlToText (html : value)
  | Callback (args : list value)
  | CreateTransport (transporterOpts : value)
  | SendMail (message : loc) (fields : gmap string value)
  | Uncaught (e : exn).

(** The module-level variables, the objects of the caller, and what the
    module did to the outside so far (latest event last). *)
Record world := {
  opts : options;
  translations : gmap string value;
  templates : gmap string value;
  subjects : gmap string value;
  heap : gmap loc (gmap string value);
  trace : list event
}.

Definition M (A : Type) : Type := world → outcome A * world.

#[global] Instance M_ret : MRet M := fun A a w => (Ok a, w).
#[global] Instance M_bind : MBind M := fun A B f m w =>
  match m w with
  | (Ok a, w') => f a w'
  | (Throw e, w') => (Throw e, w')
  | (Stuck s, w') => (Stuck s, w')
  end.

Definition throw {A} (e : exn) : M A := fun w => (Throw e, w).

Definition lift {A} (o : outcome A) : M A := fun w => (o, w).

Definition read : M world := fun w => (Ok w, w).

Definition add_events (w : world) (evs : list event) : world :=
  {| opts := opts w; translations := translations w;
     templates := templates w; subjects := subjects w;
     heap := heap w; trace := trace w ++ evs |}.

Definition with_heap (w : world) (h : gmap loc (gmap string value)) : world :=
  {| opts := opts w; translations := translations w;
     templates := templates w; subjects := subjects w;
     heap := h; trace := trace w |}.

Definition emit (e : event) : M unit := fun w => (Ok (), add_events w [e]).

Definition with_translations (w : world) (m : gmap string value) : world :=
  {| opts := opts w; translations := m;
     templates := templates w; subjects := subjects w;
     heap := heap w; trace := trace w |}.

Definition with_templates (w : world) (m : gmap string value) : world :=
  {| opts := opts w; translations := translations w;
     templates := m; subjects := subjects w;
     heap := heap w; trace := trace w |}.

Definition with_subjects (w : world) (m : gmap string value) : world :=
  {| opts := opts w; translations := translations w;
     templates := templates w; subjects := m;
     heap := heap w; trace := trace w |}.

(** [translations[lang] = keys], an assignment to an array *)
Definition set_translation (lang : string) (keys : value) : M unit := fun w =>
  match array_set lang keys (translations w) with
  | Ok m => (Ok (), with_translations w m)
  | Throw e => (Throw e, w)
  | Stuck s => (Stuck s, w)
  end.

(** [templates[name] = text] *)
Definition set_template (name : string) (text : value) : M unit := fun w =>
  match array_set name text (templates w) with
  | Ok m => (Ok (), with_templates w m)
  | Throw e => (Throw e, w)
  | Stuck s => (Stuck s, w)
  end.

(** [subjects[name] = subject] *)
Definition set_subject (name : string) (subject : value) : M unit := fun w =>
  match array_set name subject (subjects w) with
  | Ok m => (Ok (), with_subjects w m)
  | Throw e => (Throw e, w)
  | Stuck s => (Stuck s, w)
  end.

Definition set_heap (h : gmap loc (gmap string value)) : M unit := fun w =>
  (Ok (), with_heap w h).

Definition fields (w : world) (l : loc) : gmap string value :=
  default ∅ (heap w !! l).

(** [o.k] for the object at [l] *)
Definition load (l : loc) (k : string) : M value :=
  w ← read; mret (get (fields w l) k).

(** [o.k = v] *)
Definition store (l : loc) (k : string) (v : value) : M unit :=
  w ← read; set_heap (<[l := <[k := v]> (fields w l)]> (heap w)).

(** [delete o.k] *)
Definition remove (l : loc) (k : string) : M unit :=
  w ← read; set_heap (<[l := delete k (fields w l)]> (heap w)).

Definition log (level : string) (args : list value) : M unit :=
  emit (Log level args).

Fixpoint forEach {A} (f : A → M unit) (l : list A) : M unit :=
  match l with
  | [] => mret ()
  | x :: l' => f x ;; forEach f l'
  end.

Definition not_a_function : exn := TypeError "callback is not a function".

(** A call of a callback that the caller may not have passed. *)
Definition call (callback : option (list value → M unit))
    (args : list value) : M unit :=
  match callback with
  | Some f => f args
  | None => throw not_a_function
  end.

(** The callback of the caller, seen from outside. *)
Definition reported : list value → M unit := fun args => emit (Callback args).

(** *** Reload *)

Record translation := { lang : string; keys : value }.
Record template := { name : string; text : value; subject : value }.

(** The handler that [getTranslations] passes to [exec], run on what the
    store answered. *)
Definition getTranslations (callback : option (list value → M unit))
    (err : value) (translationsList : option (list translation)) : M unit :=
  if truthy err then
    log "error" [err];; call callback [err]
  else
    let translationsList := default [] translationsList in
    forEach (fun translation =>
               set_translation (lang translation) (keys translation))
            translationsList.

(** The handler that [getTemplates] passes to [exec]. *)
Definition getTemplates (callback : option (list value → M unit))
    (err : value) (docs : option (list template)) : M unit :=
  if truthy err then
    log "error" [err];; call callback [err]
  else
    let docs := default [] docs in
    forEach (fun template =>
               set_template (name template) (text template);;
               set_subject (name template) (subject template))
            docs.

(** A handler run by the event loop: what it throws is uncaught. *)
Definition task (m : M unit) : M unit := fun w =>
  match m w with
  | (Throw e, w') => emit (Uncaught e) w'
  | r => r
  end.

(** [reloadTemplates], with the answers of the store to the two
    queries: neither call passes a callback. The two handlers run as
    tasks of their own, here the one of the translations first; they
    write to different caches. *)
Definition reloadTemplates
    (err1 : value) (translationsList : option (list translation))
    (err2 : value) (docs : option (list template)) : M unit :=
  task (getTranslations None err1 translationsList);;
  task (getTemplates None err2 docs).

(** *** Rendering and sending *)

Record templateOps := {
  language : option string;
  tmplName : string;
  data : value
}.

Section Mailer.

(** [mustache.render], with [mustache.Formatters] as set before the
    call. *)
Variable engine : gmap string Wax.formatter → value → value → outcome string.

(** [htmlToText.fromString(html, { wordwrap: 130 })] *)
Variable htmlToText : value → string.

(** The answer of the transport to [sendMail]: an error and an info. *)
Variable deliver : value → gmap string value → value * value.

Definition render (template view : value) : M string :=
  w ← read;
  emit (Render template view);;
  lift (engine (mustacheFormatter (opts w)) template view).

(** The language bundle [langObj] that [getTemplate] picks. *)
Definition pick_language (templateOps : templateOps) : M value :=
  w ← read;
  let lang :=
    or_else (or_str (language templateOps) (defaultLanguage (opts w)))
      "de" in
  let translation := get (translations w) lang in
  if negb (String.eqb lang "") && truthy translation then
    mret translation
  else if truthy (of_opt (defaultLanguage (opts w))) then
    log "info" [VStr "no language found, switching to default"];;
    mret (get (translations w) (default "" (defaultLanguage (opts w))))
  else
    log "info" [VStr "no language defined"];;
    mret VUndef.

(** The body of [getTemplate] between its housekeeping and its last
    statement, the call of the callback with [message].

    Before rendering, [getTemplate] calls [mustacheWax(mustache)] and sets
    [mustache.Formatters] to [opts.mustacheFormatter]: the engine then
    looks every name up through [Wax.parseExpression] with these
    formatters, which is what [engine] stands for. (Each call wraps the
    lookup once more; a wrapped lookup hands the trimmed first segment,
    which has no pipe, to the lookup it wraps, so that the wrapping of a
    wrapping looks up what a single wrapping does. The depth of this
    nesting grows with every call of [getTemplate]; the stack it takes
    is not part of the model.) *)
Definition build_message (templateOps : templateOps)
    : M (gmap string value) :=
  w ← read;
  let tmplName := tmplName templateOps in
  let template := get (templates w) tmplName in
  langObj ← pick_language templateOps;
  let compileData :=
    VObj {[ "data" := data templateOps;
            "lang" := langObj;
            "templates" := VObj (templates w) ]} in
  let message : gmap string value := ∅ in
  message ←
    (if truthy (get (subjects w) tmplName) then
       s ← render (get (subjects w) tmplName) compileData;
       s ← render (VStr s) compileData;
       mret (<["subject" := VStr s]> message)
     else mret message);
  message ←
    (if truthy template then
       h ← render template compileData;
       h ← render (VStr h) compileData;
       mret (<["html" := VStr h]> message)
     else mret (<["html" := get message "subject"]> message));
  if negb (truthy (get message "text")) && truthy (get message "html") then
    emit (HtmlToText (get message "html"));;
    mret (<["text" := VStr (htmlToText (get message "html"))]> message)
  else mret message.

Definition getTemplate (templateOps : option templateOps)
    (callback : option (list value → M unit)) : M unit :=
  match callback with
  | None =>
      log "error" [VStr "no callback defined"];;
      log "error" [VStr "no callback defined"]
  | Some callback =>
      match templateOps with
      | None =>
          log "error" [VStr "no template defined"];;
          callback [VStr "no template defined"]
      | Some templateOps =>
          message ← build_message templateOps;
          callback [VNull; VObj message]
      end
  end.

(** The handler that [send] passes to [sendMail], run on the answer of
    the transport. *)
Definition on_sent (callback : option (list value → M unit))
    (err info : value) : M unit :=
  if truthy err then
    log "error" [VStr "error in sendMail: "; err];;
    (if truthy (prop err "message")
     then call callback [prop err "message"; info]
     else call callback [err; info])
  else
    log "success" [VStr "successfull sent mail"];;
    call callback [err; info].

(** The callback that [send] passes to [getTemplate]. *)
Definition on_template (l : loc) (transporterOpts : value)
    (callback : option (list value → M unit))
    (args : list value) : M unit :=
  let err := nth 0 args VUndef in
  let mailContent := nth 1 args VUndef in
  if truthy err then
    log "error" [VStr "error in getting template: "; err];;
    call callback [err]
  else
    s ← load l "subject";
    store l "subject" (or s (prop mailContent "subject"));;
    h ← load l "html";
    store l "html" (or h (prop mailContent "html"));;
    t ← load l "text";
    store l "text" (or t (prop mailContent "text"));;
    emit (CreateTransport transporterOpts);;
    w ← read;
    emit (SendMail l (fields w l));;
    let '(err, info) := deliver transporterOpts (fields w l) in
    on_sent callback err info.

Definition send (template : option templateOps) (message : option loc)
    (callback : option (list value → M unit)) : M unit :=
  let errMsg := "" in
  let errMsg :=
    if bool_decide (template = None) then "no template defined"
    else errMsg in
  to ← match message with
       | Some l => load l "to"
       | None => mret VUndef
       end;
  let errMsg :=
    if negb (truthy to)
    then "no template and no options defined for nodemailer"
    else errMsg in
  let errMsg :=
    if bool_decide (callback = None) then "no callback defined"
    else errMsg in
  if negb (String.eqb errMsg "") then
    log "error" [VStr errMsg];; call callback [VStr errMsg]
  else
    match message with
    | None =>
        throw (TypeError "Cannot read properties of undefined (reading 'transporter')")
    | Some l =>
        mt ← load l "transporter";
        w ← read;
        transporterOpts ← lift (json_copy (or mt (transporter (opts w))));
        remove l "transporter";;
        if negb (truthy transporterOpts) then
          log "error" [VStr "no transporter defined, aborting"]
        else
          getTemplate template
            (Some (on_template l transporterOpts callback))
    end.

(** *** Running the monad *)

Lemma bind_ok {A B} (m : M A) (f : A → M B) w a w' :
  m w = (Ok a, w') → (m ≫= f) w = f a w'.
Proof. intros H. unfold mbind, M_bind. by rewrite H. Qed.

Lemma bind_throw {A B} (m : M A) (f : A → M B) w e w' :
  m w = (Throw e, w') → (m ≫= f) w = (Throw e, w').
Proof. intros H. unfold mbind, M_bind. by rewrite H. Qed.

Lemma add_events_nil w : add_events w [] = w.
Proof. destruct w. unfold add_events. cbn. by rewrite app_nil_r. Qed.

Lemma add_events_app w evs1 evs2 :
  add_events (add_events w evs1) evs2 = add_events w (evs1 ++ evs2).
Proof. unfold add_events. cbn. by rewrite app_assoc. Qed.

(** *** Housekeeping of [send] *)

Definition no_recipient : string :=
  "no template and no options defined for nodemailer".

(** The message is absent, or its [to] is. *)
Definition lacks_recipient (w : world) (message : option loc) : Prop :=
  match message with
  | Some l => truthy (get (fields w l) "to") = false
  | None => True
  end.

(** Claim C6. When the message is absent or has no [to], [send] logs the
    error and hands it to the callback, and does nothing else: no
    transport is created, no mail is sent and the caches and the
    objects of the caller are as before. Without a callback the call
    of the callback throws, and the transport is not reached either. *)
Theorem send_without_recipient template message w :
  lacks_recipient w message →
  (∀ callback,
     send template message (Some callback) w
     = callback [VStr no_recipient]
         (add_events w [Log "error" [VStr no_recipient]]))
  ∧ send template message None w
    = (Throw not_a_function,
       add_events w [Log "error" [VStr "no callback defined"]]).
Proof.
  intros H.
  assert (Hto : ∃ to, truthy to = false ∧
            (match message with
             | Some l => load l "to"
             | None => mret VUndef
             end) w = (Ok to, w)).
  { destruct message as [l|]; cbn in H.
    - exists (get (fields w l) "to"). split; [exact H|reflexivity].
    - exists VUndef. split; reflexivity. }
  destruct Hto as (to & Hto & Hrun). split.
  - intros callback. unfold send. rewrite (bind_ok _ _ _ _ _ Hrun).
    rewrite Hto. cbn [negb]. done.
  - unfold send. rewrite (bind_ok _ _ _ _ _ Hrun). done.
Qed.

(** *** Reload *)

(** Writing the entries of [l] into [m] one after the other, as the
    [forEach] of the handlers does. *)
Definition merge {A} (key : A → string) (val : A → value)
    (m : gmap string value) (l : list A) : gmap string value :=
  foldl (fun m d => <[key d := val d]> m) m l.

Lemma merge_other {A} (key : A → string) val m (l : list A) k :
  k ∉ map key l → merge key val m l !! k = m !! k.
Proof.
  revert m. induction l as [|d l IH]; intros m Hk; [done|].
  change (merge key val m (d :: l))
    with (merge key val (<[key d := val d]> m) l).
  cbn [map] in Hk. apply not_elem_of_cons in Hk as [Hd Hl].
  rewrite IH by done. by apply lookup_insert_ne.
Qed.

Lemma merge_last {A} (key : A → string) val m (l1 l2 : list A) d :
  key d ∉ map key l2 →
  merge key val m (l1 ++ d :: l2)%list !! key d = Some (val d).
Proof.
  intros Hk. unfold merge. rewrite foldl_app. cbn.
  fold (merge key val (<[key d:=val d]> (foldl (fun m d => <[key d := val d]> m) m l1)) l2).
  rewrite merge_other by done. apply lookup_insert_eq.
Qed.

Lemma forEach_cons {A} (f : A → M unit) x l w w' :
  f x w = (Ok (), w') → forEach f (x :: l) w = forEach f l w'.
Proof. intros H. cbn [forEach]. by rewrite (bind_ok _ _ _ _ _ H). Qed.

Lemma array_set_plain k v m :
  array_setter k = false → array_set k v m = Ok (<[k := v]> m).
Proof.
  unfold array_setter, array_set, assignment.
  intros [-> ->]%orb_false_elim. done.
Qed.

Lemma set_template_plain k v w :
  array_setter k = false →
  set_template k v w = (Ok (), with_templates w (<[k := v]> (templates w))).
Proof. intros H. unfold set_template. by rewrite array_set_plain. Qed.

Lemma set_subject_plain k v w :
  array_setter k = false →
  set_subject k v w = (Ok (), with_subjects w (<[k := v]> (subjects w))).
Proof. intros H. unfold set_subject. by rewrite array_set_plain. Qed.

Lemma set_translation_plain k v w :
  array_setter k = false →
  set_translation k v w
  = (Ok (), with_translations w (<[k := v]> (translations w))).
Proof. intros H. unfold set_translation. by rewrite array_set_plain. Qed.

Lemma getTemplates_run callback err docs w :
  truthy err = false →
  Forall (fun d => array_setter (name d) = false) (default [] docs) →
  getTemplates callback err docs w
  = (Ok (),
     {| opts := opts w; translations := translations w;
        templates := merge name text (templates w) (default [] docs);
        subjects := merge name subject (subjects w) (default [] docs);
        heap := heap w; trace := trace w |}).
Proof.
  intros He. unfold getTemplates. rewrite He.
  generalize (default [] docs). clear. intros l Hl. revert w.
  induction Hl as [|d l Hd Hl IH]; intros w; [by destruct w|].
  erewrite forEach_cons.
  2:{ rewrite (bind_ok _ _ _ _ _ (set_template_plain _ _ _ Hd)).
      apply (set_subject_plain _ _ _ Hd). }
  by rewrite IH.
Qed.

Lemma getTranslations_run callback err translationsList w :
  truthy err = false →
  Forall (fun t => array_setter (lang t) = false)
         (default [] translationsList) →
  getTranslations callback err translationsList w
  = (Ok (),
     {| opts := opts w;
        translations :=
          merge lang keys (translations w) (default [] translationsList);
        templates := templates w; subjects := subjects w;
        heap := heap w; trace := trace w |}).
Proof.
  intros He. unfold getTranslations. rewrite He.
  generalize (default [] translationsList). clear. intros l Hl. revert w.
  induction Hl as [|d l Hd Hl IH]; intros w; [by destruct w|].
  erewrite forEach_cons; [|apply (set_translation_plain _ _ _ Hd)].
  by rewrite IH.
Qed.

(** Claim C3, as amended. A successful reload whose fetched names are
    names that an array stores (not [length], not [__proto__]) assigns
    each fetched entry to its name in the cache that is there: an entry
    of the cache whose name was not fetched stays as it was, and a
    fetched name ends up with the value of the last fetched entry of that
    name. Nothing is logged and nothing is thrown. *)
Theorem reload_merges_into_cache callback err docs translationsList w :
  truthy err = false →
  Forall (fun d => array_setter (name d) = false) (default [] docs) →
  Forall (fun t => array_setter (lang t) = false)
         (default [] translationsList) →
  getTemplates callback err docs w
  = (Ok (),
     {| opts := opts w; translations := translations w;
        templates := merge name text (templates w) (default [] docs);
        subjects := merge name subject (subjects w) (default [] docs);
        heap := heap w; trace := trace w |})
  ∧ getTranslations callback err translationsList w
    = (Ok (),
       {| opts := opts w;
          translations :=
            merge lang keys (translations w) (default [] translationsList);
          templates := templates w; subjects := subjects w;
          heap := heap w; trace := trace w |})
  ∧ (∀ k, k ∉ map name (default [] docs) →
       merge name text (templates w) (default [] docs) !! k
       = templates w !! k
       ∧ merge name subject (subjects w) (default [] docs) !! k
         = subjects w !! k)
  ∧ (∀ k, k ∉ map lang (default [] translationsList) →
       merge lang keys (translations w) (default [] translationsList) !! k
       = translations w !! k)
  ∧ (∀ l1 d l2, default [] docs = (l1 ++ d :: l2)%list →
       name d ∉ map name l2 →
       merge name text (templates w) (default [] docs) !! name d
       = Some (text d)
       ∧ merge name subject (subjects w) (default [] docs) !! name d
         = Some (subject d))
  ∧ (∀ l1 t l2, default [] translationsList = (l1 ++ t :: l2)%list →
       lang t ∉ map lang l2 →
       merge lang keys (translations w) (default [] translationsList)
         !! lang t = Some (keys t)).
Proof.
  intros He Hd Ht.
  split; [by apply getTemplates_run|].
  split; [by apply getTranslations_run|].
  split; [intros k Hk; split; by apply merge_other|].
  split; [intros k Hk; by apply merge_other|].
  split.
  - intros l1 d l2 -> Hl. split; by apply merge_last.
  - intros l1 t l2 -> Hl. by apply merge_last.
Qed.

(** Claim C7. When the store answers a query of [reloadTemplates] with an
    error, the handler logs it and then calls the callback that
    [reloadTemplates] did not pass: a TypeError is thrown out of the
    handler. The caches are as before. *)
Theorem reload_failure_throws err1 translationsList err2 docs w :
  truthy err1 = true →
  getTranslations None err1 translationsList w
  = (Throw not_a_function, add_events w [Log "error" [err1]])
  ∧ getTemplates None err1 docs w
    = (Throw not_a_function, add_events w [Log "error" [err1]])
  ∧ reloadTemplates err1 translationsList err2 docs w
    = task (getTemplates None err2 docs)
        (add_events w [Log "error" [err1]; Uncaught not_a_function]).
Proof.
  intros He.
  assert (H1 : getTranslations None err1 translationsList w
               = (Throw not_a_function, add_events w [Log "error" [err1]])).
  { unfold getTranslations. by rewrite He. }
  split; [done|]. split.
  { unfold getTemplates. by rewrite He. }
  assert (H2 : task (getTranslations None err1 translationsList) w
               = (Ok (), add_events w [Log "error" [err1];
                                       Uncaught not_a_function])).
  { unfold task. rewrite H1. unfold emit. by rewrite add_events_app. }
  unfold reloadTemplates. by rewrite (bind_ok _ _ _ _ _ H2).
Qed.

(** *** [getTemplate] *)

(** The language bundle picked for a request, and what picking it
    logs. *)
Definition langObj (w : world) (ops : templateOps) : value :=
  let lang :=
    or_else (or_str (language ops) (defaultLanguage (opts w))) "de" in
  if negb (String.eqb lang "") && truthy (get (translations w) lang)
  then get (translations w) lang
  else if truthy (of_opt (defaultLanguage (opts w)))
  then get (translations w) (default "" (defaultLanguage (opts w)))
  else VUndef.

Definition language_log (w : world) (ops : templateOps) : list event :=
  let lang :=
    or_else (or_str (language ops) (defaultLanguage (opts w))) "de" in
  if negb (String.eqb lang "") && truthy (get (translations w) lang)
  then []
  else if truthy (of_opt (defaultLanguage (opts w)))
  then [Log "info" [VStr "no language found, switching to default"]]
  else [Log "info" [VStr "no language defined"]].

(** The view that the engine renders against. *)
Definition compileData (w : world) (ops : templateOps) : value :=
  VObj {[ "data" := data ops;
          "lang" := langObj w ops;
          "templates" := VObj (templates w) ]}.

Lemma pick_language_run ops w :
  pick_language ops w
  = (Ok (langObj w ops), add_events w (language_log w ops)).
Proof.
  unfold pick_language, langObj, language_log.
  rewrite (bind_ok read _ w w w eq_refl).
  destruct (_ && _); [by rewrite add_events_nil|].
  by destruct (truthy (of_opt _)).
Qed.

Lemma render_run template view w :
  render template view w
  = (engine (mustacheFormatter (opts w)) template view,
     add_events w [Render template view]).
Proof. reflexivity. Qed.

(** The plain text added to a message whose [html] is not empty. *)
Definition with_text (message : gmap string value) : gmap string value :=
  if truthy (get message "html")
  then <["text" := VStr (htmlToText (get message "html"))]> message
  else message.

Definition text_log (message : gmap string value) : list event :=
  if truthy (get message "html")
  then [HtmlToText (get message "html")] else [].

Ltac step H := rewrite (bind_ok _ _ _ _ _ H).

(** Without subject and without body there is nothing to render. *)
Lemma build_message_nothing ops w :
  truthy (get (subjects w) (tmplName ops)) = false →
  truthy (get (templates w) (tmplName ops)) = false →
  build_message ops w
  = (Ok {[ "html" := VUndef ]}, add_events w (language_log w ops)).
Proof.
  intros Hs Ht. unfold build_message.
  rewrite (bind_ok read _ w w w eq_refl).
  step (pick_language_run ops w). cbn [subjects templates add_events].
  rewrite Hs, Ht. reflexivity.
Qed.

Lemma opts_add_events w evs : opts (add_events w evs) = opts w.
Proof. reflexivity. Qed.

(** Two passes of the engine over a text, the second over what the
    first returned, both against the same view. *)
Lemma two_pass_run {A} (g : string → A) t view w s1 s2 :
  engine (mustacheFormatter (opts w)) t view = Ok s1 →
  engine (mustacheFormatter (opts w)) (VStr s1) view = Ok s2 →
  (s ← render t view; s ← render (VStr s) view; mret (g s)) w
  = (Ok (g s2), add_events w [Render t view; Render (VStr s1) view]).
Proof.
  intros H1 H2.
  assert (R1 : render t view w = (Ok s1, add_events w [Render t view])).
  { by rewrite render_run, H1. }
  step R1.
  assert (R2 : render (VStr s1) view (add_events w [Render t view])
               = (Ok s2, add_events w [Render t view; Render (VStr s1) view])).
  { by rewrite render_run, opts_add_events, H2, add_events_app. }
  step R2. reflexivity.
Qed.

(** The first pass or the second throws: so does the whole. *)
Lemma two_pass_throws {A} (g : string → A) t view w e :
  engine (mustacheFormatter (opts w)) t view = Throw e
  ∨ (∃ s1, engine (mustacheFormatter (opts w)) t view = Ok s1
           ∧ engine (mustacheFormatter (opts w)) (VStr s1) view = Throw e) →
  ∃ evs,
    (s ← render t view; s ← render (VStr s) view; mret (g s)) w
    = (Throw e, add_events w evs).
Proof.
  intros [H1|(s1 & H1 & H2)].
  - exists [Render t view]. apply bind_throw. by rewrite render_run, H1.
  - exists [Render t view; Render (VStr s1) view].
    assert (R1 : render t view w = (Ok s1, add_events w [Render t view])).
    { by rewrite render_run, H1. }
    step R1. apply bind_throw.
    by rewrite render_run, opts_add_events, H2, add_events_app.
Qed.

Lemma finish_text message w :
  get message "text" = VUndef →
  (if negb (truthy (get message "text")) && truthy (get message "html")
   then
     emit (HtmlToText (get message "html"));;
     mret (<["text" := VStr (htmlToText (get message "html"))]> message)
   else mret message) w
  = (Ok (with_text message), add_events w (text_log message)).
Proof.
  intros ->. unfold with_text, text_log. cbn [truthy negb andb].
  destruct (truthy (get message "html")); [done|].
  by rewrite add_events_nil.
Qed.

(** The subject alone, rendered twice. *)
Lemma build_message_subject ops w s1 s2 :
  let F := mustacheFormatter (opts w) in
  let subj := get (subjects w) (tmplName ops) in
  truthy subj = true →
  truthy (get (templates w) (tmplName ops)) = false →
  engine F subj (compileData w ops) = Ok s1 →
  engine F (VStr s1) (compileData w ops) = Ok s2 →
  let message := <["html" := VStr s2]> {[ "subject" := VStr s2 ]} in
  build_message ops w
  = (Ok (with_text message),
     add_events w (language_log w ops
                   ++ [Render subj (compileData w ops);
                       Render (VStr s1) (compileData w ops)]
                   ++ text_log message)).
Proof.
  intros F subj Hs Ht H1 H2 message. unfold build_message.
  rewrite (bind_ok read _ w w w eq_refl).
  step (pick_language_run ops w).
  fold subj. rewrite Hs, Ht. fold (compileData w ops).
  erewrite bind_ok; [|by apply two_pass_run].
  rewrite (bind_ok (mret _) _ _ _ _ eq_refl).
  change (get (<["subject":=VStr s2]> ∅) "subject") with (VStr s2).
  fold message. rewrite finish_text by done.
  by rewrite !add_events_app.
Qed.

(** Subject and body, each rendered twice. *)
Lemma build_message_both ops w s1 s2 h1 h2 :
  let F := mustacheFormatter (opts w) in
  let subj := get (subjects w) (tmplName ops) in
  let body := get (templates w) (tmplName ops) in
  truthy subj = true →
  truthy body = true →
  engine F subj (compileData w ops) = Ok s1 →
  engine F (VStr s1) (compileData w ops) = Ok s2 →
  engine F body (compileData w ops) = Ok h1 →
  engine F (VStr h1) (compileData w ops) = Ok h2 →
  let message := <["html" := VStr h2]> {[ "subject" := VStr s2 ]} in
  build_message ops w
  = (Ok (with_text message),
     add_events w (language_log w ops
                   ++ [Render subj (compileData w ops);
                       Render (VStr s1) (compileData w ops);
                       Render body (compileData w ops);
                       Render (VStr h1) (compileData w ops)]
                   ++ text_log message)).
Proof.
  intros F subj body Hs Ht H1 H2 H3 H4 message. unfold build_message.
  rewrite (bind_ok read _ w w w eq_refl).
  step (pick_language_run ops w).
  fold subj body. rewrite Hs, Ht. fold (compileData w ops).
  erewrite bind_ok; [|by apply two_pass_run].
  erewrite bind_ok; [|by apply two_pass_run].
  fold message. rewrite finish_text by done.
  by rewrite !add_events_app.
Qed.

(** The body alone, rendered twice. *)
Lemma build_message_body ops w h1 h2 :
  let F := mustacheFormatter (opts w) in
  let body := get (templates w) (tmplName ops) in
  truthy (get (subjects w) (tmplName ops)) = false →
  truthy body = true →
  engine F body (compileData w ops) = Ok h1 →
  engine F (VStr h1) (compileData w ops) = Ok h2 →
  let message : gmap string value := {[ "html" := VStr h2 ]} in
  build_message ops w
  = (Ok (with_text message),
     add_events w (language_log w ops
                   ++ [Render body (compileData w ops);
                       Render (VStr h1) (compileData w ops)]
                   ++ text_log message)).
Proof.
  intros F body Hs Ht H3 H4 message. unfold build_message.
  rewrite (bind_ok read _ w w w eq_refl).
  step (pick_language_run ops w).
  fold body. rewrite Hs, Ht. fold (compileData w ops).
  rewrite (bind_ok (mret _) _ _ _ _ eq_refl).
  erewrite bind_ok; [|by apply two_pass_run].
  change (<["html":=VStr h2]> ∅) with message.
  rewrite finish_text by done.
  by rewrite !add_events_app.
Qed.

Lemma build_message_subject_throws ops w e :
  let F := mustacheFormatter (opts w) in
  let subj := get (subjects w) (tmplName ops) in
  truthy subj = true →
  engine F subj (compileData w ops) = Throw e
  ∨ (∃ s1, engine F subj (compileData w ops) = Ok s1
           ∧ engine F (VStr s1) (compileData w ops) = Throw e) →
  ∃ evs, build_message ops w = (Throw e, add_events w evs).
Proof.
  intros F subj Hs He. unfold build_message.
  rewrite (bind_ok read _ w w w eq_refl).
  step (pick_language_run ops w).
  fold subj. rewrite Hs. fold (compileData w ops).
  destruct (two_pass_throws
              (fun s => <["subject" := VStr s]> (∅ : gmap string value))
              subj (compileData w ops)
              (add_events w (language_log w ops)) e He) as [evs Hevs].
  exists (language_log w ops ++ evs)%list.
  rewrite (bind_throw _ _ _ _ _ Hevs). by rewrite add_events_app.
Qed.

Lemma getTemplate_run ops callback w message w' :
  build_message ops w = (Ok message, w') →
  getTemplate (Some ops) (Some callback) w
  = callback [VNull; VObj message] w'.
Proof. intros H. unfold getTemplate. by step H. Qed.

Lemma getTemplate_throws ops callback w e w' :
  build_message ops w = (Throw e, w') →
  getTemplate (Some ops) (Some callback) w = (Throw e, w').
Proof. intros H. unfold getTemplate. by apply bind_throw. Qed.

(** The two passes over the subject and over the body. *)
Lemma getTemplate_two_pass ops callback w s1 s2 :
  let F := mustacheFormatter (opts w) in
  let view := compileData w ops in
  let subj := get (subjects w) (tmplName ops) in
  let body := get (templates w) (tmplName ops) in
  truthy subj = true →
  engine F subj view = Ok s1 →
  engine F (VStr s1) view = Ok s2 →
  (truthy body = false →
   let message := <["html" := VStr s2]> {[ "subject" := VStr s2 ]} in
   getTemplate (Some ops) (Some callback) w
   = callback [VNull; VObj (with_text message)]
       (add_events w (language_log w ops
                      ++ [Render subj view; Render (VStr s1) view]
                      ++ text_log message)))
  ∧ (∀ h1 h2,
       truthy body = true →
       engine F body view = Ok h1 →
       engine F (VStr h1) view = Ok h2 →
       let message := <["html" := VStr h2]> {[ "subject" := VStr s2 ]} in
       getTemplate (Some ops) (Some callback) w
       = callback [VNull; VObj (with_text message)]
           (add_events w (language_log w ops
                          ++ [Render subj view; Render (VStr s1) view;
                              Render body view; Render (VStr h1) view]
                          ++ text_log message))).
Proof.
  intros F view subj body Hs H1 H2. split.
  - intros Hb message. apply getTemplate_run.
    by apply build_message_subject.
  - intros h1 h2 Hb H3 H4 message. apply getTemplate_run.
    by apply build_message_both.
Qed.

(** Claim C5, as amended. For a name without body template that is not
    the name of something an array inherits, the [html] of the message
    is its [subject]: the subject rendered twice when there is one,
    and undefined, with no [subject] and no [text], when there is
    none. Nothing is thrown unless the engine throws on the subject.

    (The caches are arrays: for a name such as constructor that is not
    stored, [subjects[tmplName]] is not undefined but the function that
    arrays inherit under that name, which the engine refuses as a
    template. These names are left out here, see [JS.array_member].) *)
Theorem missing_body_html_is_subject ops callback w :
  let F := mustacheFormatter (opts w) in
  let view := compileData w ops in
  let subj := get (subjects w) (tmplName ops) in
  array_member (tmplName ops) = false →
  truthy (get (templates w) (tmplName ops)) = false →
  (truthy subj = false →
   getTemplate (Some ops) (Some callback) w
   = callback [VNull; VObj {[ "html" := VUndef ]}]
       (add_events w (language_log w ops)))
  ∧ (∀ s1 s2,
       truthy subj = true →
       engine F subj view = Ok s1 →
       engine F (VStr s1) view = Ok s2 →
       let message := <["html" := VStr s2]> {[ "subject" := VStr s2 ]} in
       getTemplate (Some ops) (Some callback) w
       = callback [VNull; VObj (with_text message)]
           (add_events w (language_log w ops
                          ++ [Render subj view; Render (VStr s1) view]
                          ++ text_log message)))
  ∧ (∀ e,
       truthy subj = true →
       engine F subj view = Throw e
       ∨ (∃ s1, engine F subj view = Ok s1
                ∧ engine F (VStr s1) view = Throw e) →
       ∃ evs, getTemplate (Some ops) (Some callback) w
              = (Throw e, add_events w evs)).
Proof.
  intros F view subj _ Hb. split; [|split].
  - intros Hs. apply getTemplate_run. by apply build_message_nothing.
  - intros s1 s2 Hs H1 H2 message. apply getTemplate_run.
    by apply build_message_subject.
  - intros e Hs He.
    destruct (build_message_subject_throws ops w e Hs He) as [evs Hevs].
    exists evs. by apply getTemplate_throws.
Qed.

(** *** [getTemplate] does not look at the objects of the caller *)

Definition heap_blind {A} (m : M A) : Prop :=
  ∀ w h, m (with_heap w h) = (fst (m w), with_heap (snd (m w)) h).

Lemma heap_blind_bind {A B} (m : M A) (f : A → M B) :
  heap_blind m → (∀ a, heap_blind (f a)) → heap_blind (m ≫= f).
Proof.
  intros Hm Hf w h. unfold mbind, M_bind. rewrite Hm.
  destruct (m w) as [[a|e|s] w']; cbn [fst snd]; [apply Hf|done..].
Qed.

Lemma heap_blind_ret {A} (a : A) : heap_blind (mret a).
Proof. done. Qed.

Lemma heap_blind_emit e : heap_blind (emit e).
Proof. done. Qed.

Lemma heap_blind_render t view : heap_blind (render t view).
Proof. done. Qed.

Lemma heap_blind_pick_language ops : heap_blind (pick_language ops).
Proof. intros w h. by rewrite !pick_language_run. Qed.

Lemma heap_blind_if {A} (b : bool) (m1 m2 : M A) :
  heap_blind m1 → heap_blind m2 → heap_blind (if b then m1 else m2).
Proof. by destruct b. Qed.

Lemma build_message_heap ops w h :
  build_message ops (with_heap w h)
  = (fst (build_message ops w), with_heap (snd (build_message ops w)) h).
Proof.
  unfold build_message.
  rewrite (bind_ok read _ w w w eq_refl).
  rewrite (bind_ok read _ (with_heap w h) _ _ eq_refl).
  cbn [with_heap templates subjects].
  apply heap_blind_bind; [apply heap_blind_pick_language|]. intros langObj0.
  apply heap_blind_bind.
  { apply heap_blind_if; [|apply heap_blind_ret].
    apply heap_blind_bind; [apply heap_blind_render|]. intros s.
    apply heap_blind_bind; [apply heap_blind_render|]. intros s'.
    apply heap_blind_ret. }
  intros message. apply heap_blind_bind.
  { apply heap_blind_if; [|apply heap_blind_ret].
    apply heap_blind_bind; [apply heap_blind_render|]. intros s.
    apply heap_blind_bind; [apply heap_blind_render|]. intros s'.
    apply heap_blind_ret. }
  intros message'. apply heap_blind_if; [|apply heap_blind_ret].
  apply heap_blind_bind; [apply heap_blind_emit|]. intros _.
  apply heap_blind_ret.
Qed.

(** *** [send], past its housekeeping *)

(** The fields of the message when it reaches the transport: without
    [transporter], and with the rendered [subject], [html] and [text]
    where the caller gave none. *)
Definition forwarded (message mailContent : gmap string value)
    : gmap string value :=
  let m := delete "transporter" message in
  let m := <["subject" := or (get m "subject") (get mailContent "subject")]> m in
  let m := <["html" := or (get m "html") (get mailContent "html")]> m in
  <["text" := or (get m "text") (get mailContent "text")]> m.

(** The transport options of a call: those of the message, else those
    of the instance. *)
Definition chosen_transporter (w : world) (message : gmap string value)
    : value :=
  or (get message "transporter") (transporter (opts w)).

Lemma json_copy_truthy v :
  truthy v = true →
  json_copy v = Ok (json_value v) ∧ truthy (json_value v) = true.
Proof. by destruct v as [| | |[]| |]. Qed.

Lemma fields_with_heap w h l : fields (with_heap w h) l = default ∅ (h !! l).
Proof. reflexivity. Qed.

Lemma store_run l k v w :
  store l k v w = (Ok (), with_heap w (<[l := <[k := v]> (fields w l)]> (heap w))).
Proof. reflexivity. Qed.

Lemma load_run l k w : load l k w = (Ok (get (fields w l) k), w).
Proof. reflexivity. Qed.

Lemma on_template_run l cfg callback mc w m :
  heap w !! l = Some m →
  on_template l cfg callback [VNull; VObj mc] w
  = (let m1 := <["subject" := or (get m "subject") (get mc "subject")]> m in
     let m2 := <["html" := or (get m1 "html") (get mc "html")]> m1 in
     let m3 := <["text" := or (get m2 "text") (get mc "text")]> m2 in
     let w' := with_heap (add_events w [CreateTransport cfg; SendMail l m3])
                 (<[l := m3]> (heap w)) in
     on_sent callback (deliver cfg m3).1 (deliver cfg m3).2 w').
Proof.
  intros Hl. unfold on_template. cbn [nth truthy].
  assert (Hf : fields w l = m) by (unfold fields; by rewrite Hl).
  rewrite (bind_ok _ _ _ _ _ (load_run _ _ w)).
  rewrite (bind_ok _ _ _ _ _ (store_run _ _ _ _)). rewrite Hf.
  cbn [prop].
  set (m1 := <["subject" := or (get m "subject") (get mc "subject")]> m).
  set (w1 := with_heap w (<[l:=m1]> (heap w))).
  assert (Hf1 : fields w1 l = m1).
  { unfold w1. rewrite fields_with_heap. by rewrite lookup_insert_eq. }
  rewrite (bind_ok _ _ _ _ _ (load_run _ _ w1)).
  rewrite (bind_ok _ _ _ _ _ (store_run _ _ _ _)). rewrite Hf1.
  set (m2 := <["html" := or (get m1 "html") (get mc "html")]> m1).
  set (w2 := with_heap w1 (<[l:=m2]> (heap w1))).
  assert (Hf2 : fields w2 l = m2).
  { unfold w2. rewrite fields_with_heap. by rewrite lookup_insert_eq. }
  rewrite (bind_ok _ _ _ _ _ (load_run _ _ w2)).
  rewrite (bind_ok _ _ _ _ _ (store_run _ _ _ _)). rewrite Hf2.
  set (m3 := <["text" := or (get m2 "text") (get mc "text")]> m2).
  set (w3 := with_heap w2 (<[l:=m3]> (heap w2))).
  assert (Hf3 : fields w3 l = m3).
  { unfold w3. rewrite fields_with_heap. by rewrite lookup_insert_eq. }
  rewrite (bind_ok (emit _) _ w3 _ _ eq_refl).
  rewrite (bind_ok read _ _ _ _ eq_refl).
  change (fields (add_events w3 [CreateTransport cfg]) l) with (fields w3 l).
  rewrite Hf3.
  rewrite (bind_ok (emit _) _ _ _ _ eq_refl).
  cbn zeta. destruct (deliver cfg m3) as [err info]. cbn [fst snd].
  f_equal. unfold w3, w2, w1, with_heap, add_events. cbn.
  rewrite <- app_assoc. f_equal. by rewrite !insert_insert_eq.
Qed.

Lemma send_run ops l callback w m mc evs :
  heap w !! l = Some m →
  truthy (get m "to") = true →
  truthy (chosen_transporter w m) = true →
  build_message ops w = (Ok mc, add_events w evs) →
  let cfg := json_value (chosen_transporter w m) in
  let m' := forwarded m mc in
  send (Some ops) (Some l) (Some callback) w
  = on_sent (Some callback) (deliver cfg m').1 (deliver cfg m').2
      (with_heap
         (add_events w (evs ++ [CreateTransport cfg; SendMail l m']))
         (<[l := m']> (heap w))).
Proof.
  intros Hl Hto Htr Hb cfg m'.
  assert (Hf : fields w l = m) by (unfold fields; by rewrite Hl).
  destruct (json_copy_truthy _ Htr) as [Hj Hcfg]. fold cfg in Hj, Hcfg.
  unfold send.
  rewrite (bind_ok _ _ _ _ _ (load_run _ _ w)). rewrite Hf, Hto.
  rewrite (bool_decide_eq_false_2 (Some callback = None)) by done.
  rewrite (bool_decide_eq_false_2 (Some ops = None)) by done.
  cbn [negb String.eqb].
  rewrite (bind_ok _ _ _ _ _ (load_run _ _ w)). rewrite Hf.
  rewrite (bind_ok read _ w w w eq_refl).
  fold (chosen_transporter w m). rewrite Hj.
  rewrite (bind_ok (lift (Ok cfg)) _ w cfg w eq_refl).
  set (h1 := <[l := delete "transporter" m]> (heap w)).
  assert (Hr : remove l "transporter" w = (Ok (), with_heap w h1)).
  { unfold remove. rewrite (bind_ok read _ w w w eq_refl). by rewrite Hf. }
  rewrite (bind_ok _ _ _ _ _ Hr). rewrite Hcfg. cbn [negb].
  assert (Hb1 : build_message ops (with_heap w h1)
                = (Ok mc, with_heap (add_events w evs) h1)).
  { by rewrite build_message_heap, Hb. }
  rewrite (getTemplate_run _ _ _ _ _ Hb1).
  rewrite (on_template_run l cfg (Some callback) mc _
             (delete "transporter" m)).
  2:{ cbn [heap with_heap]. unfold h1. by rewrite lookup_insert_eq. }
  cbn zeta. fold (forwarded m mc). fold m'.
  f_equal. unfold with_heap, add_events. cbn. unfold h1.
  by rewrite insert_insert_eq, <- app_assoc.
Qed.

Lemma forwarded_transporter m mc : forwarded m mc !! "transporter" = None.
Proof.
  unfold forwarded. cbn zeta.
  rewrite !lookup_insert_ne by done. apply lookup_delete_eq.
Qed.

Lemma forwarded_other m mc k :
  k ≠ "transporter" → k ≠ "subject" → k ≠ "html" → k ≠ "text" →
  forwarded m mc !! k = m !! k.
Proof.
  intros. unfold forwarded. cbn zeta.
  rewrite !lookup_insert_ne by done. by apply lookup_delete_ne.
Qed.

Lemma forwarded_fields m mc :
  forwarded m mc !! "subject"
  = Some (or (get m "subject") (get mc "subject"))
  ∧ forwarded m mc !! "html" = Some (or (get m "html") (get mc "html"))
  ∧ forwarded m mc !! "text" = Some (or (get m "text") (get mc "text")).
Proof.
  unfold forwarded, get. cbn zeta. repeat split.
  - rewrite !lookup_insert_ne by done. rewrite lookup_insert_eq.
    by rewrite lookup_delete_ne.
  - rewrite lookup_insert_ne by done. rewrite lookup_insert_eq.
    rewrite lookup_insert_ne by done. by rewrite lookup_delete_ne.
  - rewrite lookup_insert_eq. rewrite !lookup_insert_ne by done.
    by rewrite lookup_delete_ne.
Qed.

Lemma get_truthy_lookup (m : gmap string value) k :
  truthy (get m k) = true → m !! k = Some (get m k).
Proof. unfold get. by destruct (m !! k). Qed.

Lemma forwarded_same m mc :
  m !! "transporter" = None →
  truthy (get m "subject") = true →
  truthy (get m "html") = true →
  truthy (get m "text") = true →
  forwarded m mc = m.
Proof.
  intros Ht Hs Hh Hx. apply map_eq. intros k.
  destruct (forwarded_fields m mc) as (Es & Eh & Ex).
  destruct (decide (k = "transporter")) as [->|];
    [by rewrite forwarded_transporter|].
  destruct (decide (k = "subject")) as [->|].
  { rewrite Es. unfold or. rewrite Hs. by rewrite get_truthy_lookup. }
  destruct (decide (k = "html")) as [->|].
  { rewrite Eh. unfold or. rewrite Hh. by rewrite get_truthy_lookup. }
  destruct (decide (k = "text")) as [->|].
  { rewrite Ex. unfold or. rewrite Hx. by rewrite get_truthy_lookup. }
  by apply forwarded_other.
Qed.

Lemma forwarded_differs m mc :
  is_Some (m !! "transporter") ∨ m !! "subject" = None
  ∨ m !! "html" = None ∨ m !! "text" = None →
  forwarded m mc ≠ m.
Proof.
  destruct (forwarded_fields m mc) as (Es & Eh & Ex).
  intros [[v Hv]|[H|[H|H]]] E.
  - pose proof (forwarded_transporter m mc) as Ht. rewrite E in Ht. congruence.
  - rewrite E in Es. congruence.
  - rewrite E in Eh. congruence.
  - rewrite E in Ex. congruence.
Qed.


(** Claim C10. [send] works on the object of the caller itself: it deletes
    its [transporter], assigns [subject], [html] and [text] (the value
    of the caller where there is one, else the rendered one), and hands
    this very object to [sendMail]. Afterwards the object differs from
    what was passed in when it had a [transporter] or lacked one of the
    three fields, and is equal to it when it had no [transporter] and
    all three fields. *)
Theorem send_mutates_message ops l callback w m mc evs :
  heap w !! l = Some m →
  truthy (get m "to") = true →
  truthy (chosen_transporter w m) = true →
  build_message ops w = (Ok mc, add_events w evs) →
  let cfg := json_value (chosen_transporter w m) in
  let m' := forwarded m mc in
  let w' := with_heap
              (add_events w (evs ++ [CreateTransport cfg; SendMail l m']))
              (<[l := m']> (heap w)) in
  send (Some ops) (Some l) (Some callback) w
  = on_sent (Some callback) (deliver cfg m').1 (deliver cfg m').2 w'
  ∧ heap w' !! l = Some m'
  ∧ (∀ l', l' ≠ l → heap w' !! l' = heap w !! l')
  ∧ m' !! "transporter" = None
  ∧ m' !! "subject" = Some (or (get m "subject") (get mc "subject"))
  ∧ m' !! "html" = Some (or (get m "html") (get mc "html"))
  ∧ m' !! "text" = Some (or (get m "text") (get mc "text"))
  ∧ (∀ k, k ≠ "transporter" → k ≠ "subject" → k ≠ "html" → k ≠ "text" →
          m' !! k = m !! k)
  ∧ (is_Some (m !! "transporter") ∨ m !! "subject" = None
     ∨ m !! "html" = None ∨ m !! "text" = None → m' ≠ m)
  ∧ (m !! "transporter" = None → truthy (get m "subject") = true →
     truthy (get m "html") = true → truthy (get m "text") = true →
     m' = m).
Proof.
  intros Hl Hto Htr Hb cfg m' w'.
  destruct (forwarded_fields m mc) as (Es & Eh & Ex).
  split; [by apply send_run|].
  split; [apply lookup_insert_eq|].
  split; [intros l' Hne; by apply lookup_insert_ne|].
  split; [apply forwarded_transporter|].
  do 3 (split; [done|]).
  split; [by apply forwarded_other|].
  split; [apply forwarded_differs|apply forwarded_same].
Qed.

End Mailer.

(** *** Two passes resolve two levels of reference *)

Section Chain.

Variable show_number : number → string.
Variable htmlToText : value → string.

Definition mustache : gmap string Wax.formatter → value → value → outcome string :=
  fun Formatters => Mustache.render Formatters show_number.

Definition ref_T2 : string := "{{{templates.T2}}}".
Definition ref_T3 : string := "{{{templates.T3}}}".

Lemma view_templates w ops k :
  Mustache.walk (compileData w ops) ["templates"; k] = get (templates w) k.
Proof.
  unfold compileData. cbn [Mustache.walk Mustache.nullish prop].
  unfold get at 2. rewrite !lookup_insert_ne by done.
  by rewrite lookup_singleton_eq.
Qed.

(** A template that is one unescaped reference to another template
    renders to the text of that template as it is stored. *)
Lemma render_reference F w ops (tag k text : string) :
  Mustache.parseTemplate (S (String.length tag)) tag
  = Ok [Mustache.Text ""; Mustache.Unescaped ("templates." +:+ k)] →
  JSFacts.lacks pipe ("templates." +:+ k) = true →
  JS.trim ("templates." +:+ k) = "templates." +:+ k →
  JS.split dot ("templates." +:+ k) = ["templates"; k] →
  templates w !! k = Some (VStr text) →
  mustache F (VStr tag) (compileData w ops) = Ok text.
Proof.
  intros Hparse Hpipe Htrim Hsplit Hk. unfold mustache, Mustache.render.
  rewrite Hparse. cbn [mbind outcome_bind Mustache.renderTokens
                        Mustache.render_token].
  unfold Wax.lookup. rewrite (Wax.parseExpression_plain _ _ _ _ Hpipe).
  rewrite Htrim. cbn [mbind outcome_bind].
  assert (Mustache.lookup0 (compileData w ops) ("templates." +:+ k)
          = VStr text) as ->.
  { unfold Mustache.lookup0. rewrite Hsplit, view_templates.
    unfold get. rewrite Hk. reflexivity. }
  cbn. by rewrite Wax.app_nil_r.
Qed.

Lemma getTemplate_chain ops callback w t3 :
  tmplName ops = "T1" →
  truthy (get (subjects w) "T1") = false →
  templates w !! "T1" = Some (VStr ref_T2) →
  templates w !! "T2" = Some (VStr ref_T3) →
  templates w !! "T3" = Some (VStr t3) →
  let view := compileData w ops in
  let message : gmap string value := {[ "html" := VStr t3 ]} in
  getTemplate mustache htmlToText (Some ops) (Some callback) w
  = callback [VNull; VObj (with_text htmlToText message)]
      (add_events w (language_log w ops
                     ++ [Render (VStr ref_T2) view;
                         Render (VStr ref_T3) view]
                     ++ text_log message)).
Proof.
  intros Hn Hs H1 H2 H3 view message. apply getTemplate_run.
  assert (Hb : get (templates w) (tmplName ops) = VStr ref_T2).
  { rewrite Hn. unfold get. by rewrite H1. }
  pose proof (build_message_body mustache htmlToText ops w ref_T3 t3) as B.
  cbn zeta in B. rewrite Hb, Hn in B. apply B; try done.
  - by apply (render_reference _ w ops ref_T2 "T2" ref_T3).
  - by apply (render_reference _ w ops ref_T3 "T3" t3).
Qed.

Definition esc_T2 : string := "{{ templates.T2 }}".
Definition esc_T3 : string := "{{ templates.T3 }}".

(** The same with an escaped reference: the text of the template, with
    the characters of HTML replaced by their entities. *)
Lemma render_reference_escaped F w ops (tag k text : string) :
  Mustache.parseTemplate (S (String.length tag)) tag
  = Ok [Mustache.Text ""; Mustache.Name ("templates." +:+ k)] →
  JSFacts.lacks pipe ("templates." +:+ k) = true →
  JS.trim ("templates." +:+ k) = "templates." +:+ k →
  JS.split dot ("templates." +:+ k) = ["templates"; k] →
  templates w !! k = Some (VStr text) →
  mustache F (VStr tag) (compileData w ops) = Ok (Mustache.escapeHtml text).
Proof.
  intros Hparse Hpipe Htrim Hsplit Hk. unfold mustache, Mustache.render.
  rewrite Hparse. cbn [mbind outcome_bind Mustache.renderTokens
                        Mustache.render_token].
  unfold Wax.lookup. rewrite (Wax.parseExpression_plain _ _ _ _ Hpipe).
  rewrite Htrim. cbn [mbind outcome_bind].
  assert (Mustache.lookup0 (compileData w ops) ("templates." +:+ k)
          = VStr text) as ->.
  { unfold Mustache.lookup0. rewrite Hsplit, view_templates.
    unfold get. rewrite Hk. reflexivity. }
  cbn [Mustache.nullish Mustache.to_string String.append].
  by rewrite Wax.app_nil_r.
Qed.

Lemma getTemplate_chain_escaped ops callback w t3 :
  tmplName ops = "T1" →
  truthy (get (subjects w) "T1") = false →
  templates w !! "T1" = Some (VStr esc_T2) →
  templates w !! "T2" = Some (VStr esc_T3) →
  templates w !! "T3" = Some (VStr t3) →
  let view := compileData w ops in
  let message : gmap string value :=
    {[ "html" := VStr (Mustache.escapeHtml t3) ]} in
  getTemplate mustache htmlToText (Some ops) (Some callback) w
  = callback [VNull; VObj (with_text htmlToText message)]
      (add_events w (language_log w ops
                     ++ [Render (VStr esc_T2) view;
                         Render (VStr esc_T3) view]
                     ++ text_log message)).
Proof.
  intros Hn Hs H1 H2 H3 view message. apply getTemplate_run.
  assert (Hb : get (templates w) (tmplName ops) = VStr esc_T2).
  { rewrite Hn. unfold get. by rewrite H1. }
  pose proof (build_message_body mustache htmlToText ops w esc_T3
                (Mustache.escapeHtml t3)) as B.
  cbn zeta in B. rewrite Hb, Hn in B. apply B; try done.
  - by apply (render_reference_escaped _ w ops esc_T2 "T2" esc_T3).
  - by apply (render_reference_escaped _ w ops esc_T3 "T3" t3).
Qed.

End Chain.

(** Claim C1. [getTemplate] renders a stored subject through the engine and
    renders the resulting string a second time through the same engine
    against the same view, and likewise the body when there is one: these
    are all the calls of the engine, in this order. Hence a body that
    refers to a template that refers to a third template resolves both
    references, and the text of the third template is in the output as it
    is stored (with the characters of HTML escaped when the references
    are escaped ones), its own tags unresolved. *)
Theorem two_pass_rendering :
  (∀ engine htmlToText ops callback w s1 s2,
     let F := mustacheFormatter (opts w) in
     let view := compileData w ops in
     let subj := get (subjects w) (tmplName ops) in
     let body := get (templates w) (tmplName ops) in
     truthy subj = true →
     engine F subj view = Ok s1 →
     engine F (VStr s1) view = Ok s2 →
     (truthy body = false →
      let message := <["html" := VStr s2]> {[ "subject" := VStr s2 ]} in
      getTemplate engine htmlToText (Some ops) (Some callback) w
      = callback [VNull; VObj (with_text htmlToText message)]
          (add_events w (language_log w ops
                         ++ [Render subj view; Render (VStr s1) view]
                         ++ text_log message)))
     ∧ (∀ h1 h2,
          truthy body = true →
          engine F body view = Ok h1 →
          engine F (VStr h1) view = Ok h2 →
          let message := <["html" := VStr h2]> {[ "subject" := VStr s2 ]} in
          getTemplate engine htmlToText (Some ops) (Some callback) w
          = callback [VNull; VObj (with_text htmlToText message)]
              (add_events w (language_log w ops
                             ++ [Render subj view; Render (VStr s1) view;
                                 Render body view; Render (VStr h1) view]
                             ++ text_log message))))
  ∧ (∀ show_number htmlToText ops callback w t3,
       tmplName ops = "T1" →
       truthy (get (subjects w) "T1") = false →
       templates w !! "T1" = Some (VStr ref_T2) →
       templates w !! "T2" = Some (VStr ref_T3) →
       templates w !! "T3" = Some (VStr t3) →
       let view := compileData w ops in
       let message : gmap string value := {[ "html" := VStr t3 ]} in
     getTemplate (mustache show_number) htmlToText (Some ops)
       (Some callback) w
     = callback [VNull; VObj (with_text htmlToText message)]
         (add_events w (language_log w ops
                        ++ [Render (VStr ref_T2) view;
                            Render (VStr ref_T3) view]
                        ++ text_log message)))
∧ (∀ show_number htmlToText ops callback w t3,
     tmplName ops = "T1" →
     truthy (get (subjects w) "T1") = false →
     templates w !! "T1" = Some (VStr esc_T2) →
     templates w !! "T2" = Some (VStr esc_T3) →
     templates w !! "T3" = Some (VStr t3) →
     let view := compileData w ops in
     let message : gmap string value :=
       {[ "html" := VStr (Mustache.escapeHtml t3) ]} in
     getTemplate (mustache show_number) htmlToText (Some ops)
       (Some callback) w
     = callback [VNull; VObj (with_text htmlToText message)]
         (add_events w (language_log w ops
                        ++ [Render (VStr esc_T2) view;
                            Render (VStr esc_T3) view]
                        ++ text_log message))).
Proof.
  split; [|split].
  - intros. by apply getTemplate_two_pass.
  - intros. by apply getTemplate_chain.
  - intros. by apply getTemplate_chain_escaped.
Qed.

(** *** A small instance *)

Definition show0 : number → string := fun _ => "0".
Definition text0 : value → string := fun _ => "plain text".
Definition deliver0 : value → gmap string value → value * value :=
  fun _ _ => (VNull, VStr "250 OK").

Definition demo_opts : options :=
  {| defaultLanguage := Some "en";
     transporter := VObj {[ "host" := VStr "smtp.example.org" ]};
     mustacheFormatter := ∅ |}.

Definition demo : world :=
  {| opts := demo_opts;
     translations := {[ "en" := VObj {[ "hello" := VStr "Hello {{data.name}}" ]} ]};
     templates := {[ "T1" := VStr ref_T2;
                     "T2" := VStr ref_T3;
                     "T3" := VStr "see {{{templates.T4}}}";
                     "T4" := VStr "the fourth" ]};
     subjects := {[ "welcome" := VStr "{{{lang.hello}}}";
                    "broken" := VStr "{{ oops" ]};
     heap := {[ 1%positive :=
                  {[ "to" := VStr "ann@example.org";
                     "transporter" := VObj {[ "host" := VStr "relay.example.org" ]} ]};
                2%positive :=
                  {[ "to" := VStr "bob@example.org";
                     "subject" := VStr "own subject";
                     "html" := VStr "own html";
                     "text" := VStr "own text" ]};
                3%positive := {[ "subject" := VStr "nobody" ]} ]};
     trace := [] |}.

Definition request (n : string) : templateOps :=
  {| language := None; tmplName := n;
     data := VObj {[ "name" := VStr "Ann" ]} |}.

Example welcome_subject :
  getTemplate (mustache show0) text0 (Some (request "welcome"))
    (Some reported) demo
  = (Ok (),
     add_events demo
       [Render (VStr "{{{lang.hello}}}") (compileData demo (request "welcome"));
        Render (VStr "Hello {{data.name}}") (compileData demo (request "welcome"));
        HtmlToText (VStr "Hello Ann");
        Callback [VNull;
                  VObj {[ "subject" := VStr "Hello Ann";
                          "html" := VStr "Hello Ann";
                          "text" := VStr "plain text" ]}]]).
Proof. vm_compute. reflexivity. Qed.

(** An instance of [two_pass_rendering]. *)
Lemma two_pass_rendering_witness :
  getTemplate (mustache show0) text0 (Some (request "welcome"))
    (Some reported) demo
  = reported
      [VNull;
       VObj (with_text text0
               (<["html" := VStr "Hello Ann"]>
                  {[ "subject" := VStr "Hello Ann" ]}))]
      (add_events demo
         (language_log demo (request "welcome")
          ++ [Render (VStr "{{{lang.hello}}}")
                (compileData demo (request "welcome"));
              Render (VStr "Hello {{data.name}}")
                (compileData demo (request "welcome"))]
          ++ text_log (<["html" := VStr "Hello Ann"]>
                         {[ "subject" := VStr "Hello Ann" ]})))
  ∧ getTemplate (mustache show0) text0 (Some (request "T1"))
      (Some reported) demo
    = reported
        [VNull;
         VObj (with_text text0 {[ "html" := VStr "see {{{templates.T4}}}" ]})]
        (add_events demo
           (language_log demo (request "T1")
            ++ [Render (VStr ref_T2) (compileData demo (request "T1"));
                Render (VStr ref_T3) (compileData demo (request "T1"))]
            ++ text_log ({[ "html" := VStr "see {{{templates.T4}}}" ]}
                         : gmap string value))).
Proof.
  split.
  - apply (proj1 (proj1 two_pass_rendering (mustache show0) text0
                    (request "welcome") reported demo
                    "Hello {{data.name}}" "Hello Ann"
                    eq_refl eq_refl eq_refl)).
    reflexivity.
  - apply (proj1 (proj2 two_pass_rendering) show0 text0 (request "T1")
             reported demo "see {{{templates.T4}}}"); reflexivity.
Defined.

(** Against claim C5 as the specification states it: the [html] of an
    unknown template without subject is not the empty string, it is
    undefined. *)
Lemma unknown_template_html_undefined :
  getTemplate (mustache show0) text0 (Some (request "nope"))
    (Some reported) demo
  = (Ok (),
     add_events demo [Callback [VNull; VObj {[ "html" := VUndef ]}]])
  ∧ get ({[ "html" := VUndef ]} : gmap string value) "html" ≠ VStr "".
Proof. split; [vm_compute; reflexivity|discriminate]. Qed.

(** An instance of [missing_body_html_is_subject]. *)
Lemma missing_body_witness :
  (truthy (get (subjects demo) "welcome") = false →
   getTemplate (mustache show0) text0 (Some (request "welcome"))
     (Some reported) demo
   = reported [VNull; VObj {[ "html" := VUndef ]}]
       (add_events demo (language_log demo (request "welcome"))))
  ∧ (∀ s1 s2,
       truthy (get (subjects demo) "welcome") = true →
       mustache show0 ∅ (get (subjects demo) "welcome")
         (compileData demo (request "welcome")) = Ok s1 →
       mustache show0 ∅ (VStr s1) (compileData demo (request "welcome"))
       = Ok s2 →
       getTemplate (mustache show0) text0 (Some (request "welcome"))
         (Some reported) demo
       = reported
           [VNull;
            VObj (with_text text0
                    (<["html" := VStr s2]> {[ "subject" := VStr s2 ]}))]
           (add_events demo
              (language_log demo (request "welcome")
               ++ [Render (get (subjects demo) "welcome")
                     (compileData demo (request "welcome"));
                   Render (VStr s1) (compileData demo (request "welcome"))]
               ++ text_log (<["html" := VStr s2]>
                              {[ "subject" := VStr s2 ]}))))
  ∧ (∀ e,
       truthy (get (subjects demo) "welcome") = true →
       mustache show0 ∅ (get (subjects demo) "welcome")
         (compileData demo (request "welcome")) = Throw e
       ∨ (∃ s1, mustache show0 ∅ (get (subjects demo) "welcome")
                  (compileData demo (request "welcome")) = Ok s1
                ∧ mustache show0 ∅ (VStr s1)
                    (compileData demo (request "welcome")) = Throw e) →
       ∃ evs, getTemplate (mustache show0) text0 (Some (request "welcome"))
                (Some reported) demo
              = (Throw e, add_events demo evs)).
Proof.
  apply (missing_body_html_is_subject (mustache show0) text0
           (request "welcome") reported demo).
  - reflexivity.
  - reflexivity.
Defined.

(** Against claim C3 as the specification states it: a reload that
    fetched one template leaves the templates of earlier loads in the
    cache, which is therefore not the set of fetched entries. *)
Lemma reload_keeps_unfetched_entries :
  templates
    (getTemplates None VNull
       (Some [{| name := "T9"; text := VStr "new"; subject := VUndef |}])
       demo).2
  !! "T4" = Some (VStr "the fourth")
  ∧ (list_to_map [("T9", VStr "new")] : gmap string value) !! "T4" = None.
Proof. split; vm_compute; reflexivity. Qed.

(** An instance of [reload_merges_into_cache]. *)
Lemma reload_merges_witness :
  let docs := Some [{| name := "T9"; text := VStr "new"; subject := VUndef |}] in
  let tl := Some [{| lang := "de"; keys := VObj ∅ |}] in
  getTemplates None VNull docs demo
  = (Ok (),
     {| opts := opts demo; translations := translations demo;
        templates := merge name text (templates demo) (default [] docs);
        subjects := merge name subject (subjects demo) (default [] docs);
        heap := heap demo; trace := trace demo |})
  ∧ getTranslations None VNull tl demo
    = (Ok (),
       {| opts := opts demo;
          translations := merge lang keys (translations demo) (default [] tl);
          templates := templates demo; subjects := subjects demo;
          heap := heap demo; trace := trace demo |})
  ∧ (∀ k, k ∉ map name (default [] docs) →
       merge name text (templates demo) (default [] docs) !! k
       = templates demo !! k
       ∧ merge name subject (subjects demo) (default [] docs) !! k
         = subjects demo !! k)
  ∧ (∀ k, k ∉ map lang (default [] tl) →
       merge lang keys (translations demo) (default [] tl) !! k
       = translations demo !! k)
  ∧ (∀ l1 d l2, default [] docs = (l1 ++ d :: l2)%list →
       name d ∉ map name l2 →
       merge name text (templates demo) (default [] docs) !! name d
       = Some (text d)
       ∧ merge name subject (subjects demo) (default [] docs) !! name d
         = Some (subject d))
  ∧ (∀ l1 t l2, default [] tl = (l1 ++ t :: l2)%list →
       lang t ∉ map lang l2 →
       merge lang keys (translations demo) (default [] tl) !! lang t
       = Some (keys t)).
Proof.
  intros docs tl.
  apply (reload_merges_into_cache None VNull docs tl demo).
  - reflexivity.
  - repeat constructor.
  - repeat constructor.
Defined.

(** An instance of [reload_failure_throws]. *)
Lemma reload_failure_witness :
  getTranslations None (VStr "store down") None demo
  = (Throw not_a_function,
     add_events demo [Log "error" [VStr "store down"]])
  ∧ getTemplates None (VStr "store down") None demo
    = (Throw not_a_function,
       add_events demo [Log "error" [VStr "store down"]])
  ∧ reloadTemplates (VStr "store down") None VNull None demo
    = task (getTemplates None VNull None)
        (add_events demo [Log "error" [VStr "store down"];
                          Uncaught not_a_function]).
Proof.
  apply (reload_failure_throws (VStr "store down") None VNull None demo).
  reflexivity.
Defined.

(** An instance of [send_without_recipient]. *)
Lemma send_without_recipient_witness :
  (∀ callback,
     send (mustache show0) text0 deliver0 (Some (request "welcome"))
       (Some 3%positive) (Some callback) demo
     = callback [VStr no_recipient]
         (add_events demo [Log "error" [VStr no_recipient]]))
  ∧ send (mustache show0) text0 deliver0 (Some (request "welcome"))
      (Some 3%positive) None demo
    = (Throw not_a_function,
       add_events demo [Log "error" [VStr "no callback defined"]]).
Proof.
  apply (send_without_recipient (mustache show0) text0 deliver0
           (Some (request "welcome")) (Some 3%positive) demo).
  reflexivity.
Defined.

Definition welcome_content : gmap string value :=
  {[ "subject" := VStr "Hello Ann";
     "html" := VStr "Hello Ann";
     "text" := VStr "plain text" ]}.

Definition welcome_events : list event :=
  [Render (VStr "{{{lang.hello}}}") (compileData demo (request "welcome"));
   Render (VStr "Hello {{data.name}}") (compileData demo (request "welcome"));
   HtmlToText (VStr "Hello Ann")].

Definition ann : gmap string value :=
  {[ "to" := VStr "ann@example.org";
     "transporter" := VObj {[ "host" := VStr "relay.example.org" ]} ]}.

Definition bob : gmap string value :=
  {[ "to" := VStr "bob@example.org";
     "subject" := VStr "own subject";
     "html" := VStr "own html";
     "text" := VStr "own text" ]}.

Lemma welcome_built :
  build_message (mustache show0) text0 (request "welcome") demo
  = (Ok welcome_content, add_events demo welcome_events).
Proof. vm_compute. reflexivity. Qed.


(** Against claim C10 as the specification states it: for a message
    without [transporter] that has its own [subject], [html] and [text]
    the mail is sent and the object of the caller is as it was. *)
Lemma send_leaves_complete_message :
  send (mustache show0) text0 deliver0 (Some (request "welcome"))
    (Some 2%positive) (Some reported) demo
  = (Ok (),
     add_events demo
       (welcome_events
        ++ [CreateTransport (VObj {[ "host" := VStr "smtp.example.org" ]});
            SendMail 2%positive bob;
            Log "success" [VStr "successfull sent mail"];
            Callback [VNull; VStr "250 OK"]]))
  ∧ heap demo !! 2%positive = Some bob.
Proof. split; vm_compute; reflexivity. Qed.

(** An instance of [send_mutates_message]. *)
Lemma send_mutates_witness :
  let cfg := json_value (chosen_transporter demo ann) in
  let m' := forwarded ann welcome_content in
  let w' := with_heap
              (add_events demo
                 (welcome_events
                  ++ [CreateTransport cfg; SendMail 1%positive m']))
              (<[1%positive := m']> (heap demo)) in
  send (mustache show0) text0 deliver0 (Some (request "welcome"))
    (Some 1%positive) (Some reported) demo
  = on_sent (Some reported) (deliver0 cfg m').1 (deliver0 cfg m').2 w'
  ∧ heap w' !! 1%positive = Some m'
  ∧ (∀ l', l' ≠ 1%positive → heap w' !! l' = heap demo !! l')
  ∧ m' !! "transporter" = None
  ∧ m' !! "subject"
    = Some (or (get ann "subject") (get welcome_content "subject"))
  ∧ m' !! "html" = Some (or (get ann "html") (get welcome_content "html"))
  ∧ m' !! "text" = Some (or (get ann "text") (get welcome_content "text"))
  ∧ (∀ k, k ≠ "transporter" → k ≠ "subject" → k ≠ "html" → k ≠ "text" →
          m' !! k = ann !! k)
  ∧ (is_Some (ann !! "transporter") ∨ ann !! "subject" = None
     ∨ ann !! "html" = None ∨ ann !! "text" = None → m' ≠ ann)
  ∧ (ann !! "transporter" = None → truthy (get ann "subject") = true →
     truthy (get ann "html") = true → truthy (get ann "text") = true →
     m' = ann).
Proof.
  intros cfg m' w'.
  apply (send_mutates_message (mustache show0) text0 deliver0
           (request "welcome") 1%positive reported demo ann
           welcome_content welcome_events).
  - reflexivity.
  - reflexivity.
  - reflexivity.
  - exact welcome_built.
Defined.

End Mailer.

(** ** More on the filter pipeline *)

Module WaxChain.

Import JS JSFacts Wax.

Section Pipeline.

Variable Formatters : gmap string formatter.
Variable lookup0 : string → value.

(** A chain of formatters, each called on what the one before it
    returned. *)
Fixpoint run_chain (v : value) (fs : list formatter) : outcome value :=
  match fs with
  | [] => Ok v
  | f :: fs' => v' ← f [v]; run_chain v' fs'
  end.

(** A segment that is a registered filter name, without parameters. *)
Definition names (fltr : string) (f : formatter) : Prop :=
  fltr ≠ "" ∧ lacks colon fltr = true ∧ lacks pipe fltr = true
  ∧ Formatters !! trim fltr = Some f.

Lemma all_impl (p q : ascii → bool) s :
  (∀ c, p c = true → q c = true) → all p s = true → all q s = true.
Proof.
  intros Hpq. induction s as [|c s IH]; [done|]. cbn.
  intros [Hc Hs]%andb_prop. by rewrite (Hpq c Hc), IH.
Qed.

Lemma space_not c x : is_space x = false → is_space c = true →
  negb (Ascii.eqb c x) = true.
Proof. intros Hx Hc. apply negb_true_iff, Ascii.eqb_neq. by intros ->; congruence. Qed.

Lemma param_matches_none fltr :
  lacks colon fltr = true → param_matches fltr = [].
Proof.
  intros H. unfold param_matches.
  destruct (String.length fltr); [done|]. cbn [params_loop].
  by rewrite paramsExp_none.
Qed.

Lemma applyFilter_plain expr fltr f lk :
  fltr ≠ "" → lacks colon fltr = true →
  Formatters !! trim fltr = Some f →
  applyFilter Formatters expr fltr lk = f [expr].
Proof.
  intros Hne Hc Hf. unfold applyFilter.
  destruct (filterExp_name fltr "" Hne Hc eq_refl) as (g & Hg & Ht).
  rewrite app_nil_r in Hg. rewrite Hg, Ht, Hf.
  by rewrite param_matches_none.
Qed.

Lemma apply_all_chain lk expr fltrs fs :
  Forall2 names fltrs fs →
  apply_all Formatters lk expr fltrs = run_chain expr fs.
Proof.
  intros H. revert expr.
  induction H as [|fltr f fltrs fs (Hne & Hc & _ & Hf) _ IH]; intros expr;
    [done|].
  cbn [apply_all run_chain]. rewrite (applyFilter_plain _ _ f) by done.
  destruct (f [expr]); cbn [mbind outcome_bind]; [apply IH|done..].
Qed.

(** Property X1.
    Filters apply from left to right: the first gets the value of the
    path, each next one what the one before it returned, and the first
    that throws ends the evaluation. *)
Theorem filters_apply_left_to_right path fltrs fs :
  lacks pipe path = true →
  Forall2 names fltrs fs →
  lookup Formatters lookup0 (join pipe (path :: fltrs))
  = run_chain (lookup0 (trim path)) fs.
Proof.
  intros Hp H. unfold lookup. rewrite parseExpression_S.
  rewrite split_join; [|done|].
  - cbn [hd tl]. by apply apply_all_chain.
  - constructor; [done|]. clear -H.
    induction H as [|? ? ? ? (_ & _ & Hp & _)]; by constructor.
Qed.

(** Property X2.
    A segment of white space only names the filter with the empty name:
    it is skipped when no formatter is registered under that name. *)
Theorem blank_segment_is_skipped path before blank after :
  blank ≠ "" → all is_space blank = true →
  Formatters !! "" = None →
  Forall (fun s => lacks pipe s = true) (path :: before ++ after) →
  lookup Formatters lookup0 (join pipe (path :: before ++ blank :: after))
  = lookup Formatters lookup0 (join pipe (path :: before ++ after)).
Proof.
  intros Hne Hsp HF Hall.
  assert (Hc : lacks colon blank = true).
  { eapply all_impl; [|exact Hsp]. intros c. by apply space_not. }
  assert (Hp : lacks pipe blank = true).
  { eapply all_impl; [|exact Hsp]. intros c. by apply space_not. }
  assert (Ht : trim blank = "").
  { unfold trim, trim_start. by rewrite drop_while_id. }
  assert (Hpass : ∀ expr lk, applyFilter Formatters expr blank lk = Ok expr).
  { intros expr lk. unfold applyFilter.
    destruct (filterExp_name blank "" Hne Hc eq_refl) as (g & Hg & Hgt).
    rewrite app_nil_r in Hg. rewrite Hg, Hgt, Ht, HF.
    by rewrite param_matches_none. }
  inversion Hall as [|? ? Hpath Hrest]; subst.
  apply Forall_app in Hrest as [Hb Ha].
  unfold lookup. rewrite !parseExpression_S.
  rewrite !split_join; [|done|by constructor; [|apply Forall_app]|done
                        |by constructor; [|apply Forall_app; split;
                                           [|constructor]]].
  cbn [hd tl]. rewrite !apply_all_app.
  destruct (apply_all _ _ _ before); cbn [mbind outcome_bind]; [|done..].
  cbn [apply_all]. by rewrite Hpass.
Qed.

(** *** Filters that are not registered *)









(** A segment that starts with a colon has no filter name for
    [filterExp] to match: its evaluation throws as that of the empty
    segment does. *)
Lemma nameless_segment_throws expr r lk :
  applyFilter Formatters expr (String colon r) lk = Throw null_match.
Proof. reflexivity. Qed.


(** *** Parameters with colons, and parameters left empty *)

Lemma mapM_params expr fltr lk g f :
  filterExp fltr = Some g → Formatters !! trim g = Some f →
  applyFilter Formatters expr fltr lk
  = (args ← mapM (fun p => parseParam p lk) (map trim (param_matches fltr));
     f (expr :: args)).
Proof.
  intros Hg Hf. unfold applyFilter. rewrite Hg, Hf.
  by rewrite (mapM_outcome_map (fun p => parseParam p lk) trim).
Qed.

(** Property X3.
    A quoted parameter is one parameter whatever colons it holds, and
    the formatter gets the text between the quotes. *)
Theorem quoted_parameter_keeps_colons expr name q inner f lk :
  name ≠ "" → lacks colon name = true →
  is_quote q = true → lacks q inner = true → one_line inner = true →
  Formatters !! trim name = Some f →
  applyFilter Formatters expr
    (name +:+ String colon (String q (inner +:+ String q ""))) lk
  = f [expr; VStr inner].
Proof.
  intros Hne Hc Hq Hin Hl Hf.
  set (t := String q (inner +:+ String q "")).
  assert (Hqs : is_space q = false) by by apply quote_not_space.
  assert (Ht : param_text t = true).
  { unfold param_text, t. cbn [drop_while]. rewrite Hqs, Hq.
    assert (Hstop : negb (Ascii.eqb q q) = false)
      by (by rewrite Ascii.eqb_refl).
    by rewrite (drop_while_app_stop _ inner q "" Hin Hstop). }
  assert (Htrim : trim t = t).
  { unfold trim, trim_start, t. cbn [drop_while]. rewrite Hqs.
    apply (trim_end_keeps _ q); [|done].
    change (String q (inner +:+ String q ""))
      with (String q inner +:+ String q "").
    apply last_app_single. }
  destruct (filterExp_name name (params_text [t]) Hne Hc eq_refl)
    as (g & Hg & Hgt).
  assert (Ep : params_text [t] = String colon t).
  { cbn. by rewrite app_nil_r. }
  rewrite Ep in Hg. rewrite <- Hgt in Hf.
  rewrite (mapM_params _ _ _ g f Hg Hf).
  rewrite <- Ep, (param_matches_texts name [t] Hc) by (by constructor).
  cbn [map mapM]. rewrite Htrim.
  rewrite (parseParam_literal t (Ok (VStr inner))); [done|].
  by constructor.
Qed.

Lemma paramsExp_at_empty r :
  paramsExp_at (String colon (String colon r)) = None.
Proof. reflexivity. Qed.

Lemma paramsExp_double_colon name r :
  lacks colon name = true →
  paramsExp (name +:+ String colon (String colon r))
  = paramsExp (name +:+ String colon r).
Proof.
  intros Hc. rewrite !paramsExp_skip by done.
  change (paramsExp (String colon (String colon r)))
    with (match paramsExp_at (String colon (String colon r)) with
          | Some x => Some x
          | None => paramsExp (String colon r)
          end).
  by rewrite paramsExp_at_empty.
Qed.

Lemma param_matches_double_colon name r :
  lacks colon name = true →
  param_matches (name +:+ String colon (String colon r))
  = param_matches (name +:+ String colon r).
Proof.
  intros Hc. unfold param_matches.
  rewrite (params_loop_fuel
             (String.length (name +:+ String colon r))
             (S (String.length (name +:+ String colon r)))) by lia.
  assert (String.length (name +:+ String colon (String colon r))
          = S (String.length (name +:+ String colon r))) as ->.
  { rewrite !length_app. cbn. lia. }
  cbn [params_loop]. by rewrite paramsExp_double_colon.
Qed.

Lemma filterExp_double_colon name r :
  lacks colon name = true →
  filterExp (name +:+ String colon (String colon r))
  = filterExp (name +:+ String colon r).
Proof.
  intros Hc. unfold filterExp.
  destruct (drop_while is_space name) as [|c s] eqn:E.
  - assert (Hws : all is_space name = true).
    { clear -E. induction name as [|c n IH]; [done|]. cbn in *.
      destruct (is_space c); [by apply IH|done]. }
    by rewrite !take_while_app_stops, !drop_while_app_stops.
  - rewrite !(drop_while_app_found _ _ _ _ _ E).
    rewrite !(take_while_app_found _ _ _ _ _ E).
    assert (Hlc : lacks colon (String c s) = true).
    { rewrite <- E. by apply all_drop_while. }
    change (String c (s +:+ String colon (String colon r)))
      with (String c s +:+ String colon (String colon r)).
    change (String c (s +:+ String colon r))
      with (String c s +:+ String colon r).
    by rewrite !take_while_app_stops.
Qed.

(** Property X4.
    A parameter left empty (two colons in a row) is not passed on: the
    filter is applied as if one of the two colons were not there, and the
    parameters behind it move up. *)
Theorem empty_parameter_is_dropped expr name r lk :
  lacks colon name = true →
  applyFilter Formatters expr (name +:+ String colon (String colon r)) lk
  = applyFilter Formatters expr (name +:+ String colon r) lk.
Proof.
  intros Hc. unfold applyFilter.
  by rewrite filterExp_double_colon, param_matches_double_colon.
Qed.

End Pipeline.

Definition upper_tag : formatter :=
  fun args => match args with
              | VStr s :: _ => Ok (VStr ("<" +:+ s +:+ ">"))
              | _ => Throw (TypeError "not a string")
              end.

Definition join_args : formatter :=
  fun args => Ok (VObj (list_to_map (zip ["0"; "1"; "2"; "3"] args))).


Example unknown_filter_example :
  lookup {[ "tag" := upper_tag ]} (fun p => VStr p)
    "data.name | tag | missingFilter:1 |tag"
  = Ok (VStr "<<data.name>>")
  ∧ lookup {[ "tag" := upper_tag ]} (fun p => VStr p) "data.name |:1"
    = Throw null_match.
Proof. split; reflexivity. Qed.

(** An instance of [filters_apply_left_to_right]. *)
Lemma filters_apply_witness :
  lookup {[ "tag" := upper_tag ]} (fun p => VStr p)
    (join pipe ["data.name "; " tag "; "tag"])
  = run_chain (VStr "data.name") [upper_tag; upper_tag].
Proof.
  apply (filters_apply_left_to_right {[ "tag" := upper_tag ]} (fun p => VStr p)
           "data.name " [" tag "; "tag"] [upper_tag; upper_tag]).
  - reflexivity.
  - repeat (constructor;
            [split; [discriminate|repeat split; reflexivity]|]).
    constructor.
Defined.

(** An instance of [blank_segment_is_skipped]. *)
Lemma blank_segment_witness :
  lookup {[ "tag" := upper_tag ]} (fun p => VStr p)
    (join pipe ("data.name" :: [" tag"] ++ "  " :: ["tag "]))
  = lookup {[ "tag" := upper_tag ]} (fun p => VStr p)
      (join pipe ("data.name" :: [" tag"] ++ ["tag "])).
Proof.
  apply (blank_segment_is_skipped {[ "tag" := upper_tag ]} (fun p => VStr p)
           "data.name" [" tag"] "  " ["tag "]).
  - discriminate.
  - reflexivity.
  - reflexivity.
  - repeat constructor.
Defined.

(** An instance of [quoted_parameter_keeps_colons]. *)
Lemma quoted_parameter_witness :
  applyFilter {[ "args" := join_args ]} (VStr "v")
    (" args " +:+ String colon (String squote ("10:30" +:+ String squote "")))
    (fun _ => Ok VUndef)
  = join_args [VStr "v"; VStr "10:30"].
Proof.
  apply (quoted_parameter_keeps_colons {[ "args" := join_args ]} (VStr "v")
           " args " squote "10:30" join_args (fun _ => Ok VUndef)).
  - discriminate.
  - reflexivity.
  - reflexivity.
  - reflexivity.
  - reflexivity.
  - reflexivity.
Defined.

(** An instance of [empty_parameter_is_dropped]. *)
Lemma empty_parameter_witness :
  applyFilter {[ "args" := join_args ]} (VStr "v") ("args" +:+ "::2")
    (fun _ => Ok VUndef)
  = applyFilter {[ "args" := join_args ]} (VStr "v") ("args" +:+ ":2")
      (fun _ => Ok VUndef).
Proof.
  apply (empty_parameter_is_dropped {[ "args" := join_args ]} (VStr "v")
           "args" "2" (fun _ => Ok VUndef)).
  reflexivity.
Defined.

Example empty_parameter_example :
  applyFilter {[ "args" := join_args ]} (VStr "v") "args::2" (fun _ => Ok VUndef)
  = join_args [VStr "v"; VNum (Fin (decimal 2 0))].
Proof. reflexivity. Qed.

End WaxChain.

(** ** More on the mailer: [start], the reload, the language, and the
    paths of [getTemplate] and [send] that end early *)

Module MailerPaths.

#[local] Set Warnings "-clear-no-such-hyp".

Import JS Mailer.

(** *** Reload *)

(** The cache after a reload: the fetched entries, later ones first, laid
    over what was there. *)
Lemma merge_union {A} (key : A → string) (val : A → value) m (l : list A) :
  merge key val m l
  = list_to_map (reverse (map (fun d => (key d, val d)) l)) ∪ m.
Proof.
  revert m. induction l as [|d l IH]; intros m.
  - cbn. by rewrite (left_id_L ∅ (∪)).
  - change (merge key val m (d :: l))
      with (merge key val (<[key d := val d]> m) l).
    rewrite IH. cbn [map]. rewrite reverse_cons, list_to_map_app.
    cbn [list_to_map foldr uncurry]. rewrite <- (assoc_L (∪)).
    by rewrite <- insert_union_l, (left_id_L ∅ (∪)).
Qed.

Lemma dom_merge {A} (key : A → string) (val : A → value) m (l : list A) :
  dom (merge key val m l) = list_to_set (map key l) ∪ dom m.
Proof.
  revert m. induction l as [|d l IH]; intros m; [set_solver|].
  change (merge key val m (d :: l))
    with (merge key val (<[key d := val d]> m) l).
  rewrite IH, dom_insert_L. cbn [map list_to_set]. set_solver.
Qed.

(** What an assignment leaves under the key [k]: a value, nothing, or
    what was there. *)
Definition touch (u : update) (k : string) : option (option value) :=
  match u with
  | Store k' v => if String.eqb k k' then Some (Some v) else None
  | Truncate n => if below n k then None else Some None
  | Nothing => None
  end.

(** The same for assignments one after the other: the last one that
    touches the key decides. *)
Fixpoint touches (us : list update) (k : string) : option (option value) :=
  match us with
  | [] => None
  | u :: us' =>
      match touches us' k with
      | Some r => Some r
      | None => touch u k
      end
  end.

Definition perform_all (us : list update) (m : gmap string value)
    : gmap string value :=
  foldl (fun m u => perform u m) m us.

Lemma lookup_perform u m k :
  perform u m !! k = match touch u k with Some r => r | None => m !! k end.
Proof.
  destruct u as [k' v|n|]; cbn [perform touch]; [| |done].
  - destruct (String.eqb_spec k k') as [->|Hne].
    + apply lookup_insert_eq.
    + apply lookup_insert_ne. congruence.
  - destruct (below n k) eqn:E.
    + destruct (m !! k) as [v|] eqn:Hm.
      * by apply map_lookup_filter_Some.
      * apply map_lookup_filter_None. by left.
    + apply map_lookup_filter_None. right. intros v _. cbn. congruence.
Qed.

Lemma lookup_perform_all us m k :
  perform_all us m !! k
  = match touches us k with Some r => r | None => m !! k end.
Proof.
  revert m. induction us as [|u us IH]; intros m; [done|].
  change (perform_all (u :: us) m) with (perform_all us (perform u m)).
  rewrite IH. cbn [touches]. destruct (touches us k); [done|].
  apply lookup_perform.
Qed.

Lemma perform_all_idem us m :
  perform_all us (perform_all us m) = perform_all us m.
Proof.
  apply map_eq. intros k. rewrite !lookup_perform_all.
  by destruct (touches us k).
Qed.

Lemma assignment_not_stuck k v x : assignment k v ≠ Stuck x.
Proof.
  unfold assignment, to_length.
  destruct (String.eqb k "length"); [|by destruct (String.eqb k "__proto__")].
  destruct (to_numeric v) as [[q| |]|e|y]; cbn; try done.
  by destruct (_ && _).
Qed.

Lemma set_template_run k v w :
  set_template k v w
  = match assignment k v with
    | Ok u => (Ok (), with_templates w (perform u (templates w)))
    | Throw e => (Throw e, w)
    | Stuck x => (Stuck x, w)
    end.
Proof. unfold set_template, array_set. by destruct (assignment k v). Qed.

Lemma set_subject_run k v w :
  set_subject k v w
  = match assignment k v with
    | Ok u => (Ok (), with_subjects w (perform u (subjects w)))
    | Throw e => (Throw e, w)
    | Stuck x => (Stuck x, w)
    end.
Proof. unfold set_subject, array_set. by destruct (assignment k v). Qed.

Lemma set_translation_run k v w :
  set_translation k v w
  = match assignment k v with
    | Ok u => (Ok (), with_translations w (perform u (translations w)))
    | Throw e => (Throw e, w)
    | Stuck x => (Stuck x, w)
    end.
Proof. unfold set_translation, array_set. by destruct (assignment k v). Qed.

(** The loop of [getTemplates]. *)
Definition store_templates : list template → M unit :=
  forEach (fun template =>
             set_template (name template) (text template);;
             set_subject (name template) (subject template)).

Lemma store_templates_cons d l w :
  store_templates (d :: l) w
  = match assignment (name d) (text d) with
    | Ok u1 =>
        let w1 := with_templates w (perform u1 (templates w)) in
        match assignment (name d) (subject d) with
        | Ok u2 =>
            store_templates l (with_subjects w1 (perform u2 (subjects w)))
        | Throw e => (Throw e, w1)
        | Stuck x => (Stuck x, w1)
        end
    | Throw e => (Throw e, w)
    | Stuck x => (Stuck x, w)
    end.
Proof.
  unfold store_templates. cbn [forEach]. unfold mbind, M_bind.
  rewrite set_template_run. destruct (assignment (name d) (text d)); [|done..].
  rewrite set_subject_run. cbn zeta.
  by destruct (assignment (name d) (subject d)).
Qed.

Lemma store_templates_app l1 l2 w w1 :
  store_templates l1 w = (Ok (), w1) →
  store_templates (l1 ++ l2) w = store_templates l2 w1.
Proof.
  revert w. induction l1 as [|d l1 IH]; intros w.
  - by intros [= ->].
  - rewrite <- app_comm_cons, !store_templates_cons.
    destruct (assignment (name d) (text d)); [|done..]. cbn zeta.
    destruct (assignment (name d) (subject d)); [|done..]. apply IH.
Qed.

(** A loop that comes to its end has performed one assignment to each
    cache for each document, the same whatever the caches held. *)
Lemma store_templates_ok l w w1 :
  store_templates l w = (Ok (), w1) →
  ∃ ut us, ∀ w0,
    store_templates l w0
    = (Ok (),
       {| opts := opts w0; translations := translations w0;
          templates := perform_all ut (templates w0);
          subjects := perform_all us (subjects w0);
          heap := heap w0; trace := trace w0 |}).
Proof.
  revert w. induction l as [|d l IH]; intros w.
  - intros _. exists [], []. intros w0. by destruct w0.
  - rewrite store_templates_cons.
    destruct (assignment (name d) (text d)) as [u1|e|x] eqn:E1; [|done..].
    cbn zeta.
    destruct (assignment (name d) (subject d)) as [u2|e|x] eqn:E2; [|done..].
    intros (ut & us & H)%IH. exists (u1 :: ut), (u2 :: us). intros w0.
    rewrite store_templates_cons, E1, E2. cbn zeta. by rewrite H.
Qed.

(** Neither cache loop gets stuck, and it leaves the rest of the state
    alone. *)
Lemma store_templates_frame l w :
  ∃ r w', store_templates l w = (r, w')
          ∧ (∀ x, r ≠ Stuck x)
          ∧ opts w' = opts w ∧ heap w' = heap w
          ∧ translations w' = translations w ∧ trace w' = trace w.
Proof.
  revert w. induction l as [|d l IH]; intros w.
  - by exists (Ok ()), w.
  - rewrite store_templates_cons.
    destruct (assignment (name d) (text d)) as [u1|e|x] eqn:E1.
    + cbn zeta.
      destruct (assignment (name d) (subject d)) as [u2|e|x] eqn:E2.
      * destruct (IH (with_subjects
                        (with_templates w (perform u1 (templates w)))
                        (perform u2 (subjects w))))
          as (r & w' & -> & Hr & Ho & Hh & Ht & Htr).
        by exists r, w'.
      * by eexists (Throw e), _.
      * by destruct (assignment_not_stuck _ _ _ E2).
    + by exists (Throw e), w.
    + by destruct (assignment_not_stuck _ _ _ E1).
Qed.

Lemma store_translations_frame l w :
  ∃ r w', forEach (fun translation =>
                     set_translation (lang translation) (keys translation))
            l w = (r, w')
          ∧ (∀ x, r ≠ Stuck x)
          ∧ opts w' = opts w ∧ heap w' = heap w
          ∧ templates w' = templates w ∧ subjects w' = subjects w
          ∧ trace w' = trace w.
Proof.
  revert w. induction l as [|d l IH]; intros w.
  - by exists (Ok ()), w.
  - cbn [forEach]. unfold mbind, M_bind. rewrite set_translation_run.
    destruct (assignment (lang d) (keys d)) as [u|e|x] eqn:E.
    + destruct (IH (with_translations w (perform u (translations w))))
        as (r & w' & -> & Hr & Ho & Hh & Ht & Hs & Htr).
      by exists r, w'.
    + by exists (Throw e), w.
    + by destruct (assignment_not_stuck _ _ _ E).
Qed.

(** Property X5.
    Fetching the same documents a second time changes nothing: the
    caches after the second reload are those after the first. *)
Theorem reload_again_changes_nothing callback err docs w :
  truthy err = false →
  (getTemplates callback err docs;; getTemplates callback err docs) w
  = getTemplates callback err docs w.
Proof.
  intros He. unfold getTemplates. rewrite He.
  fold store_templates. generalize (default [] docs). intros l.
  destruct (store_templates l w) as [[[]|e|x] w1] eqn:E.
  - rewrite (bind_ok _ _ _ _ _ E).
    destruct (store_templates_ok _ _ _ E) as (ut & us & H).
    rewrite H in E. injection E as <-. rewrite H.
    cbn [opts translations templates subjects heap trace].
    by rewrite !perform_all_idem.
  - by rewrite (bind_throw _ _ _ _ _ E).
  - unfold mbind, M_bind. by rewrite E.
Qed.

(** Property X6.
    Two reloads in a row, the first one of documents whose names are not
    [length] or [__proto__], are one reload of all that was fetched, the
    documents of the second after those of the first: where both have a
    name, the second wins. *)
Theorem reloads_compose callback err docs1 docs2 w :
  truthy err = false →
  Forall (fun d => array_setter (name d) = false) docs1 →
  (task (getTemplates callback err (Some docs1));;
   task (getTemplates callback err (Some docs2))) w
  = task (getTemplates callback err (Some (docs1 ++ docs2)%list)) w.
Proof.
  intros He Hn.
  pose proof (getTemplates_run callback err (Some docs1) w He Hn) as H1.
  unfold task, getTemplates in *. rewrite He in *.
  unfold default in *. cbn [from_option id] in *.
  change (forEach _) with store_templates in *.
  unfold mbind at 1, M_bind at 1. rewrite H1.
  by rewrite (store_templates_app _ docs2 _ _ H1).
Qed.

(** Property X7.
    A reload of documents whose names are not [length] or [__proto__]
    writes the text and the subject of a document together: when the
    names with a template were the names with a subject before, they are
    so afterwards, and every fetched name is among them. *)
Theorem reload_keeps_names_paired callback err docs w :
  truthy err = false →
  Forall (fun d => array_setter (name d) = false) (default [] docs) →
  dom (templates w) = dom (subjects w) →
  let w' := (getTemplates callback err docs w).2 in
  dom (templates w') = dom (subjects w')
  ∧ ∀ d, d ∈ default [] docs →
         name d ∈ dom (templates w') ∧ name d ∈ dom (subjects w').
Proof.
  intros He Hn Hd. rewrite getTemplates_run by done.
  cbn [snd templates subjects]. rewrite !dom_merge, Hd. split; [done|].
  intros d Hin.
  assert (name d ∈ (list_to_set (map name (default [] docs)) : gset string)).
  { apply elem_of_list_to_set, list_elem_of_fmap. eauto. }
  set_solver.
Qed.

(** Property X20.
    A document named [length] whose text is no length stops the reload
    where it stands: the handler throws what the assignment throws, the
    documents before it are stored and it and those after it are not. *)
Theorem reload_stops_at_length callback err l1 d l2 e w :
  truthy err = false →
  Forall (fun d => array_setter (name d) = false) l1 →
  name d = "length" → to_length (text d) = Throw e →
  getTemplates callback err (Some (l1 ++ d :: l2)%list) w
  = (Throw e,
     {| opts := opts w; translations := translations w;
        templates := merge name text (templates w) l1;
        subjects := merge name subject (subjects w) l1;
        heap := heap w; trace := trace w |}).
Proof.
  intros He Hn Hd Hl.
  pose proof (getTemplates_run callback err (Some l1) w He Hn) as H1.
  unfold getTemplates in *. rewrite He in *.
  unfold default in *. cbn [from_option id] in *.
  change (forEach _) with store_templates in *.
  rewrite (store_templates_app _ (d :: l2) _ _ H1), store_templates_cons.
  unfold assignment. rewrite Hd. cbn [String.eqb Ascii.eqb Bool.eqb].
  by rewrite Hl.
Qed.

(** *** [start] *)

(** The options handed to [start]; a field that is not given is
    undefined. *)
Record start_options := {
  given_defaultLanguage : option string;
  given_transporter : value;
  given_mustacheFormatter : option (gmap string Wax.formatter)
}.

Definition set_opts (o : options) : M unit := fun w =>
  (Ok (), {| opts := o; translations := translations w;
             templates := templates w; subjects := subjects w;
             heap := heap w; trace := trace w |}).

(** [start(options, database)], with the answers of the store to the two
    queries of the reload it ends with. It returns the module (here
    [true]) or, without transporter, what [log.error] returns (here
    [false]). The store handle [db] is not part of the model; of [opts]
    the fields that the rest of the module reads are kept. *)
Definition start (options : option start_options)
    (err1 : value) (translationsList : option (list translation))
    (err2 : value) (docs : option (list template)) : M bool :=
  let options :=
    default {| given_defaultLanguage := None; given_transporter := VUndef;
               given_mustacheFormatter := None |} options in
  if negb (truthy (given_transporter options)) then
    log "error" [VStr "no transporter defined, aborting"];; mret false
  else
    set_opts {| defaultLanguage :=
                  Some (or_else (given_defaultLanguage options) "de");
                transporter := given_transporter options;
                mustacheFormatter :=
                  default ∅ (given_mustacheFormatter options) |};;
    reloadTemplates err1 translationsList err2 docs;;
    mret true.

(** A reload always returns, and touches neither [opts] nor the objects
    of the caller. *)
Lemma task_getTranslations err l w :
  ∃ w', task (getTranslations None err l) w = (Ok (), w')
        ∧ opts w' = opts w ∧ heap w' = heap w
        ∧ templates w' = templates w ∧ subjects w' = subjects w.
Proof.
  unfold task, getTranslations. destruct (truthy err) eqn:He; [by eexists|].
  destruct (store_translations_frame (default [] l) w)
    as (r & w' & -> & Hr & Ho & Hh & Ht & Hs & _).
  destruct r as [[]|e|x]; [by eexists|by eexists|by destruct (Hr x)].
Qed.

Lemma task_getTemplates err l w :
  ∃ w', task (getTemplates None err l) w = (Ok (), w')
        ∧ opts w' = opts w ∧ heap w' = heap w
        ∧ translations w' = translations w.
Proof.
  unfold task, getTemplates. destruct (truthy err) eqn:He; [by eexists|].
  fold store_templates.
  destruct (store_templates_frame (default [] l) w)
    as (r & w' & -> & Hr & Ho & Hh & Ht & _).
  destruct r as [[]|e|x]; [by eexists|by eexists|by destruct (Hr x)].
Qed.

Lemma reload_frame err1 l1 err2 l2 w :
  ∃ w', reloadTemplates err1 l1 err2 l2 w = (Ok (), w')
        ∧ opts w' = opts w ∧ heap w' = heap w.
Proof.
  destruct (task_getTranslations err1 l1 w) as (w1 & H1 & Ho1 & Hh1 & _).
  destruct (task_getTemplates err2 l2 w1) as (w2 & H2 & Ho2 & Hh2 & _).
  exists w2. unfold reloadTemplates. rewrite (bind_ok _ _ _ _ _ H1).
  split; [done|]. split; congruence.
Qed.

(** Property X9.
    With a transporter, [start] returns the module whatever the store
    answers, and afterwards the default language of [opts] is the given
    one or, when none or an empty one was given, de: it is never empty.
    The transporter is the given one, and no formatters are registered
    when none were given. *)
Theorem start_sets_opts o err1 l1 err2 l2 w :
  truthy (given_transporter o) = true →
  ∃ w', start (Some o) err1 l1 err2 l2 w = (Ok true, w')
        ∧ heap w' = heap w
        ∧ transporter (opts w') = given_transporter o
        ∧ mustacheFormatter (opts w')
          = default ∅ (given_mustacheFormatter o)
        ∧ ∃ d, defaultLanguage (opts w') = Some d ∧ d ≠ ""
               ∧ (∀ g, given_defaultLanguage o = Some g → g ≠ "" → d = g)
               ∧ (given_defaultLanguage o = None → d = "de")
               ∧ (given_defaultLanguage o = Some "" → d = "de").
Proof.
  intros Ht. unfold start. cbn zeta. change (default _ (Some o)) with o.
  rewrite Ht. cbn [negb].
  set (o' := {| defaultLanguage := _ |}).
  rewrite (bind_ok (set_opts o') _ w () _ eq_refl).
  destruct (reload_frame err1 l1 err2 l2
              {| opts := o'; translations := translations w;
                 templates := templates w; subjects := subjects w;
                 heap := heap w; trace := trace w |})
    as (w' & Hr & Ho & Hh).
  exists w'. rewrite (bind_ok _ _ _ _ _ Hr). split; [done|].
  rewrite Ho, Hh. cbn [opts heap]. do 3 (split; [done|]).
  exists (or_else (given_defaultLanguage o) "de").
  split; [done|]. unfold or_else.
  destruct (given_defaultLanguage o) as [g|]; [|done].
  destruct (String.eqb_spec g "") as [->|Hg].
  - split; [done|]. split; [by intros g' [= <-]|done].
  - split; [done|]. split; [by intros g' [= <-]|].
    split; [done|]. by intros [= ->].
Qed.

(** *** The language of a request *)

Lemma nonempty_eqb (s : string) : s ≠ "" → String.eqb s "" = false.
Proof. intros H. by apply String.eqb_neq. Qed.

(** Property X10.
    A requested language that has a bundle is used, whatever the default
    language is, and nothing is logged. *)
Theorem requested_language_is_used ops w l :
  language ops = Some l → l ≠ "" →
  truthy (get (translations w) l) = true →
  pick_language ops w = (Ok (get (translations w) l), w).
Proof.
  intros Hl Hne Ht. rewrite pick_language_run.
  unfold langObj, language_log. rewrite Hl. cbn [or_str].
  rewrite (nonempty_eqb l Hne). cbn [or_else].
  rewrite (nonempty_eqb l Hne), Ht, (nonempty_eqb l Hne). cbn [negb andb].
  by rewrite add_events_nil.
Qed.

(** Property X11.
    When the language of the request (or, without one, the default
    language, or de) has no bundle and a default language is configured,
    the bundle of the default language is taken, be it there or not, and
    the switch is logged. *)
Theorem unsupported_language_falls_back ops w d :
  defaultLanguage (opts w) = Some d → d ≠ "" →
  array_member (or_else (or_str (language ops) (Some d)) "de") = false →
  array_member d = false →
  truthy (get (translations w)
            (or_else (or_str (language ops) (Some d)) "de")) = false →
  pick_language ops w
  = (Ok (get (translations w) d),
     add_events w
       [Log "info" [VStr "no language found, switching to default"]]).
Proof.
  intros Hd Hne _ _ Ht. rewrite pick_language_run.
  unfold langObj, language_log. rewrite Hd, Ht. cbn [default of_opt truthy].
  rewrite andb_false_r, (nonempty_eqb d Hne). reflexivity.
Qed.

(** *** What [getTemplate] does, in one expression *)

Section Paths.

Variable engine : gmap string Wax.formatter → value → value → outcome string.
Variable htmlToText : value → string.
Variable deliver : value → gmap string value → value * value.

Definition out_map {A B} (g : A → B) (o : outcome A) : outcome B :=
  match o with
  | Ok a => Ok (g a)
  | Throw e => Throw e
  | Stuck s => Stuck s
  end.

(** The two passes of the engine over a text: what they return and the
    calls they make. *)
Definition passes (F : gmap string Wax.formatter) (t view : value)
    : outcome string * list event :=
  match engine F t view with
  | Ok s => (engine F (VStr s) view, [Render t view; Render (VStr s) view])
  | r => (r, [Render t view])
  end.

Lemma passes_run {A} (g : string → A) t view w :
  (s ← render engine t view; s ← render engine (VStr s) view; mret (g s)) w
  = (out_map g (passes (mustacheFormatter (opts w)) t view).1,
     add_events w (passes (mustacheFormatter (opts w)) t view).2).
Proof.
  unfold passes.
  destruct (engine (mustacheFormatter (opts w)) t view) as [s1|e|x] eqn:E1.
  - destruct (engine (mustacheFormatter (opts w)) (VStr s1) view)
      as [s2|e|x] eqn:E2.
    + by rewrite (two_pass_run engine g t view w s1 s2 E1 E2).
    + assert (R1 : render engine t view w
                   = (Ok s1, add_events w [Render t view])).
      { by rewrite render_run, E1. }
      rewrite (bind_ok _ _ _ _ _ R1). apply bind_throw.
      by rewrite render_run, opts_add_events, E2, add_events_app.
    + assert (R1 : render engine t view w
                   = (Ok s1, add_events w [Render t view])).
      { by rewrite render_run, E1. }
      rewrite (bind_ok _ _ _ _ _ R1).
      unfold mbind, M_bind. by rewrite render_run, opts_add_events, E2,
                                    add_events_app.
  - apply bind_throw. by rewrite render_run, E1.
  - unfold mbind, M_bind. by rewrite render_run, E1.
Qed.

(** The message that [getTemplate] builds, or the exception it ends
    with, and the events on the way, from [opts] and the caches. *)
Definition composed (w : world) (ops : templateOps)
    : outcome (gmap string value) * list event :=
  let F := mustacheFormatter (opts w) in
  let view := compileData w ops in
  let subj := get (subjects w) (tmplName ops) in
  let body := get (templates w) (tmplName ops) in
  let p1 :=
    if truthy subj
    then (out_map (fun s => <["subject" := VStr s]> (∅ : gmap string value))
            (passes F subj view).1, (passes F subj view).2)
    else (Ok ∅, []) in
  match p1 with
  | (Ok m1, e1) =>
      let p2 :=
        if truthy body
        then (out_map (fun h => <["html" := VStr h]> m1)
                (passes F body view).1, (passes F body view).2)
        else (Ok (<["html" := get m1 "subject"]> m1), []) in
      match p2 with
      | (Ok m2, e2) =>
          (Ok (with_text htmlToText m2),
           (language_log w ops ++ e1 ++ e2 ++ text_log m2)%list)
      | (Throw e, e2) => (Throw e, (language_log w ops ++ e1 ++ e2)%list)
      | (Stuck x, e2) => (Stuck x, (language_log w ops ++ e1 ++ e2)%list)
      end
  | (Throw e, e1) => (Throw e, (language_log w ops ++ e1)%list)
  | (Stuck x, e1) => (Stuck x, (language_log w ops ++ e1)%list)
  end.

Lemma no_text_yet (m1 : gmap string value) v :
  m1 = ∅ ∨ (∃ s, m1 = <["subject" := VStr s]> ∅) →
  get (<["html" := v]> m1) "text" = VUndef.
Proof. intros [->|[s ->]]; reflexivity. Qed.

Lemma build_message_composed ops w :
  build_message engine htmlToText ops w
  = ((composed w ops).1, add_events w (composed w ops).2).
Proof.
  unfold build_message, composed.
  rewrite (bind_ok read _ w w w eq_refl).
  rewrite (bind_ok _ _ _ _ _ (pick_language_run ops w)).
  fold (compileData w ops).
  set (F := mustacheFormatter (opts w)).
  set (view := compileData w ops).
  set (subj := get (subjects w) (tmplName ops)).
  set (body := get (templates w) (tmplName ops)).
  set (w0 := add_events w (language_log w ops)).
  assert (Hsub : ∃ p1 : outcome (gmap string value) * list event,
            (if truthy subj
             then (out_map (fun s => <["subject" := VStr s]> ∅)
                     (passes F subj view).1, (passes F subj view).2)
             else (Ok ∅, [])) = p1
            ∧ (if truthy subj
               then s ← render engine subj view;
                    s ← render engine (VStr s) view;
                    mret (<["subject" := VStr s]> ∅)
               else mret ∅) w0 = (p1.1, add_events w0 p1.2)
            ∧ ∀ m1, p1.1 = Ok m1 →
                    m1 = ∅ ∨ ∃ s, m1 = <["subject" := VStr s]> ∅).
  { eexists. split; [done|]. destruct (truthy subj).
    - rewrite passes_run. split; [done|]. cbn [fst].
      intros m1. destruct (passes _ _ _).1; cbn; [|done..].
      intros [= <-]. eauto.
    - split; [by rewrite add_events_nil|]. intros m1 [= <-]. by left. }
  destruct Hsub as ([r1 e1] & -> & Hrun1 & Hshape). cbn [fst snd] in *.
  destruct r1 as [m1|e|x].
  2:{ rewrite (bind_throw _ _ _ _ _ Hrun1). unfold w0.
      by rewrite add_events_app. }
  2:{ unfold mbind at 1, M_bind at 1. rewrite Hrun1. unfold w0.
      by rewrite add_events_app. }
  rewrite (bind_ok _ _ _ _ _ Hrun1).
  specialize (Hshape m1 eq_refl).
  set (w1 := add_events w0 e1).
  assert (Hbody : ∃ p2 : outcome (gmap string value) * list event,
            (if truthy body
             then (out_map (fun h => <["html" := VStr h]> m1)
                     (passes F body view).1, (passes F body view).2)
             else (Ok (<["html" := get m1 "subject"]> m1), [])) = p2
            ∧ (if truthy body
               then h ← render engine body view;
                    h ← render engine (VStr h) view;
                    mret (<["html" := VStr h]> m1)
               else mret (<["html" := get m1 "subject"]> m1)) w1
              = (p2.1, add_events w1 p2.2)
            ∧ ∀ m2, p2.1 = Ok m2 → get m2 "text" = VUndef).
  { eexists. split; [done|]. destruct (truthy body).
    - rewrite passes_run. split; [done|]. cbn [fst].
      intros m2. destruct (passes _ _ _).1; cbn; [|done..].
      intros [= <-]. by apply no_text_yet.
    - split; [by rewrite add_events_nil|]. intros m2 [= <-].
      by apply no_text_yet. }
  destruct Hbody as ([r2 e2] & -> & Hrun2 & Htext). cbn [fst snd] in *.
  destruct r2 as [m2|e|x].
  2:{ rewrite (bind_throw _ _ _ _ _ Hrun2). unfold w1, w0.
      by rewrite !add_events_app. }
  2:{ unfold mbind at 1, M_bind at 1. rewrite Hrun2. unfold w1, w0.
      by rewrite !add_events_app. }
  rewrite (bind_ok _ _ _ _ _ Hrun2).
  rewrite (finish_text htmlToText m2 _ (Htext m2 eq_refl)).
  unfold w1, w0. by rewrite !add_events_app.
Qed.

(** *** The shape of a message *)

Lemma with_text_shape (m1 : gmap string value) v :
  m1 = ∅ ∨ (∃ s, m1 = <["subject" := VStr s]> ∅) →
  let m := with_text htmlToText (<["html" := v]> m1) in
  m !! "html" = Some v
  ∧ (truthy v = true → m !! "text" = Some (VStr (htmlToText v)))
  ∧ (truthy v = false → m !! "text" = None)
  ∧ m !! "subject" = m1 !! "subject"
  ∧ (∀ k, k ≠ "subject" → k ≠ "html" → k ≠ "text" → m !! k = None).
Proof.
  intros Hm1 m. unfold m, with_text.
  assert (Hh : get (<["html" := v]> m1) "html" = v).
  { unfold get. by rewrite lookup_insert_eq. }
  assert (Hother : ∀ k, k ≠ "subject" → m1 !! k = None).
  { intros k Hk. destruct Hm1 as [->|[s ->]]; [done|].
    by rewrite lookup_insert_ne. }
  rewrite Hh. destruct (truthy v) eqn:Hv.
  - split; [by rewrite lookup_insert_ne, lookup_insert_eq|].
    split; [intros _; by rewrite lookup_insert_eq|]. split; [done|].
    split; [by rewrite !lookup_insert_ne|].
    intros k H1 H2 H3. rewrite !lookup_insert_ne by done. by apply Hother.
  - split; [by rewrite lookup_insert_eq|]. split; [done|].
    split; [intros _; rewrite lookup_insert_ne by done; by apply Hother|].
    split; [by rewrite lookup_insert_ne|].
    intros k H1 H2 H3. rewrite !lookup_insert_ne by done. by apply Hother.
Qed.

(** Property X13.
    A message that [getTemplate] hands to the callback has an [html]
    field, which is its [subject] when there is no body template; it has
    a [text], made from the [html], exactly when the [html] is not empty;
    it has a [subject], a string, exactly when a subject is stored; and it
    has no other field. *)
Theorem message_shape ops w m w' :
  build_message engine htmlToText ops w = (Ok m, w') →
  (∃ v, m !! "html" = Some v
        ∧ (truthy v = true → m !! "text" = Some (VStr (htmlToText v)))
        ∧ (truthy v = false → m !! "text" = None)
        ∧ (truthy (get (templates w) (tmplName ops)) = false →
           v = get m "subject"))
  ∧ (truthy (get (subjects w) (tmplName ops)) = true →
     ∃ s, m !! "subject" = Some (VStr s))
  ∧ (truthy (get (subjects w) (tmplName ops)) = false →
     m !! "subject" = None)
  ∧ (∀ k, k ≠ "subject" → k ≠ "html" → k ≠ "text" → m !! k = None).
Proof.
  rewrite build_message_composed. intros [= Hm _]. revert Hm.
  unfold composed.
  set (F := mustacheFormatter (opts w)).
  set (view := compileData w ops).
  set (subj := get (subjects w) (tmplName ops)).
  set (body := get (templates w) (tmplName ops)).
  assert (Hcase : ∀ (m1 : gmap string value) e1,
    (m1 = ∅ ∧ truthy subj = false
     ∨ ∃ s, m1 = <["subject" := VStr s]> ∅ ∧ truthy subj = true) →
    (match
       (if truthy body
        then (out_map (fun h => <["html" := VStr h]> m1)
                (passes F body view).1, (passes F body view).2)
        else (Ok (<["html" := get m1 "subject"]> m1), []))
     with
     | (Ok m2, e2) =>
         (Ok (with_text htmlToText m2),
          (language_log w ops ++ e1 ++ e2 ++ text_log m2)%list)
     | (Throw e, e2) => (Throw e, (language_log w ops ++ e1 ++ e2)%list)
     | (Stuck x, e2) => (Stuck x, (language_log w ops ++ e1 ++ e2)%list)
     end).1 = Ok m →
    (∃ v, m !! "html" = Some v
          ∧ (truthy v = true → m !! "text" = Some (VStr (htmlToText v)))
          ∧ (truthy v = false → m !! "text" = None)
          ∧ (truthy body = false → v = get m "subject"))
    ∧ (truthy subj = true → ∃ s, m !! "subject" = Some (VStr s))
    ∧ (truthy subj = false → m !! "subject" = None)
    ∧ (∀ k, k ≠ "subject" → k ≠ "html" → k ≠ "text" → m !! k = None)).
  { intros m1 e1 Hm1.
    assert (Hm1' : m1 = ∅ ∨ ∃ s, m1 = <["subject" := VStr s]> ∅).
    { destruct Hm1 as [[-> _]|(s & -> & _)]; eauto. }
    assert (Hgen : ∀ v, (truthy body = false → v = get m1 "subject") →
              with_text htmlToText (<["html" := v]> m1) = m →
      (∃ v, m !! "html" = Some v
            ∧ (truthy v = true → m !! "text" = Some (VStr (htmlToText v)))
            ∧ (truthy v = false → m !! "text" = None)
            ∧ (truthy body = false → v = get m "subject"))
      ∧ (truthy subj = true → ∃ s, m !! "subject" = Some (VStr s))
      ∧ (truthy subj = false → m !! "subject" = None)
      ∧ (∀ k, k ≠ "subject" → k ≠ "html" → k ≠ "text" → m !! k = None)).
    2:{ destruct (truthy body) eqn:Hb.
        - destruct (passes F body view).1 as [h| |]; cbn; [|done..].
          intros [= Hm]. by apply (Hgen (VStr h)).
        - cbn. intros [= Hm]. by apply (Hgen (get m1 "subject")). }
    intros v Hv <-.
    pose proof (with_text_shape m1 v Hm1') as Hshape. cbv zeta in Hshape.
    destruct Hshape as (H1 & H2 & H3 & H4 & H5).
    split.
    { exists v. do 3 (split; [done|]). intros Hb. unfold get. rewrite H4.
      apply (Hv Hb). }
    rewrite H4. split; [|split; [|done]].
    - intros Hs. destruct Hm1 as [[_ ?]|(s & -> & _)]; [congruence|].
      exists s. by rewrite lookup_insert_eq.
    - intros Hs. destruct Hm1 as [[-> _]|(s & _ & ?)]; [done|congruence]. }
  destruct (truthy subj) eqn:Hs.
  - destruct (passes F subj view) as [[s1| |] e1]; cbn [out_map fst snd];
      [|done..].
    apply Hcase. right. eauto.
  - apply Hcase. by left.
Qed.

(** Property X14.
    When the engine throws on the body, in the first pass or in the
    second, [getTemplate] ends with that exception: the callback is not
    called, neither with an error nor with the subject that was rendered
    before. *)
Theorem body_exception_escapes ops w e :
  let F := mustacheFormatter (opts w) in
  let view := compileData w ops in
  let subj := get (subjects w) (tmplName ops) in
  let body := get (templates w) (tmplName ops) in
  truthy body = true →
  truthy subj = false
  ∨ (∃ s1 s2, engine F subj view = Ok s1 ∧ engine F (VStr s1) view = Ok s2) →
  engine F body view = Throw e
  ∨ (∃ h1, engine F body view = Ok h1 ∧ engine F (VStr h1) view = Throw e) →
  ∃ evs, ∀ callback,
    getTemplate engine htmlToText (Some ops) (Some callback) w
    = (Throw e, add_events w evs).
Proof.
  intros F view subj body Hb Hsubj Hbody.
  assert (Hp2 : (passes F body view).1 = Throw e).
  { unfold passes. destruct Hbody as [->|(h1 & -> & ->)]; done. }
  assert (Hc : (composed w ops).1 = Throw e).
  { unfold composed. fold F view subj body. rewrite Hb.
    destruct (passes F body view) as [r2 ev2]. cbn [fst] in Hp2. subst r2.
    destruct Hsubj as [->|(s1 & s2 & H1 & H2)]; [done|].
    destruct (truthy subj); [|done].
    unfold passes. by rewrite H1, H2. }
  exists (composed w ops).2. intros callback. apply getTemplate_throws.
  by rewrite build_message_composed, Hc.
Qed.

(** *** The housekeeping of [send] and of [getTemplate] *)

(** Property X15.
    Without a callback [send] logs that there is none and then calls it
    all the same, which throws; this is so whatever the template and the
    message are, since the check of the callback is the last one.
    [getTemplate] only logs, twice, and returns: it does not throw, and
    it renders nothing. *)
Theorem without_callback template message w :
  send engine htmlToText deliver template message None w
  = (Throw not_a_function,
     add_events w [Log "error" [VStr "no callback defined"]])
  ∧ getTemplate engine htmlToText template None w
    = (Ok (), add_events w [Log "error" [VStr "no callback defined"];
                            Log "error" [VStr "no callback defined"]]).
Proof.
  split.
  - unfold send.
    assert (Hrun : ∃ to, (match message with
                          | Some l => load l "to"
                          | None => mret VUndef
                          end) w = (Ok to, w)).
    { destruct message as [l|];
        [exists (get (fields w l) "to")|exists VUndef]; reflexivity. }
    destruct Hrun as [to Hrun]. rewrite (bind_ok _ _ _ _ _ Hrun). done.
  - unfold getTemplate, log. rewrite (bind_ok (emit _) _ w _ _ eq_refl).
    unfold emit. by rewrite add_events_app.
Qed.

(** Property X16.
    With a recipient and a callback but no template, [send] hands
    'no template defined' to the callback; the message keeps its
    [transporter] and nothing is rendered. *)
Theorem send_without_template l callback w :
  truthy (get (fields w l) "to") = true →
  send engine htmlToText deliver None (Some l) (Some callback) w
  = callback [VStr "no template defined"]
      (add_events w [Log "error" [VStr "no template defined"]]).
Proof.
  intros Hto. unfold send.
  rewrite (bind_ok _ _ _ _ _ (load_run _ _ w)). rewrite Hto. done.
Qed.

(** *** [send], when no transport can be chosen or the rendering fails *)

(** Property X17.
    When neither the message nor the instance has a [transporter] (the
    instance was not started, or [start] gave up), [send] throws the
    [SyntaxError] of [JSON.parse] before it reaches its own check for a
    missing transporter: nothing is logged, the callback is not called
    and the message is as it was. *)
Theorem send_without_transporter ops l callback w :
  truthy (get (fields w l) "to") = true →
  truthy (get (fields w l) "transporter") = false →
  transporter (opts w) = VUndef →
  send engine htmlToText deliver (Some ops) (Some l) (Some callback) w
  = (Throw (SyntaxError "undefined is not valid JSON"), w).
Proof.
  intros Hto Hmt Ht. unfold send.
  rewrite (bind_ok _ _ _ _ _ (load_run _ _ w)). rewrite Hto.
  rewrite (bool_decide_eq_false_2 (Some callback = None)) by done.
  rewrite (bool_decide_eq_false_2 (Some ops = None)) by done.
  cbn [negb String.eqb].
  rewrite (bind_ok _ _ _ _ _ (load_run _ _ w)).
  rewrite (bind_ok read _ w w w eq_refl).
  unfold or. rewrite Hmt, Ht. reflexivity.
Qed.

Lemma send_passes ops l callback w m :
  heap w !! l = Some m →
  truthy (get m "to") = true →
  truthy (chosen_transporter w m) = true →
  send engine htmlToText deliver (Some ops) (Some l) (Some callback) w
  = getTemplate engine htmlToText (Some ops)
      (Some (on_template deliver l (json_value (chosen_transporter w m))
               (Some callback)))
      (with_heap w (<[l := delete "transporter" m]> (heap w))).
Proof.
  intros Hl Hto Htr.
  assert (Hf : fields w l = m) by (unfold fields; by rewrite Hl).
  destruct (json_copy_truthy _ Htr) as [Hj Hcfg].
  unfold send.
  rewrite (bind_ok _ _ _ _ _ (load_run _ _ w)). rewrite Hf, Hto.
  rewrite (bool_decide_eq_false_2 (Some callback = None)) by done.
  rewrite (bool_decide_eq_false_2 (Some ops = None)) by done.
  cbn [negb String.eqb].
  rewrite (bind_ok _ _ _ _ _ (load_run _ _ w)). rewrite Hf.
  rewrite (bind_ok read _ w w w eq_refl).
  fold (chosen_transporter w m). rewrite Hj.
  rewrite (bind_ok (lift (Ok _)) _ w _ w eq_refl).
  assert (Hr : remove l "transporter" w
               = (Ok (), with_heap w
                           (<[l := delete "transporter" m]> (heap w)))).
  { unfold remove. rewrite (bind_ok read _ w w w eq_refl). by rewrite Hf. }
  rewrite (bind_ok _ _ _ _ _ Hr). rewrite Hcfg. reflexivity.
Qed.

(** Property X18.
    When the rendering throws, [send] throws with it: no transport is
    created and the callback is not called, but the [transporter] of
    the message is already deleted, so the object of the caller is
    changed although nothing was sent. *)
Theorem send_render_exception ops l callback w m e w' :
  heap w !! l = Some m →
  truthy (get m "to") = true →
  truthy (chosen_transporter w m) = true →
  build_message engine htmlToText ops w = (Throw e, w') →
  send engine htmlToText deliver (Some ops) (Some l) (Some callback) w
  = (Throw e, with_heap w' (<[l := delete "transporter" m]> (heap w))).
Proof.
  intros Hl Hto Htr Hb. rewrite (send_passes _ _ _ _ _ Hl Hto Htr).
  apply getTemplate_throws. by rewrite build_message_heap, Hb.
Qed.

(** Property X19.
    When the transport answers with an error, [send] logs it and hands
    it to the callback, together with the info of the transport; an
    error that has a [message] is replaced by that message, so the
    callback gets a string where the transport gave an [Error]. *)
Theorem transport_error_is_unwrapped ops l w m mc evs err info :
  heap w !! l = Some m →
  truthy (get m "to") = true →
  truthy (chosen_transporter w m) = true →
  build_message engine htmlToText ops w = (Ok mc, add_events w evs) →
  let cfg := json_value (chosen_transporter w m) in
  let m' := forwarded m mc in
  deliver cfg m' = (err, info) →
  truthy err = true →
  send engine htmlToText deliver (Some ops) (Some l) (Some reported) w
  = (Ok (),
     with_heap
       (add_events w
          (evs ++ [CreateTransport cfg; SendMail l m';
                   Log "error" [VStr "error in sendMail: "; err];
                   Callback [or (prop err "message") err; info]]))
       (<[l := m']> (heap w))).
Proof.
  intros Hl Hto Htr Hb cfg m' Hd Herr.
  rewrite (send_run _ _ _ _ _ _ _ _ _ _ Hl Hto Htr Hb).
  fold cfg m'. rewrite Hd. cbn [fst snd]. unfold on_sent. rewrite Herr.
  unfold or.
  destruct (truthy (prop err "message"));
    unfold log, reported; rewrite (bind_ok (emit _) _ _ _ _ eq_refl);
    unfold emit, with_heap, add_events; cbn;
    rewrite <- !app_assoc; reflexivity.
Qed.
End Paths.

(** *** Instances *)

Definition notice : template :=
  {| name := "notice"; text := VStr "<p>{{data.name}}</p>";
     subject := VStr "A notice" |}.

Definition reminder : template :=
  {| name := "notice"; text := VStr "<p>again</p>"; subject := VUndef |}.

(** An instance of [reload_again_changes_nothing]. *)
Lemma reload_again_witness :
  (getTemplates None VNull (Some [notice; reminder]);;
   getTemplates None VNull (Some [notice; reminder])) demo
  = getTemplates None VNull (Some [notice; reminder]) demo.
Proof.
  apply (reload_again_changes_nothing None VNull
           (Some [notice; reminder]) demo).
  reflexivity.
Defined.

(** An instance of [reloads_compose]. *)
Lemma reloads_compose_witness :
  (task (getTemplates None VNull (Some [notice]));;
   task (getTemplates None VNull (Some [reminder]))) demo
  = task (getTemplates None VNull (Some [notice; reminder])) demo.
Proof.
  apply (reloads_compose None VNull [notice] [reminder] demo).
  - reflexivity.
  - repeat constructor.
Defined.

Definition broken : template :=
  {| name := "length"; text := VStr "<p>Hello</p>"; subject := VStr "Hello" |}.

(** An instance of [reload_stops_at_length]. *)
Lemma reload_stops_witness :
  getTemplates None VNull (Some [notice; broken; reminder]) demo
  = (Throw invalid_length,
     {| opts := opts demo; translations := translations demo;
        templates := merge name text (templates demo) [notice];
        subjects := merge name subject (subjects demo) [notice];
        heap := heap demo; trace := trace demo |}).
Proof.
  apply (reload_stops_at_length None VNull [notice] broken [reminder]
           invalid_length demo).
  - reflexivity.
  - repeat constructor.
  - reflexivity.
  - vm_compute. reflexivity.
Defined.

(** A cache in which the names with a template are the names with a
    subject. *)
Definition paired : world :=
  {| opts := demo_opts; translations := ∅;
     templates := {[ "old" := VStr "text" ]};
     subjects := {[ "old" := VStr "subject" ]};
     heap := ∅; trace := [] |}.

(** An instance of [reload_keeps_names_paired]. *)
Lemma reload_keeps_names_witness :
  let w' := (getTemplates None VNull (Some [notice]) paired).2 in
  dom (templates w') = dom (subjects w')
  ∧ ∀ d, d ∈ default [] (Some [notice]) →
         name d ∈ dom (templates w') ∧ name d ∈ dom (subjects w').
Proof.
  apply (reload_keeps_names_paired None VNull (Some [notice]) paired).
  - reflexivity.
  - repeat constructor.
  - cbn [templates subjects paired]. by rewrite !dom_singleton_L.
Defined.

Definition relay : start_options :=
  {| given_defaultLanguage := Some "";
     given_transporter := VObj {[ "host" := VStr "relay.example.org" ]};
     given_mustacheFormatter := None |}.

(** An instance of [start_sets_opts]: an empty default language. *)
Lemma start_sets_opts_witness :
  ∃ w', start (Some relay) VNull None (VStr "down") None demo = (Ok true, w')
        ∧ heap w' = heap demo
        ∧ transporter (opts w') = given_transporter relay
        ∧ mustacheFormatter (opts w')
          = default ∅ (given_mustacheFormatter relay)
        ∧ ∃ d, defaultLanguage (opts w') = Some d ∧ d ≠ ""
               ∧ (∀ g, given_defaultLanguage relay = Some g → g ≠ "" → d = g)
               ∧ (given_defaultLanguage relay = None → d = "de")
               ∧ (given_defaultLanguage relay = Some "" → d = "de").
Proof.
  apply (start_sets_opts relay VNull None (VStr "down") None demo).
  reflexivity.
Defined.

(** An instance of [requested_language_is_used]. *)
Lemma requested_language_witness :
  pick_language {| language := Some "en"; tmplName := "welcome";
                   data := VUndef |} demo
  = (Ok (get (translations demo) "en"), demo).
Proof.
  apply (requested_language_is_used
           {| language := Some "en"; tmplName := "welcome"; data := VUndef |}
           demo "en").
  - reflexivity.
  - discriminate.
  - reflexivity.
Defined.

(** An instance of [unsupported_language_falls_back]. *)
Lemma unsupported_language_witness :
  pick_language {| language := Some "fr"; tmplName := "welcome";
                   data := VUndef |} demo
  = (Ok (get (translations demo) "en"),
     add_events demo
       [Log "info" [VStr "no language found, switching to default"]]).
Proof.
  apply (unsupported_language_falls_back
           {| language := Some "fr"; tmplName := "welcome"; data := VUndef |}
           demo "en").
  - reflexivity.
  - discriminate.
  - reflexivity.
  - reflexivity.
  - reflexivity.
Defined.

(** An instance of [message_shape]. *)
Lemma message_shape_witness :
  (∃ v, welcome_content !! "html" = Some v
        ∧ (truthy v = true →
           welcome_content !! "text" = Some (VStr (text0 v)))
        ∧ (truthy v = false → welcome_content !! "text" = None)
        ∧ (truthy (get (templates demo) (tmplName (request "welcome")))
           = false →
           v = get welcome_content "subject"))
  ∧ (truthy (get (subjects demo) (tmplName (request "welcome"))) = true →
     ∃ s, welcome_content !! "subject" = Some (VStr s))
  ∧ (truthy (get (subjects demo) (tmplName (request "welcome"))) = false →
     welcome_content !! "subject" = None)
  ∧ (∀ k, k ≠ "subject" → k ≠ "html" → k ≠ "text" →
          welcome_content !! k = None).
Proof.
  apply (message_shape (mustache show0) text0 (request "welcome") demo
           welcome_content (add_events demo welcome_events)).
  exact welcome_built.
Defined.

(** A cache with a body that the engine refuses. *)
Definition faulty : world :=
  {| opts := demo_opts; translations := ∅;
     templates := {[ "bad" := VStr "Dear {{ data.name" ]};
     subjects := {[ "bad" := VStr "Your order" ]};
     heap := {[ 1%positive := ann ]}; trace := [] |}.

(** An instance of [body_exception_escapes]. *)
Lemma body_exception_witness :
  ∃ evs, ∀ callback,
    getTemplate (mustache show0) text0 (Some (request "bad")) (Some callback)
      faulty
    = (Throw Mustache.unclosed, add_events faulty evs).
Proof.
  apply (body_exception_escapes (mustache show0) text0 (request "bad")
           faulty Mustache.unclosed).
  - reflexivity.
  - right. exists "Your order", "Your order". split; vm_compute; reflexivity.
  - left. vm_compute. reflexivity.
Defined.

(** An instance of [send_without_template]. *)
Lemma send_without_template_witness :
  send (mustache show0) text0 deliver0 None (Some 1%positive)
    (Some reported) demo
  = reported [VStr "no template defined"]
      (add_events demo [Log "error" [VStr "no template defined"]]).
Proof.
  apply (send_without_template (mustache show0) text0 deliver0 1%positive
           reported demo).
  reflexivity.
Defined.

(** An instance that was not started, and a message for it. *)
Definition unstarted : world :=
  {| opts := {| defaultLanguage := None; transporter := VUndef;
                mustacheFormatter := ∅ |};
     translations := ∅; templates := ∅; subjects := ∅;
     heap := {[ 1%positive := {[ "to" := VStr "ann@example.org" ]} ]};
     trace := [] |}.

(** An instance of [send_without_transporter]. *)
Lemma send_without_transporter_witness :
  send (mustache show0) text0 deliver0 (Some (request "welcome"))
    (Some 1%positive) (Some reported) unstarted
  = (Throw (SyntaxError "undefined is not valid JSON"), unstarted).
Proof.
  apply (send_without_transporter (mustache show0) text0 deliver0
           (request "welcome") 1%positive reported unstarted);
    reflexivity.
Defined.

(** An instance of [send_render_exception]: the subject of 'broken' has
    a tag that is not closed. *)
Lemma send_render_exception_witness :
  send (mustache show0) text0 deliver0 (Some (request "broken"))
    (Some 1%positive) (Some reported) demo
  = (Throw Mustache.unclosed,
     with_heap
       (add_events demo
          [Render (VStr "{{ oops") (compileData demo (request "broken"))])
       (<[1%positive := delete "transporter" ann]> (heap demo))).
Proof.
  apply (send_render_exception (mustache show0) text0 deliver0
           (request "broken") 1%positive reported demo ann).
  - reflexivity.
  - reflexivity.
  - reflexivity.
  - vm_compute. reflexivity.
Defined.

(** A transport that refuses every mail. *)
Definition refused : value :=
  VObj {[ "message" := VStr "connection refused";
          "code" := VStr "ECONNREFUSED" ]}.

Definition deliver_refused : value → gmap string value → value * value :=
  fun _ _ => (refused, VUndef).

(** An instance of [transport_error_is_unwrapped]. *)
Lemma transport_error_witness :
  let cfg := json_value (chosen_transporter demo ann) in
  let m' := forwarded ann welcome_content in
  send (mustache show0) text0 deliver_refused (Some (request "welcome"))
    (Some 1%positive) (Some reported) demo
  = (Ok (),
     with_heap
       (add_events demo
          (welcome_events
           ++ [CreateTransport cfg; SendMail 1%positive m';
               Log "error" [VStr "error in sendMail: "; refused];
               Callback [or (prop refused "message") refused; VUndef]]))
       (<[1%positive := m']> (heap demo))).
Proof.
  intros cfg m'.
  apply (transport_error_is_unwrapped (mustache show0) text0 deliver_refused
           (request "welcome") 1%positive demo ann welcome_content
           welcome_events refused VUndef).
  - reflexivity.
  - reflexivity.
  - reflexivity.
  - exact welcome_built.
  - reflexivity.
  - reflexivity.
Defined.

End MailerPaths.
